(** * Job control of the shell in [sh.c]

    A shallow embedding of the job-control part of [sh.c]: the shell's
    global variables, the system calls it makes, [get_job_info], the
    terminal helpers, [wait_for_job], [reap_background_processes],
    [handle_builtin] and the part of [main] that runs one parsed command.
    Around it: [is_empty_or_whitespace] and [parse] on the typed line,
    [init_signal_handlers], [setup_redirections] and the forked child
    as a process of their own, and one turn of the loop of [main] from
    the drain of the reaper to the end of the loop body.

    C [int] and [pid_t] values are [Z].  The only arithmetic of the program
    is [next_jid++], written with its 32-bit wrap-around.  The shell is one
    process; the operating system is an oracle that answers each system
    call, so that every success and failure of every call is covered. *)

From Stdlib Require Import ZArith List String Ascii Bool Lia DecimalString.
From Stdlib Require Import Sorted.
From Stdlib Require DecimalFacts DecimalPos.
Import ListNotations.
Local Open Scope string_scope.
Local Open Scope list_scope.
Local Open Scope Z_scope.

(** ** The job table *)

(** Modelled from the spec: [jobs.h] and its implementation are not among
    the sources; [process_state_t] is the spec's state enum
    {RUNNING, STOPPED}. *)
Inductive process_state_t : Type := RUNNING | STOPPED.

(** [==] on [process_state_t]. *)
Definition process_state_eqb (a b : process_state_t) : bool :=
  match a, b with
  | RUNNING, RUNNING | STOPPED, STOPPED => true
  | _, _ => false
  end.

(** Modelled from the spec: the Job of the data model (job id, pid, state,
    display name); the C element type of [jobs.h] is missing. *)
Record job_element : Type := mkJob {
  j_jid : Z;
  j_pid : Z;
  j_state : process_state_t;
  j_command : string
}.

(** Modelled from the spec: the JobTable, an ordered sequence of jobs with
    a fixed maximum number of concurrent jobs; [job_list_t] of [jobs.h] is
    missing. *)
Record job_list_t : Type := mkJobList {
  entries : list job_element;
  capacity : nat
}.

Module JobTable.

(** Modelled from the spec: [init_job_list] is missing; the table is
    created empty at shell startup. *)
Definition init (cap : nat) : job_list_t := mkJobList [] cap.

(** Modelled from the spec: whether a pid, or a job id, is already
    present; the tests that [add] and [set_state] make. *)
Definition has_pid (l : list job_element) (p : Z) : bool :=
  existsb (fun j => j_pid j =? p) l.

(** Modelled from the spec: see [has_pid]. *)
Definition has_jid (l : list job_element) (i : Z) : bool :=
  existsb (fun j => j_jid j =? i) l.

(** Modelled from the spec: [find_by_job_id]. *)
Definition find_by_job_id (jl : job_list_t) (i : Z) : option job_element :=
  find (fun j => j_jid j =? i) (entries jl).

(** Modelled from the spec: the lookup by pid that the reaper needs to
    attach a job id to an event. *)
Definition find_by_pid (jl : job_list_t) (p : Z) : option job_element :=
  find (fun j => j_pid j =? p) (entries jl).

(** Modelled from the spec: [add] fails if the pid or the job id is
    already present, or if the table is at capacity; otherwise it inserts
    the entry. *)
Definition add (jl : job_list_t) (i p : Z) (s : process_state_t)
    (name : string) : option job_list_t :=
  if has_pid (entries jl) p || has_jid (entries jl) i
     || (capacity jl <=? List.length (entries jl))%nat
  then None
  else Some (mkJobList (entries jl ++ [mkJob i p s name]) (capacity jl)).

(** Modelled from the spec: [remove_by_pid] gives back the job id it
    found and is a no-op when the pid is absent. *)
Definition remove_by_pid (jl : job_list_t) (p : Z)
    : option Z * job_list_t :=
  (option_map j_jid (find_by_pid jl p),
   mkJobList (filter (fun j => negb (j_pid j =? p)) (entries jl))
             (capacity jl)).

(** Modelled from the spec: [remove_by_job_id] gives back the pid it
    found and is a no-op when the job id is absent. *)
Definition remove_by_job_id (jl : job_list_t) (i : Z)
    : option Z * job_list_t :=
  (option_map j_pid (find_by_job_id jl i),
   mkJobList (filter (fun j => negb (j_jid j =? i)) (entries jl))
             (capacity jl)).

(** Modelled from the spec: the table entries with the state of the job
    of pid [p] set to [s], the side effect of [set_state]. *)
Definition mark (p : Z) (s : process_state_t) (l : list job_element)
    : list job_element :=
  map (fun j => if j_pid j =? p
                then mkJob (j_jid j) (j_pid j) s (j_command j)
                else j) l.

(** Modelled from the spec: [set_state] fails if the pid is not
    tracked. *)
Definition set_state (jl : job_list_t) (p : Z) (s : process_state_t)
    : option job_list_t :=
  if has_pid (entries jl) p
  then Some (mkJobList (mark p s (entries jl)) (capacity jl))
  else None.

End JobTable.

(** Modelled from the spec: the C entry points of [jobs.h] that [sh.c]
    calls are missing; they are the JobTable operations with the return
    conventions [sh.c] tests: 0 on success and -1 on failure, a pid or a
    job id on a successful lookup and -1 otherwise.  Each one returns the
    table it leaves behind.  [add_job] is [add]. *)
Definition add_job (jl : job_list_t) (i p : Z) (s : process_state_t)
    (name : string) : Z * job_list_t :=
  match JobTable.add jl i p s name with
  | Some jl' => (0, jl')
  | None => (-1, jl)
  end.

(** Modelled from the spec: [remove_job_pid] of [jobs.h] is
    [remove_by_pid]. *)
Definition remove_job_pid (jl : job_list_t) (p : Z) : Z * job_list_t :=
  match JobTable.remove_by_pid jl p with
  | (Some _, jl') => (0, jl')
  | (None, jl') => (-1, jl')
  end.

(** Modelled from the spec: [remove_job_jid] of [jobs.h] is
    [remove_by_job_id]. *)
Definition remove_job_jid (jl : job_list_t) (i : Z) : Z * job_list_t :=
  match JobTable.remove_by_job_id jl i with
  | (Some _, jl') => (0, jl')
  | (None, jl') => (-1, jl')
  end.

(** Modelled from the spec: [update_job_pid] of [jobs.h] is
    [set_state]. *)
Definition update_job_pid (jl : job_list_t) (p : Z) (s : process_state_t)
    : Z * job_list_t :=
  match JobTable.set_state jl p s with
  | Some jl' => (0, jl')
  | None => (-1, jl)
  end.

(** Modelled from the spec: [get_job_pid] of [jobs.h] is
    [find_by_job_id], -1 when nothing is found (sh.c:55-58). *)
Definition get_job_pid (jl : job_list_t) (i : Z) : Z :=
  match JobTable.find_by_job_id jl i with
  | Some j => j_pid j
  | None => -1
  end.

(** Modelled from the spec: [get_job_jid] of [jobs.h] is the lookup by
    pid, -1 when nothing is found (sh.c:164-167). *)
Definition get_job_jid (jl : job_list_t) (p : Z) : Z :=
  match JobTable.find_by_pid jl p with
  | Some j => j_jid j
  | None => -1
  end.

(** ** Wait statuses, system calls and the world *)

(** The [int] status filled in by [waitpid], as the four cases the
    [WIF...] macros tell apart. *)
Inductive wstatus : Type :=
| W_EXITED (code : Z)
| W_SIGNALED (sig : Z)
| W_STOPPED (sig : Z)
| W_CONTINUED.

Definition WIFEXITED (s : wstatus) : bool :=
  match s with W_EXITED _ => true | _ => false end.
Definition WIFSIGNALED (s : wstatus) : bool :=
  match s with W_SIGNALED _ => true | _ => false end.
Definition WIFSTOPPED (s : wstatus) : bool :=
  match s with W_STOPPED _ => true | _ => false end.
Definition WIFCONTINUED (s : wstatus) : bool :=
  match s with W_CONTINUED => true | _ => false end.
Definition WEXITSTATUS (s : wstatus) : Z :=
  match s with W_EXITED c => c | _ => 0 end.
Definition WTERMSIG (s : wstatus) : Z :=
  match s with W_SIGNALED n => n | _ => 0 end.
Definition WSTOPSIG (s : wstatus) : Z :=
  match s with W_STOPPED n => n | _ => 0 end.

(** Constants of the system headers, with their Linux values. *)
Definition SIGCONT : Z := 18.
Definition ECHILD : Z := 10.
Definition EACCES : Z := 13.

(** [waitpid] option sets used by the shell: [WUNTRACED] alone blocks,
    the reaper's set has [WNOHANG]. *)
Inductive wait_options : Type :=
| WUNTRACED
| WNOHANG_WUNTRACED_WCONTINUED.

Inductive syscall : Type :=
| SYS_tcsetpgrp (pgid : Z)
| SYS_kill (target : Z) (signal : Z)
| SYS_waitpid (p : Z) (options : wait_options)
| SYS_fork
| SYS_setpgid (p pgid : Z)
| SYS_chdir (path : string)
| SYS_link (src dst : string)
| SYS_unlink (path : string).

Definition is_blocking_wait (c : syscall) : bool :=
  match c with
  | SYS_waitpid _ WUNTRACED => true
  | _ => false
  end.

(** What the operating system answers to a call: the return value, the
    status stored through the pointer (for [waitpid]) and [errno]. *)
Record answer : Type := mkAnswer {
  ans_ret : Z;
  ans_status : wstatus;
  ans_errno : Z
}.

Inductive out_event : Type :=
| Stdout (line : string)
| Stderr (line : string)
| Perror (tag : string)
| JobsListing (l : list job_element).

Record world : Type := mkWorld {
  (* the globals of sh.c *)
  job_list : job_list_t;
  fg_pid : Z;
  next_jid : Z;
  foreground_job_id : Z;
  (* the operating system, as the shell process sees it *)
  oracle : nat -> syscall -> answer;
  clock : nat;
  shell_pgid : Z;
  term_owner : Z;
  calls : list syscall;
  output : list out_event
}.

Definition set_job_list (jl : job_list_t) (w : world) : world :=
  mkWorld jl (fg_pid w) (next_jid w) (foreground_job_id w) (oracle w)
          (clock w) (shell_pgid w) (term_owner w) (calls w) (output w).
Definition set_fg_pid (p : Z) (w : world) : world :=
  mkWorld (job_list w) p (next_jid w) (foreground_job_id w) (oracle w)
          (clock w) (shell_pgid w) (term_owner w) (calls w) (output w).
Definition set_next_jid (n : Z) (w : world) : world :=
  mkWorld (job_list w) (fg_pid w) n (foreground_job_id w) (oracle w)
          (clock w) (shell_pgid w) (term_owner w) (calls w) (output w).
Definition set_foreground_job_id (n : Z) (w : world) : world :=
  mkWorld (job_list w) (fg_pid w) (next_jid w) n (oracle w)
          (clock w) (shell_pgid w) (term_owner w) (calls w) (output w).
Definition set_term_owner (g : Z) (w : world) : world :=
  mkWorld (job_list w) (fg_pid w) (next_jid w) (foreground_job_id w)
          (oracle w) (clock w) (shell_pgid w) g (calls w) (output w).
Definition emit (e : out_event) (w : world) : world :=
  mkWorld (job_list w) (fg_pid w) (next_jid w) (foreground_job_id w)
          (oracle w) (clock w) (shell_pgid w) (term_owner w) (calls w)
          (output w ++ [e]).
Definition tick (c : syscall) (w : world) : world :=
  mkWorld (job_list w) (fg_pid w) (next_jid w) (foreground_job_id w)
          (oracle w) (S (clock w)) (shell_pgid w) (term_owner w)
          (calls w ++ [c]) (output w).

(** ** A state monad over the world *)

Definition M (A : Type) : Type := world -> A * world.

Definition ret {A} (a : A) : M A := fun w => (a, w).
Definition bind {A B} (m : M A) (k : A -> M B) : M B :=
  fun w => let (a, w') := m w in k a w'.
Definition gets {A} (f : world -> A) : M A := fun w => (f w, w).
Definition modify (f : world -> world) : M unit := fun w => (tt, f w).

Notation "x <- m ;; k" := (bind m (fun x => k))
  (at level 61, m at next level, right associativity).
Notation "m ;;; k" := (bind m (fun _ => k))
  (at level 61, right associativity).

(** A system call: the oracle answers, the call is recorded. *)
Definition sys (c : syscall) : M answer :=
  fun w => (oracle w (clock w) c, tick c w).

(** [tcsetpgrp(STDIN_FILENO, pgid)]: on success the terminal's foreground
    process group becomes [pgid]. *)
Definition tcsetpgrp (pgid : Z) : M Z :=
  a <- sys (SYS_tcsetpgrp pgid) ;;
  if ans_ret a <? 0 then ret (ans_ret a)
  else modify (set_term_owner pgid) ;;; ret (ans_ret a).

(** [getpgrp()]: the process group of the shell. *)
Definition getpgrp : M Z := gets shell_pgid.

Definition fprintf_stdout (s : string) : M unit := modify (emit (Stdout s)).
Definition fprintf_stderr (s : string) : M unit := modify (emit (Stderr s)).
Definition perror (tag : string) : M unit := modify (emit (Perror tag)).

(** Calls into the job table through the global [job_list]. *)
Definition on_job_list (f : job_list_t -> Z * job_list_t) : M Z :=
  fun w => let (r, jl) := f (job_list w) in (r, set_job_list jl w).

(** ** Formatting *)

Definition LF : string := String (ascii_of_nat 10) EmptyString.

(** [%d] of [printf]. *)
Definition dec (z : Z) : string := NilZero.string_of_int (Z.to_int z).

Definition fmt (pieces : list string) : string :=
  String.concat EmptyString pieces.

(** The format strings of [sh.c], with their arguments filled in. *)
Definition msg_exited (jid pid code : Z) : string :=
  fmt ["["; dec jid; "] ("; dec pid; ") terminated with exit status ";
       dec code; LF].
Definition msg_signaled (jid pid sig : Z) : string :=
  fmt ["["; dec jid; "] ("; dec pid; ") terminated by signal "; dec sig; LF].
Definition msg_signaled_nojid (pid sig : Z) : string :=
  fmt ["("; dec pid; ") terminated by signal "; dec sig; LF].
Definition msg_suspended (jid pid sig : Z) : string :=
  fmt ["["; dec jid; "] ("; dec pid; ") suspended by signal "; dec sig; LF].
Definition msg_resumed (jid pid : Z) : string :=
  fmt ["["; dec jid; "] ("; dec pid; ") resumed"; LF].
Definition msg_background (jid pid : Z) : string :=
  fmt ["["; dec jid; "] ("; dec pid; ")"; LF].
Definition msg_no_such_job : string := fmt ["ERROR: No such job"; LF].
Definition msg_already_running : string :=
  fmt ["ERROR: Job is already running"; LF].
Definition msg_add_failed : string :=
  fmt ["Error: Failed to add job to job list"; LF].

(** ** 32-bit [int] *)

Definition INT_MAX : Z := 2147483647.

Definition int_wrap (z : Z) : Z := (z + 2 ^ 31) mod 2 ^ 32 - 2 ^ 31.

(** [n + 1] in an [int], as [next_jid++] computes it. *)
Definition int_succ (n : Z) : Z := int_wrap (n + 1).

(** ** Parsed commands (sh.c:22-40) *)

Inductive command_type : Type := CMD_REGULAR | CMD_FG | CMD_BG | CMD_JOBS.

Record parse_result : Type := mkParseResult {
  command_path : option string;
  input_file : option string;
  output_file : option string;
  append_mode : Z;
  argv : list string;
  background : Z;
  cmd_type : command_type;
  job_id : Z
}.

(** What [parse] stores for [fg %N] and [bg %N] (sh.c:304-331). *)
Definition job_control_command (t : command_type) (n : Z) : parse_result :=
  let name := match t with CMD_FG => "fg" | _ => "bg" end in
  mkParseResult (Some name) None None 0 [name] 0 t n.

(** ** The helpers of sh.c *)

(** sh.c:50-73.  [None] is the return value -1; [Some (pid, state)] is the
    return value 0 with what was stored through [pid] and [state].  The
    three pointers tested at the top are never null: [job_list] is set
    before the loop starts and the other two are addresses of locals. *)
Definition get_job_info (jid : Z) : M (option (Z * process_state_t)) :=
  pid <- gets (fun w => get_job_pid (job_list w) jid) ;;
  if pid =? -1 then ret None
  else
    let current_state := RUNNING in
    r1 <- on_job_list (fun jl => update_job_pid jl pid current_state) ;;
    if r1 =? -1 then ret None
    else
      r2 <- on_job_list (fun jl => update_job_pid jl pid STOPPED) ;;
      if negb (r2 =? -1) then
        on_job_list (fun jl => update_job_pid jl pid current_state) ;;;
        ret (Some (pid, STOPPED))
      else ret (Some (pid, RUNNING)).

(** sh.c:82-92. *)
Definition send_signal_to_job (pid signal : Z) : M Z :=
  if pid <=? 0 then ret (-1)
  else
    a <- sys (SYS_kill (- pid) signal) ;;
    if ans_ret a <? 0 then perror "kill" ;;; ret (-1) else ret 0.

(** sh.c:100-110. *)
Definition give_terminal_to (pgid : Z) : M Z :=
  if pgid <=? 0 then ret (-1)
  else
    r <- tcsetpgrp pgid ;;
    if r <? 0 then perror "tcsetpgrp" ;;; ret (-1) else ret 0.

(** sh.c:117-129. *)
Definition take_terminal_control : M Z :=
  shell_pgid <- getpgrp ;;
  if shell_pgid <? 0 then perror "getpgrp" ;;; ret (-1)
  else
    r <- tcsetpgrp shell_pgid ;;
    if r <? 0 then perror "tcsetpgrp" ;;; ret (-1) else ret 0.

(** sh.c:138-149.  [None] is the return value -1, where [*status] is not
    read by the caller; [Some (r, status)] is the return value [r] with
    the status [waitpid] stored. *)
Definition wait_for_job (pid : Z) : M (option (Z * wstatus)) :=
  if pid <=? 0 then ret None
  else
    a <- sys (SYS_waitpid pid WUNTRACED) ;;
    if ans_ret a <? 0 then perror "waitpid" ;;; ret None
    else ret (Some (if WIFSTOPPED (ans_status a) then 1 else 0,
                    ans_status a)).

(** ** The reaper (sh.c:157-229) *)

(** The body of the [while] loop for one child [pid] whose state changed
    to [status] (sh.c:164-220).  [reaped] is the local of that name; the
    body returns its new value, which the [continue] at sh.c:168 leaves
    as it was. *)
Definition reap_body (pid : Z) (status : wstatus) (reaped : Z) : M Z :=
  jid <- gets (fun w => get_job_jid (job_list w) pid) ;;
  fg <- gets fg_pid ;;
  if (jid =? -1) && negb (pid =? fg) then ret reaped
  else
    (if WIFEXITED status then
       if jid >? 0 then
         fprintf_stdout (msg_exited jid pid (WEXITSTATUS status)) ;;;
         on_job_list (fun jl => remove_job_pid jl pid) ;;; ret tt
       else ret tt
     else if WIFSIGNALED status then
       if jid >? 0 then
         fprintf_stdout (msg_signaled jid pid (WTERMSIG status)) ;;;
         on_job_list (fun jl => remove_job_pid jl pid) ;;; ret tt
       else fprintf_stdout (msg_signaled_nojid pid (WTERMSIG status))
     else if WIFSTOPPED status then
       if jid =? -1 then
         let command_buf := if fg =? pid then "fg_command" else "bg_command" in
         n <- gets next_jid ;;
         r <- on_job_list (fun jl => add_job jl n pid STOPPED command_buf) ;;
         if r =? 0 then
           modify (set_next_jid (int_succ n)) ;;;
           fprintf_stdout (msg_suspended n pid (WSTOPSIG status))
         else fprintf_stderr msg_add_failed
       else
         on_job_list (fun jl => update_job_pid jl pid STOPPED) ;;;
         fprintf_stdout (msg_suspended jid pid (WSTOPSIG status))
     else if WIFCONTINUED status then
       if jid >? 0 then
         on_job_list (fun jl => update_job_pid jl pid RUNNING) ;;;
         fprintf_stdout (msg_resumed jid pid)
       else ret tt
     else ret tt) ;;;
    ret 1.

(** One turn of the [while] loop of sh.c:163-221: the non-blocking
    [waitpid], then either the body ([inl], with the new [reaped], to go
    round again) or the end of the loop with the error check of
    sh.c:224-226 ([inr], with the value to return). *)
Definition reap_turn (reaped : Z) : M (Z + Z) :=
  a <- sys (SYS_waitpid (-1) WNOHANG_WUNTRACED_WCONTINUED) ;;
  let pid := ans_ret a in
  if pid >? 0 then
    reaped' <- reap_body pid (ans_status a) reaped ;; ret (inl reaped')
  else
    (if (pid <? 0) && negb (ans_errno a =? ECHILD)
     then perror "waitpid" else ret tt) ;;;
    ret (inr reaped).

(** The loop itself.  [fuel] bounds the number of turns, and [None] is
    returned only when it runs out. *)
Fixpoint reap_loop (fuel : nat) (reaped : Z) : M (option Z) :=
  match fuel with
  | O => ret None
  | S fuel' =>
      t <- reap_turn reaped ;;
      match t with
      | inl reaped' => reap_loop fuel' reaped'
      | inr r => ret (Some r)
      end
  end.

Definition reap_background_processes (fuel : nat) : M (option Z) :=
  reap_loop fuel 0.

(** ** Built-in commands (sh.c:443-581) *)

(** [handle_builtin] either returns an [int] or, for [exit], ends the
    shell process. *)
Inductive builtin_result : Type :=
| Returns (r : Z)
| Exits (code : Z).

Fixpoint strchr (s : string) (c : ascii) : bool :=
  match s with
  | EmptyString => false
  | String a rest => Ascii.eqb a c || strchr rest c
  end.

Definition slash : ascii := ascii_of_nat 47.

(** The [fg] branch, sh.c:459-495, entered with the [pid] found by
    [get_job_info]. *)
Definition builtin_fg (result : parse_result) (pid : Z) : M Z :=
  g <- give_terminal_to pid ;;
  failed <- (if g <? 0 then ret true
             else k <- send_signal_to_job pid SIGCONT ;; ret (k <? 0)) ;;
  if failed : bool then take_terminal_control ;;; ret (-1)
  else
    modify (set_fg_pid pid) ;;;
    modify (set_foreground_job_id (job_id result)) ;;;
    on_job_list (fun jl => update_job_pid jl pid RUNNING) ;;;
    wr <- wait_for_job pid ;;
    match wr with
    | None => take_terminal_control ;;; ret (-1)
    | Some (wait_result, status) =>
        (if (wait_result =? 1) && WIFSTOPPED status then
           fprintf_stdout
             (msg_suspended (job_id result) pid (WSTOPSIG status)) ;;;
           on_job_list (fun jl => update_job_pid jl pid STOPPED) ;;; ret tt
         else if WIFSIGNALED status then
           fprintf_stdout (msg_signaled_nojid pid (WTERMSIG status)) ;;;
           on_job_list (fun jl => remove_job_jid jl (job_id result)) ;;;
           ret tt
         else
           on_job_list (fun jl => remove_job_jid jl (job_id result)) ;;;
           ret tt) ;;;
        modify (set_fg_pid (-1)) ;;;
        modify (set_foreground_job_id (-1)) ;;;
        t <- take_terminal_control ;;
        ret (if t =? 0 then 1 else -1)
    end.

(** The [bg] branch, sh.c:496-508. *)
Definition builtin_bg (pid : Z) (state : process_state_t) : M Z :=
  if negb (process_state_eqb state STOPPED) then
    fprintf_stderr msg_already_running ;;; ret (-1)
  else
    k <- send_signal_to_job pid SIGCONT ;;
    if k <? 0 then ret (-1)
    else on_job_list (fun jl => update_job_pid jl pid RUNNING) ;;; ret 1.

(** The file-system built-ins of sh.c:531-578, on [argv[1]], [argv[2]],
    ...: argument count checks, one system call, [perror] on failure. *)
Definition builtin_cd (args : list string) : M Z :=
  match args with
  | [] => fprintf_stderr (fmt ["ERROR: cd requires a directory argument"; LF])
          ;;; ret (-1)
  | [dir] =>
      a <- sys (SYS_chdir dir) ;;
      if ans_ret a <? 0 then perror "cd" ;;; ret (-1) else ret 1
  | _ => fprintf_stderr (fmt ["ERROR: cd takes only one argument"; LF])
         ;;; ret (-1)
  end.

Definition builtin_ln (args : list string) : M Z :=
  match args with
  | [src; dst] =>
      a <- sys (SYS_link src dst) ;;
      if ans_ret a <? 0 then perror "ln" ;;; ret (-1) else ret 1
  | _ :: _ :: _ :: _ =>
      fprintf_stderr (fmt ["ERROR: ln takes exactly two arguments"; LF])
      ;;; ret (-1)
  | _ => fprintf_stderr
           (fmt ["ERROR: ln requires source and destination arguments"; LF])
         ;;; ret (-1)
  end.

Definition builtin_rm (args : list string) : M Z :=
  match args with
  | [] => fprintf_stderr (fmt ["ERROR: rm requires a file argument"; LF])
          ;;; ret (-1)
  | [file] =>
      a <- sys (SYS_unlink file) ;;
      if ans_ret a <? 0 then perror "rm" ;;; ret (-1) else ret 1
  | _ => fprintf_stderr (fmt ["ERROR: rm takes only one argument"; LF])
         ;;; ret (-1)
  end.

(** sh.c:443-581. *)
Definition handle_builtin (result : parse_result) : M builtin_result :=
  match command_path result, argv result with
  | None, _ | _, [] => ret (Returns (-1))
  | Some path, argv0 :: rest =>
      match cmd_type result with
      | CMD_FG | CMD_BG =>
          info <- get_job_info (job_id result) ;;
          match info with
          | None => fprintf_stderr msg_no_such_job ;;; ret (Returns (-1))
          | Some (pid, state) =>
              match cmd_type result with
              | CMD_FG => r <- builtin_fg result pid ;; ret (Returns r)
              | _ => r <- builtin_bg pid state ;; ret (Returns r)
              end
          end
      | _ =>
          if strchr path slash then ret (Returns 0)
          else if String.eqb argv0 "exit" then
            match rest with
            | _ :: _ =>
                fprintf_stderr
                  (fmt ["ERROR: exit command takes no arguments"; LF]) ;;;
                ret (Returns (-1))
            | [] => ret (Exits 0)
            end
          else if String.eqb argv0 "jobs" then
            jl <- gets job_list ;;
            modify (emit (JobsListing (entries jl))) ;;; ret (Returns 1)
          else if String.eqb argv0 "cd" then
            r <- builtin_cd rest ;; ret (Returns r)
          else if String.eqb argv0 "ln" then
            r <- builtin_ln rest ;; ret (Returns r)
          else if String.eqb argv0 "rm" then
            r <- builtin_rm rest ;; ret (Returns r)
          else ret (Returns 0)
      end
  end.

(** ** One command of the main loop (sh.c:647-741) *)

(** How one turn of the [while (1)] loop ends: by going round again, by
    the shell exiting, or, in the forked child, by leaving the shell's
    code for [execv] or [exit(1)]. *)
Inductive loop_ctl : Type :=
| Continue
| ShellExit (code : Z)
| InChild.

Definition path_of (result : parse_result) : string :=
  match command_path result with Some s => s | None => EmptyString end.

(** The parent after a successful [fork], sh.c:694-741. *)
Definition main_parent (result : parse_result) (pid : Z) : M unit :=
  a <- sys (SYS_setpgid pid pid) ;;
  (if (ans_ret a <? 0) && negb (ans_errno a =? EACCES)
   then perror "setpgid" else ret tt) ;;;
  if background result =? 0 then
    modify (set_fg_pid pid) ;;;
    r <- tcsetpgrp pid ;;
    (if r <? 0 then perror "tcsetpgrp" else ret tt) ;;;
    a <- sys (SYS_waitpid pid WUNTRACED) ;;
    (if ans_ret a <? 0 then perror "waitpid"
     else
       let status := ans_status a in
       if WIFSTOPPED status then
         n <- gets next_jid ;;
         r <- on_job_list
                (fun jl => add_job jl n pid STOPPED (path_of result)) ;;
         if r =? 0 then
           fprintf_stdout (msg_suspended n pid (WSTOPSIG status)) ;;;
           modify (set_next_jid (int_succ n))
         else fprintf_stderr msg_add_failed
       else if WIFSIGNALED status then
         fprintf_stdout (msg_signaled_nojid pid (WTERMSIG status))
       else ret tt) ;;;
    modify (set_fg_pid (-1)) ;;;
    g <- getpgrp ;;
    r <- tcsetpgrp g ;;
    if r <? 0 then perror "tcsetpgrp" else ret tt
  else
    n <- gets next_jid ;;
    r <- on_job_list (fun jl => add_job jl n pid RUNNING (path_of result)) ;;
    if r =? 0 then
      fprintf_stdout (msg_background n pid) ;;;
      modify (set_next_jid (int_succ n))
    else fprintf_stderr msg_add_failed.

(** sh.c:647-741, from the call of [handle_builtin] to the end of the
    loop body, for a command that [parse] accepted. *)
Definition main_command (result : parse_result) : M loop_ctl :=
  b <- handle_builtin result ;;
  match b with
  | Exits code => ret (ShellExit code)
  | Returns builtin_status =>
      if negb (builtin_status =? 0) then ret Continue
      else
        a <- sys SYS_fork ;;
        let pid := ans_ret a in
        if pid <? 0 then perror "fork" ;;; ret Continue
        else if pid =? 0 then ret InChild
        else main_parent result pid ;;; ret Continue
  end.

(** The shell as [main] has it when the loop starts: an empty table,
    no foreground job, next job id 1 (sh.c:17-20 and 598). *)
Definition initial_world (cap : nat) (os : nat -> syscall -> answer)
    (pgid : Z) : world :=
  mkWorld (JobTable.init cap) (-1) 1 (-1) os 0 pgid pgid [] [].

(** ** Sessions

    What the shell does between startup and exit is a sequence of reaper
    turns and commands; the oracle decides what each system call in them
    sees. *)
Inductive action : Type :=
| ReaperTurn
| Command (result : parse_result).

Definition perform (a : action) : M loop_ctl :=
  match a with
  | ReaperTurn => reap_turn 0 ;;; ret Continue
  | Command result => main_command result
  end.

Fixpoint run (l : list action) (w : world) : world :=
  match l with
  | [] => w
  | a :: l' =>
      match perform a w with
      | (Continue, w') => run l' w'
      | (_, w') => w'
      end
  end.

Definition jids (w : world) : list Z := map j_jid (entries (job_list w)).
Definition pids (w : world) : list Z := map j_pid (entries (job_list w)).

Definition mem (i : Z) (l : list Z) : bool := existsb (Z.eqb i) l.

(** The job ids that are in the table after a step and were not before:
    the ids the step issued. *)
Definition new_ids (w w' : world) : list Z :=
  filter (fun i => negb (mem i (jids w))) (jids w').

(** The ids issued along a session, in order. *)
Fixpoint issued (l : list action) (w : world) : list Z :=
  match l with
  | [] => []
  | a :: l' =>
      match perform a w with
      | (Continue, w') => new_ids w w' ++ issued l' w'
      | (_, w') => new_ids w w'
      end
  end.

(** [k] consecutive ids from [n] on. *)
Fixpoint ids_from (n : Z) (k : nat) : list Z :=
  match k with
  | O => []
  | S k' => n :: ids_from (n + 1) k'
  end.

(** The lines the shell itself wrote with [fprintf] to standard error and
    to standard output ([perror] reports are kept apart, as [Perror]). *)
Definition stderr_messages (o : list out_event) : list string :=
  flat_map (fun e => match e with Stderr s => [s] | _ => [] end) o.
Definition stdout_messages (o : list out_event) : list string :=
  flat_map (fun e => match e with Stdout s => [s] | _ => [] end) o.

(** ** Sample worlds

    A table holding one job, and operating systems that answer every call
    with success except where said otherwise. *)
Module Sample.

Definition ok : answer := mkAnswer 0 (W_EXITED 0) 0.
Definition failed : answer := mkAnswer (-1) (W_EXITED 0) 4.

(** Every call succeeds; a waited-for child has exited with status 0;
    nothing is pending for the reaper. *)
Definition os_ok : nat -> syscall -> answer := fun _ _ => ok.

(** The blocking [waitpid] fails. *)
Definition os_wait_fails : nat -> syscall -> answer :=
  fun _ c => if is_blocking_wait c then failed else ok.

(** Handing the terminal to group 100 fails. *)
Definition os_grant_fails : nat -> syscall -> answer :=
  fun _ c => match c with SYS_tcsetpgrp 100 => failed | _ => ok end.

(** Sending the signal fails. *)
Definition os_kill_fails : nat -> syscall -> answer :=
  fun _ c => match c with SYS_kill _ _ => failed | _ => ok end.

(** The blocking [waitpid] reports death by signal 9. *)
Definition os_killed : nat -> syscall -> answer :=
  fun _ c => if is_blocking_wait c then mkAnswer 100 (W_SIGNALED 9) 0
             else ok.

(** The blocking [waitpid] reports a stop by signal 20. *)
Definition os_stopped : nat -> syscall -> answer :=
  fun _ c => if is_blocking_wait c then mkAnswer 100 (W_STOPPED 20) 0
             else ok.

(** The reaper's [waitpid] reports that child 100 did [s]. *)
Definition os_event (s : wstatus) : nat -> syscall -> answer :=
  fun _ c => match c with
             | SYS_waitpid _ WNOHANG_WUNTRACED_WCONTINUED =>
                 mkAnswer 100 s 0
             | _ => ok
             end.

(** The shell, process group 50, with job 1 = pid 100 in state [s]. *)
Definition one_job (s : process_state_t) (os : nat -> syscall -> answer)
    : world :=
  mkWorld (mkJobList [mkJob 1 100 s "/bin/sleep"] 8) (-1) 2 (-1)
          os 0 50 50 [] [].

(** The same with pid 100 in the foreground and not in the table. *)
Definition foreground_100 (cap : nat) (os : nat -> syscall -> answer)
    : world :=
  mkWorld (mkJobList [] cap) 100 1 (-1) os 0 50 100 [] [].

(** [fork] returns child 100, whose blocking wait reports [s]. *)
Definition os_child (s : wstatus) : nat -> syscall -> answer :=
  fun _ c => match c with
             | SYS_fork => mkAnswer 100 (W_EXITED 0) 0
             | SYS_waitpid _ WUNTRACED => mkAnswer 100 s 0
             | _ => ok
             end.

Definition sleep_bg : parse_result :=
  mkParseResult (Some "/bin/sleep") None None 0 ["sleep"; "100"] 1
                CMD_REGULAR (-1).
Definition sleep_fg : parse_result :=
  mkParseResult (Some "/bin/sleep") None None 0 ["sleep"; "100"] 0
                CMD_REGULAR (-1).

(** Two background launches with the first child gone in between:
    [fork] answers 100 and, from the fourth system call on, 101; the
    reaper's poll finds that child 100 exited with status 0. *)
Definition os_two_jobs : nat -> syscall -> answer :=
  fun t c => match c with
             | SYS_fork =>
                 mkAnswer (if (t <? 3)%nat then 100 else 101) (W_EXITED 0) 0
             | SYS_waitpid _ WNOHANG_WUNTRACED_WCONTINUED =>
                 mkAnswer 100 (W_EXITED 0) 0
             | _ => ok
             end.

Definition two_jobs_session : list action :=
  [Command sleep_bg; ReaperTurn; Command sleep_bg].

End Sample.

(** ** Vocabulary of the statements *)

(** The last system call made so far is [c]. *)
Definition last_call (w : world) (c : syscall) : Prop :=
  exists earlier, calls w = earlier ++ [c].

(** The operating system carried out the last system call made so far
    (it answered it with a non-negative value). *)
Definition last_call_succeeded (w : world) : Prop :=
  match rev (calls w) with
  | c :: _ => 0 <= ans_ret (oracle w (Nat.pred (clock w)) c)
  | [] => False
  end.

(** The state lookup as the spec words it, for comparison with
    [get_job_info]: direct inspection of the stored state by
    [find_by_job_id], with no mutation of the table. *)
Definition get_job_info_direct (jid : Z) : M (option (Z * process_state_t)) :=
  jl <- gets job_list ;;
  match JobTable.find_by_job_id jl jid with
  | Some j => ret (Some (j_pid j, j_state j))
  | None => ret None
  end.

(** The reaper's poll and what the operating system answers to it in
    world [w]: the child whose state changed and its status. *)
Definition reaper_poll : syscall :=
  SYS_waitpid (-1) WNOHANG_WUNTRACED_WCONTINUED.
Definition polled (w : world) : answer := oracle w (clock w) reaper_poll.

(** [without_pid p l] is [l] without the jobs of pid [p]. *)
Definition without_pid (p : Z) (l : list job_element) : list job_element :=
  filter (fun j => negb (j_pid j =? p)) l.

(** The first clause of the spec's account of stop events, in the spec's
    words: a stopped process that is not yet in the table is entered as a
    new job with state STOPPED and the next job id. *)
Definition untracked_stop_joins_table (w : world) (reaped : Z) : Prop :=
  forall pid sig,
    ans_ret (polled w) = pid ->
    0 < pid ->
    ans_status (polled w) = W_STOPPED sig ->
    ~ In pid (pids w) ->
    exists name,
      entries (job_list (snd (reap_turn reaped w)))
      = entries (job_list w) ++ [mkJob (next_jid w) pid STOPPED name].

(** What an attempt to add a job leaves behind, from world [w] to world
    [w'], given what the add to the table answers: on success the table is
    the one with the new job and the counter has moved on, with no error
    message; on failure the table and the counter are as before and the
    shell has written its error message to standard error. *)
Definition attempt_outcome (attempt : option job_list_t) (w w' : world)
    : Prop :=
  match attempt with
  | Some jl' =>
      job_list w' = jl' /\
      next_jid w' = int_succ (next_jid w) /\
      next_jid w' <> next_jid w /\
      stderr_messages (output w') = stderr_messages (output w)
  | None =>
      job_list w' = job_list w /\
      next_jid w' = next_jid w /\
      stderr_messages (output w')
      = stderr_messages (output w)
        ++ [String.append "Error: Failed to add job to job list" LF]
  end.

(** What the operating system answers in world [w] to the [fork] of the
    next command, and to the blocking wait for that command when it runs
    in the foreground (the parent's third system call after the [fork]:
    [setpgid], [tcsetpgrp], [waitpid]). *)
Definition forked (w : world) : answer := oracle w (clock w) SYS_fork.
Definition foreground_wait (w : world) (pid : Z) : answer :=
  oracle w (3 + clock w) (SYS_waitpid pid WUNTRACED).

(** The counter is ahead of every job id of the table, and job ids are
    positive. *)
Definition counter_bounds_ids (w : world) : Prop :=
  0 < next_jid w /\ Forall (fun i => 0 < i < next_jid w) (jids w).

(** A step that issues no job id: the counter stays and the table gets no
    new id.  A step that issues one: the table gets the counter's value as
    a new last id and the counter moves on. *)
Definition quiet (w w' : world) : Prop :=
  next_jid w' = next_jid w /\ incl (jids w') (jids w).
Definition issues_one (w w' : world) : Prop :=
  next_jid w' = int_succ (next_jid w) /\ jids w' = jids w ++ [next_jid w].

(** ** Command lines (sh.c:13-14, 261-392) *)

Definition BUFFER_SIZE : nat := 1024.
Definition MAX_TOKENS : nat := 512.

(** [isspace] and [isdigit] of [ctype.h] in the C locale, on the
    character's code. *)
Definition isspace (c : ascii) : bool :=
  let n := nat_of_ascii c in
  ((n =? 32) || ((9 <=? n) && (n <=? 13)))%nat.

Definition isdigit (c : ascii) : bool :=
  let n := nat_of_ascii c in
  ((48 <=? n) && (n <=? 57))%nat.

(** sh.c:261-273.  [None] is the null pointer. *)
Fixpoint all_whitespace (s : string) : Z :=
  match s with
  | EmptyString => 1
  | String c rest => if negb (isspace c) then 0 else all_whitespace rest
  end.

Definition is_empty_or_whitespace (str : option string) : Z :=
  match str with
  | None => 1
  | Some s => all_whitespace s
  end.

(** The delimiter set of every [strtok] call of [parse]: space, tab and
    newline. *)
Definition is_delim (c : ascii) : bool :=
  let n := nat_of_ascii c in
  ((n =? 32) || (n =? 9) || (n =? 10))%nat.

(** [strtok] on what is left of the buffer: the delimiters in front are
    skipped; the token runs up to the next delimiter, which is overwritten
    with a null character, and the search resumes after it.  [None] is the
    null pointer returned when only delimiters are left. *)
Fixpoint skip_delims (s : string) : string :=
  match s with
  | EmptyString => EmptyString
  | String c rest => if is_delim c then skip_delims rest else s
  end.

Fixpoint take_token (s : string) : string * string :=
  match s with
  | EmptyString => (EmptyString, EmptyString)
  | String c rest =>
      if is_delim c then (EmptyString, rest)
      else let (t, after) := take_token rest in (String c t, after)
  end.

Definition strtok (s : string) : option (string * string) :=
  match skip_delims s with
  | EmptyString => None
  | String c rest => Some (take_token (String c rest))
  end.

(** The loop of sh.c:334-337: [cur] is the last answer of [strtok], [fuel]
    the number of slots left in [tokens]. *)
Fixpoint collect_tokens (fuel : nat) (cur : option (string * string))
    : list string :=
  match fuel, cur with
  | S fuel', Some (token, rest) => token :: collect_tokens fuel' (strtok rest)
  | _, _ => []
  end.

(** [atoi] as the C library of the Linux target computes it,
    [(int) strtol (s, NULL, 10)]: white space, an optional sign, the
    decimal digits, saturation at the bounds of [long], conversion to
    [int]. *)
Definition digit_value (c : ascii) : Z := Z.of_nat (nat_of_ascii c) - 48.

Fixpoint digits_value (s : string) (acc : Z) : Z :=
  match s with
  | EmptyString => acc
  | String c rest =>
      if isdigit c then digits_value rest (10 * acc + digit_value c) else acc
  end.

Fixpoint skip_spaces (s : string) : string :=
  match s with
  | EmptyString => EmptyString
  | String c rest => if isspace c then skip_spaces rest else s
  end.

Definition LONG_MAX : Z := 2 ^ 63 - 1.

Definition atoi (s : string) : Z :=
  match skip_spaces s with
  | String "-" rest => int_wrap (Z.max (- digits_value rest 0) (- LONG_MAX - 1))
  | String "+" rest => int_wrap (Z.min (digits_value rest 0) LONG_MAX)
  | rest => int_wrap (Z.min (digits_value rest 0) LONG_MAX)
  end.

(** [strrchr (token, '/')], then the part after the last slash or the
    whole token (sh.c:377-378). *)
Fixpoint after_last_slash (s : string) : option string :=
  match s with
  | EmptyString => None
  | String c rest =>
      match after_last_slash rest with
      | Some t => Some t
      | None => if Ascii.eqb c slash then Some rest else None
      end
  end.

Definition command_name (token : string) : string :=
  match after_last_slash token with
  | Some t => t
  | None => token
  end.

(** [tokens[i - 1][1] == '>'] (sh.c:368). *)
Definition second_char_is_gt (op : string) : Z :=
  match op with
  | String _ (String ">" _) => 1
  | _ => 0
  end.

(** The result as [memset] and sh.c:296 leave it. *)
Definition empty_result : parse_result :=
  mkParseResult None None None 0 [] 0 CMD_REGULAR (-1).

Definition with_background (r : parse_result) : parse_result :=
  mkParseResult (command_path r) (input_file r) (output_file r)
                (append_mode r) (argv r) 1 (cmd_type r) (job_id r).
Definition with_input_file (f : string) (r : parse_result) : parse_result :=
  mkParseResult (command_path r) (Some f) (output_file r)
                (append_mode r) (argv r) (background r) (cmd_type r)
                (job_id r).
Definition with_output_file (f : string) (m : Z) (r : parse_result)
    : parse_result :=
  mkParseResult (command_path r) (input_file r) (Some f) m (argv r)
                (background r) (cmd_type r) (job_id r).
Definition with_command (path arg0 : string) (r : parse_result)
    : parse_result :=
  mkParseResult (Some path) (input_file r) (output_file r)
                (append_mode r) (argv r ++ [arg0]) (background r)
                (cmd_type r) (job_id r).
Definition with_arg (arg : string) (r : parse_result) : parse_result :=
  mkParseResult (command_path r) (input_file r) (output_file r)
                (append_mode r) (argv r ++ [arg]) (background r)
                (cmd_type r) (job_id r).

Definition msg_bad_input : string :=
  fmt ["ERROR: Invalid input redirection"; LF].
Definition msg_bad_output : string :=
  fmt ["ERROR: Invalid output redirection"; LF].
Definition msg_no_command : string := fmt ["ERROR: No command specified"; LF].
Definition msg_expected_job : string := fmt ["ERROR: Expected %<job-id>"; LF].
Definition msg_invalid_job : string := fmt ["ERROR: Invalid job ID"; LF].
Definition msg_too_many : string := fmt ["ERROR: Too many arguments"; LF].

(** The [for] loop of sh.c:349-382 over the tokens still to read;
    [has_input_redirect], [has_output_redirect] and [result] are the
    locals of these names, [argv r] the arguments stored so far.  [None]
    is the return of -1 from inside the loop. *)
Fixpoint process_tokens (tokens : list string)
    (has_input_redirect has_output_redirect : bool) (r : parse_result)
    : M (option parse_result) :=
  match tokens with
  | [] => ret (Some r)
  | t :: rest =>
      if String.eqb t "<" then
        match rest with
        | target :: rest' =>
            if has_input_redirect
            then fprintf_stderr msg_bad_input ;;; ret None
            else process_tokens rest' true has_output_redirect
                                (with_input_file target r)
        | [] => fprintf_stderr msg_bad_input ;;; ret None
        end
      else if String.eqb t ">" || String.eqb t ">>" then
        match rest with
        | target :: rest' =>
            if has_output_redirect
            then fprintf_stderr msg_bad_output ;;; ret None
            else process_tokens rest' has_input_redirect true
                   (with_output_file target (second_char_is_gt t) r)
        | [] => fprintf_stderr msg_bad_output ;;; ret None
        end
      else
        match command_path r with
        | None =>
            process_tokens rest has_input_redirect has_output_redirect
                           (with_command t (command_name t) r)
        | Some _ =>
            process_tokens rest has_input_redirect has_output_redirect
                           (with_arg t r)
        end
  end.

(** sh.c:340-345: a last token [&] sets [background] and is dropped. *)
Definition split_background (tokens : list string)
    : list string * parse_result :=
  match rev tokens with
  | last :: before =>
      if String.eqb last "&"
      then (rev before, with_background empty_result)
      else (tokens, empty_result)
  | [] => (tokens, empty_result)
  end.

(** The job-control branch, sh.c:304-331, entered with the command type
    and what follows the first token. *)
Definition parse_job_control (t : command_type) (rest : string)
    : M (option parse_result) :=
  match strtok rest with
  | Some (String "%" job_str, rest') =>
      let first := match job_str with
                   | String c _ => c
                   | EmptyString => zero
                   end in
      if negb (isdigit first)
      then fprintf_stderr msg_invalid_job ;;; ret None
      else
        match strtok rest' with
        | Some _ => fprintf_stderr msg_too_many ;;; ret None
        | None => ret (Some (job_control_command t (atoi job_str)))
        end
  | _ => fprintf_stderr msg_expected_job ;;; ret None
  end.

(** sh.c:283-392.  [None] is the return value -1, after which [main]
    does not read [result]; [Some r] is the return value 0 with [r]
    stored through [result]. *)
Definition parse (buffer : string) : M (option parse_result) :=
  if (BUFFER_SIZE <=? String.length buffer)%nat then ret None
  else
    match strtok buffer with
    | None => ret None
    | Some (token, rest) =>
        if String.eqb token "fg" || String.eqb token "bg" then
          parse_job_control (if String.eqb token "fg" then CMD_FG else CMD_BG)
                            rest
        else
          let (tokens, r0) :=
            split_background
              (collect_tokens (MAX_TOKENS - 1) (Some (token, rest))) in
          parsed <- process_tokens tokens false false r0 ;;
          match parsed with
          | None => ret None
          | Some r =>
              match command_path r with
              | None => fprintf_stderr msg_no_command ;;; ret None
              | Some _ => ret (Some r)
              end
          end
    end.

(** *** Vocabulary for command lines *)

(** A word: not empty and free of delimiters. *)
Fixpoint no_delim (s : string) : bool :=
  match s with
  | EmptyString => true
  | String c rest => negb (is_delim c) && no_delim rest
  end.

Definition is_word (t : string) : bool :=
  match t with
  | EmptyString => false
  | _ => no_delim t
  end.

(** All the tokens of a line, in order: [strtok] called until it finds
    nothing more. *)
Definition line_tokens (s : string) : list string :=
  collect_tokens (S (String.length s)) (strtok s).

(** Words joined by single spaces. *)
Definition join_words (ws : list string) : string := String.concat " " ws.

(** The tokens that mean something to [parse] beyond being a word. *)
Definition is_operator (t : string) : bool :=
  String.eqb t "<" || String.eqb t ">" || String.eqb t ">>".

(** What [parse] does, told on the tokens of the line. *)
Definition job_control_words (t : command_type) (others : list string)
    : M (option parse_result) :=
  match others with
  | String "%" job_str :: more =>
      let first := match job_str with
                   | String c _ => c
                   | EmptyString => zero
                   end in
      if negb (isdigit first)
      then fprintf_stderr msg_invalid_job ;;; ret None
      else
        match more with
        | _ :: _ => fprintf_stderr msg_too_many ;;; ret None
        | [] => ret (Some (job_control_command t (atoi job_str)))
        end
  | _ => fprintf_stderr msg_expected_job ;;; ret None
  end.

Definition parse_words (ws : list string) : M (option parse_result) :=
  match ws with
  | [] => ret None
  | token :: others =>
      if String.eqb token "fg" || String.eqb token "bg" then
        job_control_words (if String.eqb token "fg" then CMD_FG else CMD_BG)
                          others
      else
        let (tokens, r0) := split_background (firstn (MAX_TOKENS - 1) ws) in
        parsed <- process_tokens tokens false false r0 ;;
        match parsed with
        | None => ret None
        | Some r =>
            match command_path r with
            | None => fprintf_stderr msg_no_command ;;; ret None
            | Some _ => ret (Some r)
            end
        end
  end.

(** A token stored as the command (if there is none yet) or as the next
    argument, and a run of such tokens. *)
Definition add_word (r : parse_result) (t : string) : parse_result :=
  match command_path r with
  | None => with_command t (command_name t) r
  | Some _ => with_arg t r
  end.

Definition add_words (ws : list string) (r : parse_result) : parse_result :=
  fold_left add_word ws r.

(** No token of [ws] is a redirection operator. *)
Definition plain (ws : list string) : bool :=
  forallb (fun t => negb (is_operator t)) ws.

Definition starts_with_digit (s : string) : bool :=
  match s with
  | String c _ => isdigit c
  | EmptyString => false
  end.

(** The error lines of [parse]. *)
Definition parse_errors : list string :=
  [msg_expected_job; msg_invalid_job; msg_too_many; msg_bad_input;
   msg_bad_output; msg_no_command].

(** A line of tokens [toks] that [parse] treats as a regular command in
    the foreground: short enough for the buffer and for the token array,
    not starting with [fg] or [bg], not ending with [&]. *)
Definition regular_line (s : string) (toks : list string) : Prop :=
  (String.length s < BUFFER_SIZE)%nat /\
  line_tokens s = toks /\
  (List.length toks <= MAX_TOKENS - 1)%nat /\
  toks <> [] /\
  hd EmptyString toks <> "fg" /\
  hd EmptyString toks <> "bg" /\
  last toks EmptyString <> "&".

(** The end of [parse] after the loop (sh.c:384-391). *)
Definition check_command (parsed : option parse_result)
    : M (option parse_result) :=
  match parsed with
  | None => ret None
  | Some r =>
      match command_path r with
      | None => fprintf_stderr msg_no_command ;;; ret None
      | Some _ => ret (Some r)
      end
  end.

(** ** Vocabulary for built-ins and launches *)

(** The names [handle_builtin] compares [argv[0]] with (sh.c:517-564). *)
Definition builtin_names : list string := ["exit"; "jobs"; "cd"; "ln"; "rm"].

Definition is_builtin_name (s : string) : bool :=
  existsb (String.eqb s) builtin_names.

(** A command for which [handle_builtin] has nothing to do: it is not
    [fg] or [bg], and either its path has a slash or its name is none of
    the built-in names. *)
Definition runs_program (t : command_type) (path argv0 : string) : Prop :=
  t <> CMD_FG /\ t <> CMD_BG /\
  (strchr path slash = true \/ is_builtin_name argv0 = false).

(** The [exit] built-in with no argument. *)
Definition is_exit_command (result : parse_result) : Prop :=
  cmd_type result <> CMD_FG /\ cmd_type result <> CMD_BG /\
  argv result = ["exit"] /\
  exists path, command_path result = Some path /\ strchr path slash = false.

(** The one system call of a file-system built-in, for the argument
    counts that pass its checks. *)
Definition builtin_call (name : string) (args : list string)
    : option syscall :=
  match args with
  | [a] => if String.eqb name "cd" then Some (SYS_chdir a)
           else if String.eqb name "rm" then Some (SYS_unlink a)
           else None
  | [a; b] => if String.eqb name "ln" then Some (SYS_link a b) else None
  | _ => None
  end.

(** What the parent reports after [setpgid] answered [a] (sh.c:695-697):
    nothing when the call succeeded or failed with [EACCES]. *)
Definition setpgid_report (a : answer) : list out_event :=
  if (ans_ret a <? 0) && negb (ans_errno a =? EACCES)
  then [Perror "setpgid"] else [].

(** What the operating system answers to the parent's calls for the child
    [pid] forked in world [w], in the order the parent makes them. *)
Definition parent_setpgid (w : world) (pid : Z) : answer :=
  oracle w (1 + clock w) (SYS_setpgid pid pid).
Definition parent_grant (w : world) (pid : Z) : answer :=
  oracle w (2 + clock w) (SYS_tcsetpgrp pid).
Definition parent_reclaim (w : world) : answer :=
  oracle w (4 + clock w) (SYS_tcsetpgrp (shell_pgid w)).

(** What the operating system answers to the calls of [fg] for a job of
    pid [pid] in world [w], in the order [fg] makes them: the grant of the
    terminal, the [SIGCONT], the blocking wait. *)
Definition fg_grant (w : world) (pid : Z) : answer :=
  oracle w (clock w) (SYS_tcsetpgrp pid).
Definition fg_signal (w : world) (pid : Z) : answer :=
  oracle w (1 + clock w) (SYS_kill (- pid) SIGCONT).
Definition fg_wait (w : world) (pid : Z) : answer :=
  oracle w (2 + clock w) (SYS_waitpid pid WUNTRACED).

(** [without_jid i l] is [l] without the jobs of job id [i]. *)
Definition without_jid (i : Z) (l : list job_element) : list job_element :=
  filter (fun j => negb (j_jid j =? i)) l.

(** The system calls a step of the shell may make from a world [w]: a
    signal is [SIGCONT] to the process group of a pid of the table; a
    blocking wait is for one positive pid and a non-blocking one for any
    child; [setpgid] puts a positive pid into its own new group; the
    terminal goes to a positive process group or to the shell's own. *)
Definition step_call_ok (w : world) (c : syscall) : Prop :=
  match c with
  | SYS_kill target signal =>
      signal = SIGCONT /\ target < 0 /\ In (- target) (pids w)
  | SYS_waitpid p WUNTRACED => 0 < p
  | SYS_waitpid p WNOHANG_WUNTRACED_WCONTINUED => p = -1
  | SYS_setpgid p pgid => 0 < p /\ pgid = p
  | SYS_tcsetpgrp pgid => 0 < pgid \/ pgid = shell_pgid w
  | _ => True
  end.

(** The same over a whole session of a shell of process group [pgid],
    where the table a signal was aimed at is no longer at hand. *)
Definition shell_call_ok (pgid : Z) (c : syscall) : Prop :=
  match c with
  | SYS_kill target signal => signal = SIGCONT /\ target < 0
  | SYS_waitpid p WUNTRACED => 0 < p
  | SYS_waitpid p WNOHANG_WUNTRACED_WCONTINUED => p = -1
  | SYS_setpgid p pgid' => 0 < p /\ pgid' = p
  | SYS_tcsetpgrp g => 0 < g \/ g = pgid
  | _ => True
  end.

(** ** Vocabulary for the drain *)

(** Nothing that the user or the table can see has changed from [w] to
    [w']: the table, the counter and the lines written with [fprintf]. *)
Definition nothing_reported (w w' : world) : Prop :=
  job_list w' = job_list w /\
  next_jid w' = next_jid w /\
  stdout_messages (output w') = stdout_messages (output w) /\
  stderr_messages (output w') = stderr_messages (output w).

(** From table [l] to table [l'] no job was added: every job id and every
    pid of [l'] was in [l], and [l'] is not longer. *)
Definition no_job_added (l l' : list job_element) : Prop :=
  incl (map j_jid l') (map j_jid l) /\
  incl (map j_pid l') (map j_pid l) /\
  (List.length l' <= List.length l)%nat.

(** ** Signal handlers, redirections and the forked child
       (sh.c:235-253, 401-435, 660-692) *)

(** Constants of the system headers, with their Linux values. *)
Definition SIGINT : Z := 2.
Definition SIGTSTP : Z := 20.
Definition SIGTTOU : Z := 22.
Definition STDIN_FILENO : Z := 0.
Definition STDOUT_FILENO : Z := 1.
Definition O_RDONLY : Z := 0.
Definition O_WRONLY : Z := 1.
Definition O_CREAT : Z := 64.
Definition O_TRUNC : Z := 512.
Definition O_APPEND : Z := 1024.

Inductive sighandler : Type := SIG_IGN | SIG_DFL.

(** The system calls of the start of [main] and of the forked child.
    [P_tcsetpgrp_self] is [tcsetpgrp(STDIN_FILENO, getpid())]; the mode of
    [open] is there when the call passes one. *)
Inductive proc_call : Type :=
| P_signal (signum : Z) (handler : sighandler)
| P_setpgid (pid pgid : Z)
| P_tcsetpgrp_self
| P_close (fd : Z)
| P_open (path : string) (flags : Z) (mode : option Z)
| P_execv (path : string) (args : list string).

(** A process outside the job-control loop: what the operating system
    returns to its calls (a negative value, [SIG_ERR] for [signal], is a
    failure), the calls made and what was written. *)
Record process : Type := mkProcess {
  p_oracle : nat -> proc_call -> Z;
  p_clock : nat;
  p_calls : list proc_call;
  p_output : list out_event
}.

(** How such a piece of code ends when it does not return: by [exit], or
    by [execv] replacing the process image. *)
Inductive ending : Type :=
| Exit (code : Z)
| Exec (path : string) (args : list string).

(** Code that returns a value or ends the process. *)
Definition Proc (A : Type) : Type := process -> (A + ending) * process.

Definition retP {A} (a : A) : Proc A := fun p => (inl a, p).
Definition bindP {A B} (m : Proc A) (k : A -> Proc B) : Proc B :=
  fun p => match m p with
           | (inl a, p') => k a p'
           | (inr e, p') => (inr e, p')
           end.
Definition endP {A} (e : ending) : Proc A := fun p => (inr e, p).

Notation "x <~ m ;; k" := (bindP m (fun x => k))
  (at level 61, m at next level, right associativity).
Notation "m ~;; k" := (bindP m (fun _ => k))
  (at level 61, right associativity).

Definition call (c : proc_call) : Proc Z :=
  fun p => (inl (p_oracle p (p_clock p) c),
            mkProcess (p_oracle p) (S (p_clock p)) (p_calls p ++ [c])
                      (p_output p)).
Definition report (e : out_event) : Proc unit :=
  fun p => (inl tt,
            mkProcess (p_oracle p) (p_clock p) (p_calls p)
                      (p_output p ++ [e])).
Definition exit {A} (code : Z) : Proc A := endP (Exit code).



(** The flags of the [open] for an output redirection, sh.c:425-426. *)
Definition output_flags (append : Z) : Z :=
  Z.lor (Z.lor O_WRONLY O_CREAT) (if append =? 0 then O_TRUNC else O_APPEND).

(** sh.c:401-435; the value returned is 0 or -1.  [result] is the address
    of a local of [main] and never null.  The first [bindP] carries the
    [return -1] of the input part past the output part. *)
Definition setup_redirections (result : parse_result) : Proc Z :=
  r <~ match input_file result with
       | Some file =>
           c <~ call (P_close STDIN_FILENO) ;;
           if c <? 0 then report (Perror "close") ~;; retP (-1)
           else
             o <~ call (P_open file O_RDONLY None) ;;
             if o <? 0 then report (Perror "open") ~;; retP (-1)
             else retP 0
       | None => retP 0
       end ;;
  if r <? 0 then retP (-1)
  else
    match output_file result with
    | Some file =>
        c <~ call (P_close STDOUT_FILENO) ;;
        if c <? 0 then report (Perror "close") ~;; retP (-1)
        else
          o <~ call (P_open file (output_flags (append_mode result))
                            (Some 420)) ;;
          if o <? 0 then report (Perror "open") ~;; retP (-1)
          else retP 0
    | None => retP 0
    end.

(** The loop of sh.c:668-673 in the child. *)
Fixpoint reset_signals (signals : list Z) : Proc unit :=
  match signals with
  | [] => retP tt
  | s :: rest =>
      r <~ call (P_signal s SIG_DFL) ;;
      if r <? 0 then report (Perror "signal") ~;; exit 1
      else reset_signals rest
  end.

(** The child after [fork], sh.c:660-692.  [execv] returns only when it
    failed. *)
Definition child (result : parse_result) : Proc unit :=
  r <~ call (P_setpgid 0 0) ;;
  (if r <? 0 then report (Perror "setpgid") ~;; exit 1 else retP tt) ~;;
  reset_signals [SIGINT; SIGTSTP; SIGTTOU] ~;;
  (if background result =? 0 then
     r <~ call P_tcsetpgrp_self ;;
     if r <? 0 then report (Perror "tcsetpgrp") ~;; exit 1 else retP tt
   else retP tt) ~;;
  r <~ setup_redirections result ;;
  (if r <? 0 then exit 1 else retP tt) ~;;
  r <~ call (P_execv (path_of result) (argv result)) ;;
  if r <? 0 then report (Perror "execv") ~;; exit 1
  else endP (Exec (path_of result) (argv result)).

(** *** Vocabulary for the child *)

(** The calls of the redirections and of the child when nothing fails, in
    order. *)
Definition redirection_plan (result : parse_result) : list proc_call :=
  match input_file result with
  | Some file => [P_close STDIN_FILENO; P_open file O_RDONLY None]
  | None => []
  end ++
  match output_file result with
  | Some file =>
      [P_close STDOUT_FILENO;
       P_open file (output_flags (append_mode result)) (Some 420)]
  | None => []
  end.

Definition child_plan (result : parse_result) : list proc_call :=
  [P_setpgid 0 0; P_signal SIGINT SIG_DFL; P_signal SIGTSTP SIG_DFL;
   P_signal SIGTTOU SIG_DFL]
  ++ (if background result =? 0 then [P_tcsetpgrp_self] else [])
  ++ redirection_plan result
  ++ [P_execv (path_of result) (argv result)].

(** Following a plan until a call fails: the calls made, and the call
    that failed if one did. *)
Fixpoint follow (os : nat -> proc_call -> Z) (t : nat)
    (plan : list proc_call) : list proc_call * option proc_call :=
  match plan with
  | [] => ([], None)
  | c :: rest =>
      if os t c <? 0 then ([c], Some c)
      else let (made, failed) := follow os (S t) rest in (c :: made, failed)
  end.

(** The name under which the child reports the failure of a call. *)
Definition perror_tag (c : proc_call) : string :=
  match c with
  | P_signal _ _ => "signal"
  | P_setpgid _ _ => "setpgid"
  | P_tcsetpgrp_self => "tcsetpgrp"
  | P_close _ => "close"
  | P_open _ _ _ => "open"
  | P_execv _ _ => "execv"
  end.


(** A fresh process with operating system [os]. *)
Definition fresh_process (os : nat -> proc_call -> Z) : process :=
  mkProcess os 0 [] [].





(** ** One turn of the loop of [main] (sh.c:605-651) *)

(** What [read(STDIN_FILENO, buffer, BUFFER_SIZE - 1)] gave: an error, or
    the bytes read, at most [BUFFER_SIZE - 1] of them and none at the end
    of the input. *)
Inductive read_result : Type :=
| ReadError
| ReadBytes (bytes : string).

Definition NUL : ascii := ascii_of_nat 0.

(** The bytes read with the last one dropped if it is a newline
    (sh.c:632-635). *)
Fixpoint strip_newline (bytes : string) : string :=
  match bytes with
  | EmptyString => EmptyString
  | String c EmptyString =>
      if Ascii.eqb c (ascii_of_nat 10) then EmptyString
      else String c EmptyString
  | String c rest => String c (strip_newline rest)
  end.

(** The C string that starts a buffer: its bytes up to the first NUL. *)
Fixpoint c_string (bytes : string) : string :=
  match bytes with
  | EmptyString => EmptyString
  | String c rest =>
      if Ascii.eqb c NUL then EmptyString else String c (c_string rest)
  end.

(** One turn of the [while (1)] loop, given what [read] gives in it.
    [fuel] bounds the reaper's loop and [None] is returned only when it
    runs out.  [cleanup_job_list] frees the table before the shell
    returns and has no other effect; the prompt is compiled in only with
    [PROMPT] defined. *)
Definition main_turn (fuel : nat) (rd : read_result) : M (option loop_ctl) :=
  reaped <- reap_background_processes fuel ;;
  match reaped with
  | None => ret None
  | Some _ =>
      match rd with
      | ReadError => perror "read" ;;; ret (Some (ShellExit 1))
      | ReadBytes EmptyString => ret (Some (ShellExit 0))
      | ReadBytes bytes =>
          let buffer := c_string (strip_newline bytes) in
          if negb (is_empty_or_whitespace (Some buffer) =? 0)
          then ret (Some Continue)
          else
            parsed <- parse buffer ;;
            match parsed with
            | None => ret (Some Continue)
            | Some result => c <- main_command result ;; ret (Some c)
            end
      end
  end.

(** A string without NUL bytes. *)
Fixpoint no_nul (s : string) : bool :=
  match s with
  | EmptyString => true
  | String c rest => negb (Ascii.eqb c NUL) && no_nul rest
  end.

(** The line [s] as it comes from the terminal: with a newline at its
    end. *)
Definition typed (s : string) : string := String.append s LF.

(** ** Vocabulary for the global [foreground_job_id] *)

(** The world with the global [foreground_job_id] put aside: two worlds
    agree on everything else exactly when they are equal after this. *)
Definition forget_foreground_job_id (w : world) : world :=
  set_foreground_job_id 0 w.

(** A piece of the shell that does not read [foreground_job_id]: run from
    a world where the variable was overwritten, it returns the same value
    and leaves the same world but for that variable. *)
Definition insensitive {A} (m : M A) : Prop :=
  forall w,
    fst (m (forget_foreground_job_id w)) = fst (m w) /\
    forget_foreground_job_id (snd (m (forget_foreground_job_id w)))
    = forget_foreground_job_id (snd (m w)).

(** ** Proof machinery *)

Arguments get_job_info : simpl never.
Arguments take_terminal_control : simpl never.
Arguments give_terminal_to : simpl never.
Arguments send_signal_to_job : simpl never.
Arguments wait_for_job : simpl never.
Arguments builtin_fg : simpl never.
Arguments builtin_bg : simpl never.
Arguments builtin_cd : simpl never.
Arguments builtin_ln : simpl never.
Arguments builtin_rm : simpl never.
Arguments handle_builtin : simpl never.
Arguments main_parent : simpl never.
Arguments main_command : simpl never.
Arguments reap_body : simpl never.
Arguments reap_turn : simpl never.
Arguments update_job_pid : simpl never.
Arguments remove_job_pid : simpl never.
Arguments remove_job_jid : simpl never.
Arguments add_job : simpl never.
Arguments get_job_pid : simpl never.
Arguments get_job_jid : simpl never.
Arguments int_succ : simpl never.
Arguments fmt : simpl never.
Arguments dec : simpl never.
Arguments strchr : simpl never.
Arguments String.eqb : simpl never.

(** Symbolic execution of a monadic program in a hypothesis
    [H : prog w = (r, w')]: the scrutinee in head position is split, one
    case at a time and in program order, until a pair is left. *)
Ltac monad_unfold_in H :=
  cbv beta delta [bind ret gets modify sys tcsetpgrp getpgrp fprintf_stdout
    fprintf_stderr perror on_job_list] in H.

Ltac head_destruct t :=
  lazymatch t with
  | match ?c with _ => _ end => first [head_destruct c | destruct c eqn:?]
  | ?f _ => head_destruct f
  end.

Ltac exec_in H :=
  monad_unfold_in H; simpl in H;
  repeat (lazymatch type of H with ?l = _ => head_destruct l end;
          simpl in H).

Ltac finish_in H := injection H as <- <-; simpl in *.

(** ** The job table *)

Lemma find_jid_none (l : list job_element) (i : Z) :
  ~ In i (map j_jid l) -> find (fun j => j_jid j =? i) l = None.
Proof.
  induction l as [|j l IH]; simpl; intros H; [reflexivity|].
  destruct (Z.eqb_spec (j_jid j) i) as [E|E]; [tauto|].
  apply IH. tauto.
Qed.

Lemma find_pid_none (l : list job_element) (p : Z) :
  ~ In p (map j_pid l) -> find (fun j => j_pid j =? p) l = None.
Proof.
  induction l as [|j l IH]; simpl; intros H; [reflexivity|].
  destruct (Z.eqb_spec (j_pid j) p) as [E|E]; [tauto|].
  apply IH. tauto.
Qed.

Lemma find_pid_some (l : list job_element) (p : Z) (j : job_element) :
  find (fun j => j_pid j =? p) l = Some j -> j_pid j = p /\ In j l.
Proof.
  intros H. apply find_some in H. destruct H as [Hin E].
  apply Z.eqb_eq in E. tauto.
Qed.

Lemma has_pid_of_find (l : list job_element) (p : Z) (j : job_element) :
  find (fun j => j_pid j =? p) l = Some j -> JobTable.has_pid l p = true.
Proof.
  intros H. apply find_some in H. unfold JobTable.has_pid.
  apply existsb_exists. exists j. exact H.
Qed.

Lemma has_pid_false (l : list job_element) (p : Z) :
  ~ In p (map j_pid l) -> JobTable.has_pid l p = false.
Proof.
  induction l as [|j l IH]; simpl; intros H; [reflexivity|].
  destruct (Z.eqb_spec (j_pid j) p) as [E|E]; [tauto|].
  apply IH. tauto.
Qed.

Lemma has_jid_false (l : list job_element) (i : Z) :
  ~ In i (map j_jid l) -> JobTable.has_jid l i = false.
Proof.
  induction l as [|j l IH]; simpl; intros H; [reflexivity|].
  destruct (Z.eqb_spec (j_jid j) i) as [E|E]; [tauto|].
  apply IH. tauto.
Qed.

Lemma get_job_jid_none (jl : job_list_t) (p : Z) :
  ~ In p (map j_pid (entries jl)) -> get_job_jid jl p = -1.
Proof.
  intros H. unfold get_job_jid, JobTable.find_by_pid.
  rewrite (find_pid_none _ _ H). reflexivity.
Qed.

Lemma get_job_jid_some (jl : job_list_t) (p : Z) (j : job_element) :
  JobTable.find_by_pid jl p = Some j -> get_job_jid jl p = j_jid j.
Proof. intros H. unfold get_job_jid. rewrite H. reflexivity. Qed.

Lemma update_job_pid_tracked (jl : job_list_t) (p : Z) (s : process_state_t)
    (j : job_element) :
  JobTable.find_by_pid jl p = Some j ->
  update_job_pid jl p s
  = (0, mkJobList (JobTable.mark p s (entries jl)) (capacity jl)).
Proof.
  intros H. unfold update_job_pid, JobTable.set_state.
  rewrite (has_pid_of_find _ _ _ H). reflexivity.
Qed.

Lemma update_job_pid_cases (jl : job_list_t) (p : Z) (s : process_state_t)
    (r : Z) (jl' : job_list_t) :
  update_job_pid jl p s = (r, jl') ->
  (r = -1 /\ jl' = jl /\ JobTable.has_pid (entries jl) p = false)
  \/ (r = 0 /\ jl' = mkJobList (JobTable.mark p s (entries jl)) (capacity jl)
      /\ JobTable.has_pid (entries jl) p = true).
Proof.
  unfold update_job_pid, JobTable.set_state.
  destruct (JobTable.has_pid _ _); intros [= <- <-]; [right|left]; tauto.
Qed.

Lemma mark_jids (p : Z) (s : process_state_t) (l : list job_element) :
  map j_jid (JobTable.mark p s l) = map j_jid l.
Proof.
  unfold JobTable.mark. rewrite map_map. apply map_ext.
  intros j. destruct (j_pid j =? p); reflexivity.
Qed.

Lemma mark_pids (p : Z) (s : process_state_t) (l : list job_element) :
  map j_pid (JobTable.mark p s l) = map j_pid l.
Proof.
  unfold JobTable.mark. rewrite map_map. apply map_ext.
  intros j. destruct (j_pid j =? p); reflexivity.
Qed.

Lemma mark_length (p : Z) (s : process_state_t) (l : list job_element) :
  List.length (JobTable.mark p s l) = List.length l.
Proof. apply length_map. Qed.

Lemma mark_mark (p : Z) (s s' : process_state_t) (l : list job_element) :
  JobTable.mark p s (JobTable.mark p s' l) = JobTable.mark p s l.
Proof.
  unfold JobTable.mark. rewrite map_map. apply map_ext.
  intros j. destruct (j_pid j =? p) eqn:E; simpl; rewrite E; reflexivity.
Qed.

Lemma mark_has_pid (p q : Z) (s : process_state_t) (l : list job_element) :
  JobTable.has_pid (JobTable.mark p s l) q = JobTable.has_pid l q.
Proof.
  unfold JobTable.has_pid, JobTable.mark.
  induction l as [|j l IH]; simpl; [reflexivity|].
  rewrite IH. destruct (j_pid j =? p); reflexivity.
Qed.

Lemma update_job_pid_frame (jl : job_list_t) (p : Z) (s : process_state_t)
    (r : Z) (jl' : job_list_t) :
  update_job_pid jl p s = (r, jl') ->
  map j_jid (entries jl') = map j_jid (entries jl) /\
  map j_pid (entries jl') = map j_pid (entries jl) /\
  capacity jl' = capacity jl.
Proof.
  intros H. apply update_job_pid_cases in H.
  destruct H as [[_ [-> _]]|[_ [-> _]]]; [tauto|].
  simpl. rewrite mark_jids, mark_pids. tauto.
Qed.

Lemma remove_job_pid_entries (jl : job_list_t) (p : Z) :
  snd (remove_job_pid jl p)
  = mkJobList (filter (fun j => negb (j_pid j =? p)) (entries jl))
              (capacity jl).
Proof.
  unfold remove_job_pid, JobTable.remove_by_pid.
  destruct (option_map _ _); reflexivity.
Qed.

Lemma remove_job_jid_entries (jl : job_list_t) (i : Z) :
  snd (remove_job_jid jl i)
  = mkJobList (filter (fun j => negb (j_jid j =? i)) (entries jl))
              (capacity jl).
Proof.
  unfold remove_job_jid, JobTable.remove_by_job_id.
  destruct (option_map _ _); reflexivity.
Qed.

Lemma removed_pid_gone (l : list job_element) (p : Z) :
  ~ In p (map j_pid (filter (fun j => negb (j_pid j =? p)) l)).
Proof.
  intros H. apply in_map_iff in H. destruct H as [j [E Hin]].
  apply filter_In in Hin. destruct Hin as [_ Hne].
  apply negb_true_iff, Z.eqb_neq in Hne. contradiction.
Qed.

Lemma add_job_cases (jl : job_list_t) (i p : Z) (s : process_state_t)
    (name : string) :
  (add_job jl i p s name = (-1, jl) /\ JobTable.add jl i p s name = None)
  \/ (add_job jl i p s name
      = (0, mkJobList (entries jl ++ [mkJob i p s name]) (capacity jl))
      /\ JobTable.add jl i p s name
         = Some (mkJobList (entries jl ++ [mkJob i p s name]) (capacity jl))).
Proof.
  unfold add_job, JobTable.add.
  destruct (_ || _); [left|right]; split; reflexivity.
Qed.

(** ** [get_job_info] *)

Lemma get_job_pid_tracked (jl : job_list_t) (n : Z) :
  get_job_pid jl n <> -1 ->
  JobTable.has_pid (entries jl) (get_job_pid jl n) = true.
Proof.
  unfold get_job_pid, JobTable.find_by_job_id, JobTable.has_pid.
  destruct (find _ _) as [j|] eqn:E; [intros _|congruence].
  apply find_some in E. apply existsb_exists. exists j.
  split; [tauto|apply Z.eqb_refl].
Qed.

(** What [get_job_info] does, whatever the job's state: it fails without
    touching anything when the lookup by job id fails, and otherwise it
    answers [STOPPED] and leaves the job marked [RUNNING]. *)
Lemma get_job_info_cases (n : Z) (w : world)
    (r : option (Z * process_state_t)) (w' : world) :
  get_job_info n w = (r, w') ->
  (r = None /\ w' = w /\ get_job_pid (job_list w) n = -1)
  \/ (r = Some (get_job_pid (job_list w) n, STOPPED)
      /\ get_job_pid (job_list w) n <> -1
      /\ w' = set_job_list
                (mkJobList (JobTable.mark (get_job_pid (job_list w) n) RUNNING
                                          (entries (job_list w)))
                           (capacity (job_list w))) w).
Proof.
  unfold get_job_info. intros H. exec_in H; finish_in H.
  - left. apply Z.eqb_eq in Heqb. repeat split; assumption.
  - apply Z.eqb_neq, get_job_pid_tracked in Heqb.
    apply update_job_pid_cases in Heqp.
    destruct Heqp as [[_ [_ Hn]]|[-> _]]; [congruence|discriminate].
  - right. apply Z.eqb_neq in Heqb.
    apply update_job_pid_cases in Heqp, Heqp0, Heqp1.
    destruct Heqp as [[-> _]|[_ [-> Hp]]]; [discriminate|].
    destruct Heqp0 as [[-> _]|[_ [-> _]]]; [discriminate|].
    destruct Heqp1 as [[_ [_ Hn]]|[_ [-> _]]]; simpl in *.
    + rewrite !mark_has_pid in Hn. congruence.
    + rewrite !mark_mark. repeat split; assumption.
  - apply update_job_pid_cases in Heqp, Heqp0.
    destruct Heqp as [[-> _]|[_ [-> Hp]]]; [discriminate|].
    destruct Heqp0 as [[_ [_ Hn]]|[-> _]]; [|discriminate].
    simpl in Hn. rewrite mark_has_pid in Hn. congruence.
Qed.

Lemma get_job_info_absent (n : Z) (w : world) :
  ~ In n (jids w) -> get_job_info n w = (None, w).
Proof.
  intros H. unfold get_job_info. cbv beta delta [bind gets ret].
  unfold get_job_pid, JobTable.find_by_job_id.
  rewrite (find_jid_none _ _ H). reflexivity.
Qed.

(** ** [fg %N] for a job that is not there *)

(** C3.  For every [fg %N] where no job of the table has id [N]: the shell
    prints exactly [ERROR: No such job] (and a newline) on standard error
    and nothing else, the job table is unchanged, no system call at all is
    made (so no blocking wait), [handle_builtin] returns -1 and the main
    loop goes round again. *)
Theorem fg_no_such_job (n : Z) (w : world) :
  ~ In n (jids w) ->
  handle_builtin (job_control_command CMD_FG n) w
  = (Returns (-1), snd (main_command (job_control_command CMD_FG n) w)) /\
  let (ctl, w') := main_command (job_control_command CMD_FG n) w in
  ctl = Continue /\
  output w' = output w ++ [Stderr (String.append "ERROR: No such job" LF)] /\
  job_list w' = job_list w /\
  calls w' = calls w.
Proof.
  intros H.
  assert (E : handle_builtin (job_control_command CMD_FG n) w
              = (Returns (-1), emit (Stderr msg_no_such_job) w)).
  { unfold handle_builtin. simpl. cbv beta delta [bind].
    rewrite (get_job_info_absent _ _ H). reflexivity. }
  unfold main_command. cbv beta delta [bind]. rewrite E. simpl.
  repeat split; reflexivity.
Qed.

Lemma fg_no_such_job_witness :
  ~ In 2 (jids (Sample.one_job STOPPED Sample.os_ok)) /\
  let (ctl, w') := main_command (job_control_command CMD_FG 2)
                                (Sample.one_job STOPPED Sample.os_ok) in
  ctl = Continue /\
  output w' = [Stderr (String.append "ERROR: No such job" LF)] /\
  job_list w' = job_list (Sample.one_job STOPPED Sample.os_ok) /\
  calls w' = [].
Proof.
  assert (H : ~ In 2 (jids (Sample.one_job STOPPED Sample.os_ok))).
  { simpl. lia. }
  split; [exact H|].
  pose proof (fg_no_such_job 2 (Sample.one_job STOPPED Sample.os_ok) H)
    as [_ T].
  destruct (main_command _ _) as [ctl w'].
  destruct T as [T1 [T2 [T3 T4]]].
  repeat split; assumption.
Defined.

(** ** The terminal goes back to the shell *)

Ltac last_call_now :=
  unfold last_call; simpl; eexists; reflexivity.

Ltac owner_now :=
  unfold last_call_succeeded; simpl; rewrite rev_unit; simpl;
  intros; try reflexivity; lia.

Lemma builtin_fg_reclaims (result : parse_result) (pid : Z) (w : world)
    (r : Z) (w' : world) :
  0 <= shell_pgid w ->
  builtin_fg result pid w = (r, w') ->
  last_call w' (SYS_tcsetpgrp (shell_pgid w)) /\
  (last_call_succeeded w' -> term_owner w' = shell_pgid w).
Proof.
  intros Hpg H.
  unfold builtin_fg, give_terminal_to, send_signal_to_job, wait_for_job,
    take_terminal_control in H.
  exec_in H; finish_in H; try lia; (split; [last_call_now | owner_now]).
Qed.

Lemma main_parent_reclaims (result : parse_result) (pid : Z) (w : world)
    (u : unit) (w' : world) :
  background result = 0 ->
  main_parent result pid w = (u, w') ->
  last_call w' (SYS_tcsetpgrp (shell_pgid w)) /\
  (last_call_succeeded w' -> term_owner w' = shell_pgid w).
Proof.
  intros Hbg H. unfold main_parent in H. rewrite Hbg in H.
  exec_in H; finish_in H; (split; [last_call_now | owner_now]).
Qed.

(** C1.  Every exit path of a foreground-owning operation ends by handing
    the terminal back to the shell's process group.  For [fg %N]: unless no
    job [N] was found (then no system call is made and the terminal is not
    touched), the last system call before [handle_builtin] returns is
    [tcsetpgrp] to the shell's group, whether the grant, the [SIGCONT], or
    the blocking wait failed or all succeeded; and once the operating
    system carries that call out, the shell's group owns the terminal.
    The same holds for the parent after forking a foreground command,
    whether its blocking wait fails or not. *)
Theorem terminal_returned_to_shell (w : world) :
  (forall n r w',
     0 <= shell_pgid w ->
     handle_builtin (job_control_command CMD_FG n) w = (r, w') ->
     (get_job_pid (job_list w) n = -1 /\
      term_owner w' = term_owner w /\ calls w' = calls w)
     \/ (last_call w' (SYS_tcsetpgrp (shell_pgid w)) /\
         (last_call_succeeded w' -> term_owner w' = shell_pgid w)))
  /\
  (forall result pid u w',
     background result = 0 ->
     main_parent result pid w = (u, w') ->
     last_call w' (SYS_tcsetpgrp (shell_pgid w)) /\
     (last_call_succeeded w' -> term_owner w' = shell_pgid w)).
Proof.
  split.
  - intros n r w' Hpg H. unfold handle_builtin in H. simpl in H.
    exec_in H; subst; finish_in H; apply get_job_info_cases in Heqp.
    + destruct Heqp as [[E _]|[E [_ ->]]]; [discriminate|].
      right. apply (builtin_fg_reclaims _ _ (set_job_list _ w) _ _ Hpg Heqp1).
    + destruct Heqp as [[_ [-> E]]|[E _]]; [|discriminate].
      left. repeat split; assumption.
  - intros result pid u w' Hbg H.
    apply (main_parent_reclaims _ _ _ _ _ Hbg H).
Qed.

Lemma terminal_returned_to_shell_witness :
  (0 <= shell_pgid (Sample.one_job STOPPED Sample.os_wait_fails) /\
   term_owner (snd (handle_builtin (job_control_command CMD_FG 1)
                      (Sample.one_job STOPPED Sample.os_wait_fails))) = 50 /\
   term_owner (snd (handle_builtin (job_control_command CMD_FG 1)
                      (Sample.one_job STOPPED Sample.os_grant_fails))) = 50 /\
   term_owner (snd (handle_builtin (job_control_command CMD_FG 1)
                      (Sample.one_job STOPPED Sample.os_kill_fails))) = 50 /\
   term_owner (snd (handle_builtin (job_control_command CMD_FG 1)
                      (Sample.one_job STOPPED Sample.os_ok))) = 50)
  /\
  (background Sample.sleep_fg = 0 /\
   term_owner (snd (main_parent Sample.sleep_fg 100
                      (Sample.one_job STOPPED Sample.os_wait_fails))) = 50 /\
   term_owner (snd (main_parent Sample.sleep_fg 100
                      (Sample.one_job STOPPED Sample.os_ok))) = 50).
Proof.
  assert (Hpg : forall os, 0 <= shell_pgid (Sample.one_job STOPPED os)).
  { intros os. simpl. lia. }
  assert (F : forall os,
             get_job_pid (job_list (Sample.one_job STOPPED os)) 1 <> -1 ->
             last_call_succeeded
               (snd (handle_builtin (job_control_command CMD_FG 1)
                       (Sample.one_job STOPPED os))) ->
             term_owner (snd (handle_builtin (job_control_command CMD_FG 1)
                                (Sample.one_job STOPPED os))) = 50).
  { intros os Hj Hs.
    destruct (terminal_returned_to_shell (Sample.one_job STOPPED os))
      as [T _].
    destruct (T 1 _ _ (Hpg os) (surjective_pairing _)) as [[E _]|[_ O]].
    - contradiction.
    - exact (O Hs). }
  assert (P : forall os,
             last_call_succeeded
               (snd (main_parent Sample.sleep_fg 100
                       (Sample.one_job STOPPED os))) ->
             term_owner (snd (main_parent Sample.sleep_fg 100
                                (Sample.one_job STOPPED os))) = 50).
  { intros os Hs.
    destruct (terminal_returned_to_shell (Sample.one_job STOPPED os))
      as [_ T].
    destruct (T Sample.sleep_fg 100 _ _ eq_refl (surjective_pairing _))
      as [_ O].
    exact (O Hs). }
  split.
  - split; [apply Hpg|].
    split; [|split; [|split]]; apply F; vm_compute; discriminate.
  - split; [reflexivity|].
    split; apply P; vm_compute; discriminate.
Defined.

(** The parent-side foreground wait clears [fg_pid] on every path, the
    failure of its blocking wait included (sh.c:728). *)
Lemma main_parent_clears_fg_pid (result : parse_result) (pid : Z) (w : world) :
  background result = 0 ->
  fg_pid (snd (main_parent result pid w)) = -1.
Proof.
  intros Hbg. destruct (main_parent result pid w) as [u w'] eqn:H.
  unfold main_parent in H. rewrite Hbg in H.
  exec_in H; finish_in H; reflexivity.
Qed.

(** ** Where the code departs from the claims *)

(** C2.  The [fg] built-in does not clear the foreground state when its
    blocking wait fails: with job 1 = pid 100 in the table and a failing
    [waitpid], [fg %1] returns -1 through sh.c:474-477 with [fg_pid] still
    100 and [foreground_job_id] still 1, although the terminal has been
    handed back to the shell (group 50). *)
Theorem fg_wait_failure_leaves_foreground_state :
  fst (handle_builtin (job_control_command CMD_FG 1)
         (Sample.one_job STOPPED Sample.os_wait_fails)) = Returns (-1) /\
  fg_pid (snd (handle_builtin (job_control_command CMD_FG 1)
                 (Sample.one_job STOPPED Sample.os_wait_fails))) = 100 /\
  foreground_job_id
    (snd (handle_builtin (job_control_command CMD_FG 1)
            (Sample.one_job STOPPED Sample.os_wait_fails))) = 1 /\
  term_owner (snd (handle_builtin (job_control_command CMD_FG 1)
                     (Sample.one_job STOPPED Sample.os_wait_fails))) = 50 /\
  calls (snd (handle_builtin (job_control_command CMD_FG 1)
                (Sample.one_job STOPPED Sample.os_wait_fails)))
  = [SYS_tcsetpgrp 100; SYS_kill (-100) SIGCONT; SYS_waitpid 100 WUNTRACED;
     SYS_tcsetpgrp 50].
Proof. vm_compute. repeat split; reflexivity. Qed.

(** C9.  [get_job_info] is not the direct inspection of the stored state.
    For a tracked job in state RUNNING it answers STOPPED, where direct
    inspection answers RUNNING; for a tracked job in state STOPPED it
    leaves the stored state RUNNING, where direct inspection leaves it
    STOPPED. *)
Theorem get_job_info_is_not_direct_inspection :
  (fst (get_job_info 1 (Sample.one_job RUNNING Sample.os_ok))
   = Some (100, STOPPED) /\
   fst (get_job_info_direct 1 (Sample.one_job RUNNING Sample.os_ok))
   = Some (100, RUNNING))
  /\
  (entries (job_list (snd (get_job_info 1
                             (Sample.one_job STOPPED Sample.os_ok))))
   = [mkJob 1 100 RUNNING "/bin/sleep"] /\
   entries (job_list (snd (get_job_info_direct 1
                             (Sample.one_job STOPPED Sample.os_ok))))
   = [mkJob 1 100 STOPPED "/bin/sleep"]).
Proof. vm_compute. repeat split; reflexivity. Qed.

(** The same for every table: whenever [get_job_info] succeeds it answers
    [STOPPED]. *)
Lemma get_job_info_always_stopped (n : Z) (w : world) (p : Z)
    (s : process_state_t) :
  fst (get_job_info n w) = Some (p, s) -> s = STOPPED.
Proof.
  destruct (get_job_info n w) as [r w'] eqn:H. simpl. intros ->.
  apply get_job_info_cases in H.
  destruct H as [[E _]|[E _]]; congruence.
Qed.

(** C4.  [bg %N] on a job whose state is RUNNING does not report
    [ERROR: Job is already running]: with job 1 = pid 100 RUNNING,
    [bg %1] prints nothing, sends [SIGCONT] to the group of pid 100 and
    returns 1. *)
Theorem bg_on_running_job_sends_sigcont :
  fst (handle_builtin (job_control_command CMD_BG 1)
         (Sample.one_job RUNNING Sample.os_ok)) = Returns 1 /\
  output (snd (handle_builtin (job_control_command CMD_BG 1)
                 (Sample.one_job RUNNING Sample.os_ok))) = [] /\
  calls (snd (handle_builtin (job_control_command CMD_BG 1)
                (Sample.one_job RUNNING Sample.os_ok)))
  = [SYS_kill (-100) SIGCONT].
Proof. vm_compute. repeat split; reflexivity. Qed.

(** For every table and every job id, [bg %N] never prints
    [ERROR: Job is already running]. *)
Lemma bg_never_reports_running (n : Z) (w : world) :
  stderr_messages
    (output (snd (handle_builtin (job_control_command CMD_BG n) w)))
  = stderr_messages (output w)
  \/ stderr_messages
       (output (snd (handle_builtin (job_control_command CMD_BG n) w)))
     = stderr_messages (output w) ++ [msg_no_such_job].
Proof.
  destruct (handle_builtin _ w) as [r w'] eqn:H. simpl.
  unfold handle_builtin in H. simpl in H.
  exec_in H; subst; finish_in H; apply get_job_info_cases in Heqp.
  - destruct Heqp as [[E _]|[E [_ ->]]]; [discriminate|].
    injection E as -> ->. left.
    unfold builtin_bg, send_signal_to_job in Heqp1.
    exec_in Heqp1; finish_in Heqp1; unfold stderr_messages;
      rewrite ?flat_map_app; simpl; rewrite ?app_nil_r; reflexivity.
  - destruct Heqp as [[_ [-> _]]|[E _]]; [|discriminate].
    right. unfold stderr_messages. rewrite flat_map_app. reflexivity.
Qed.

(** What does hold of [bg %N] for a job that is there (in either state):
    when the signal is sent, the job is marked RUNNING, nothing is printed,
    the only system call is the [kill], and 1 is returned. *)
Lemma bg_resumes_job (n : Z) (w : world) (j : job_element) :
  JobTable.find_by_job_id (job_list w) n = Some j ->
  0 < j_pid j ->
  0 <= ans_ret (oracle w (clock w) (SYS_kill (- j_pid j) SIGCONT)) ->
  fst (handle_builtin (job_control_command CMD_BG n) w) = Returns 1 /\
  entries (job_list (snd (handle_builtin (job_control_command CMD_BG n) w)))
  = JobTable.mark (j_pid j) RUNNING (entries (job_list w)) /\
  output (snd (handle_builtin (job_control_command CMD_BG n) w)) = output w /\
  calls (snd (handle_builtin (job_control_command CMD_BG n) w))
  = calls w ++ [SYS_kill (- j_pid j) SIGCONT].
Proof.
  intros F P K.
  assert (G : get_job_pid (job_list w) n = j_pid j).
  { unfold get_job_pid. rewrite F. reflexivity. }
  destruct (handle_builtin _ w) as [r w'] eqn:H. simpl.
  unfold handle_builtin in H. simpl in H.
  exec_in H; subst; finish_in H; apply get_job_info_cases in Heqp;
    rewrite G in Heqp.
  - destruct Heqp as [[E _]|[E [_ ->]]]; [discriminate|].
    injection E as -> ->.
    unfold builtin_bg, send_signal_to_job in Heqp1.
    exec_in Heqp1; finish_in Heqp1; try lia.
    apply update_job_pid_cases in Heqp.
    destruct Heqp as [[_ [_ N]]|[_ [-> _]]]; simpl in *.
    + rewrite mark_has_pid in N.
      pose proof (get_job_pid_tracked (job_list w) n) as T.
      rewrite G in T. rewrite T in N by lia. discriminate.
    + rewrite mark_mark. repeat split.
  - destruct Heqp as [[_ [_ E]]|[E _]]; [lia|discriminate].
Qed.

(** C5.  When a job brought to the foreground by [fg %N] dies by a signal,
    the [fg] built-in prints the form without the job id: with job 1 =
    pid 100 and a wait that reports death by signal 9, [fg %1] prints
    [(100) terminated by signal 9], not [[1] (100) terminated by signal 9],
    and removes the job. *)
Theorem fg_signal_death_prints_no_job_id :
  output (snd (handle_builtin (job_control_command CMD_FG 1)
                 (Sample.one_job STOPPED Sample.os_killed)))
  = [Stdout (String.append "(100) terminated by signal 9" LF)] /\
  output (snd (handle_builtin (job_control_command CMD_FG 1)
                 (Sample.one_job STOPPED Sample.os_killed)))
  <> [Stdout (String.append "[1] (100) terminated by signal 9" LF)] /\
  entries (job_list (snd (handle_builtin (job_control_command CMD_FG 1)
                            (Sample.one_job STOPPED Sample.os_killed)))) = [].
Proof. vm_compute. repeat split; try reflexivity. discriminate. Qed.

(** ** The reaper, event by event *)

Lemma reap_turn_event (reaped : Z) (w : world) :
  0 < ans_ret (polled w) ->
  reap_turn reaped w
  = (inl (fst (reap_body (ans_ret (polled w)) (ans_status (polled w)) reaped
                 (tick reaper_poll w))),
     snd (reap_body (ans_ret (polled w)) (ans_status (polled w)) reaped
            (tick reaper_poll w))).
Proof.
  intros H. unfold reap_turn. cbv beta iota delta [bind sys ret].
  fold reaper_poll. fold (polled w).
  destruct (ans_ret (polled w) >? 0) eqn:E; [|lia].
  destruct (reap_body _ _ _ _). reflexivity.
Qed.

Lemma reap_body_tracked_exit (pid code reaped : Z) (w : world)
    (j : job_element) :
  JobTable.find_by_pid (job_list w) pid = Some j ->
  0 < j_jid j ->
  reap_body pid (W_EXITED code) reaped w
  = (1, set_job_list
          (mkJobList (without_pid pid (entries (job_list w)))
                     (capacity (job_list w)))
          (emit (Stdout (msg_exited (j_jid j) pid code)) w)).
Proof.
  intros F P. destruct (reap_body _ _ _ _) as [r w'] eqn:H.
  unfold reap_body in H. monad_unfold_in H.
  rewrite (get_job_jid_some _ _ _ F) in H.
  exec_in H; finish_in H; try lia.
  pose proof (remove_job_pid_entries (job_list w) pid) as E.
  rewrite Heqp in E. simpl in E. rewrite E. reflexivity.
Qed.

Lemma reap_body_tracked_signal (pid sig reaped : Z) (w : world)
    (j : job_element) :
  JobTable.find_by_pid (job_list w) pid = Some j ->
  0 < j_jid j ->
  reap_body pid (W_SIGNALED sig) reaped w
  = (1, set_job_list
          (mkJobList (without_pid pid (entries (job_list w)))
                     (capacity (job_list w)))
          (emit (Stdout (msg_signaled (j_jid j) pid sig)) w)).
Proof.
  intros F P. destruct (reap_body _ _ _ _) as [r w'] eqn:H.
  unfold reap_body in H. monad_unfold_in H.
  rewrite (get_job_jid_some _ _ _ F) in H.
  exec_in H; finish_in H; try lia.
  pose proof (remove_job_pid_entries (job_list w) pid) as E.
  rewrite Heqp in E. simpl in E. rewrite E. reflexivity.
Qed.

Lemma reap_body_untracked_dropped (pid : Z) (status : wstatus) (reaped : Z)
    (w : world) :
  ~ In pid (pids w) ->
  pid <> fg_pid w ->
  reap_body pid status reaped w = (reaped, w).
Proof.
  intros U N. unfold reap_body. cbv beta delta [bind gets ret].
  rewrite (get_job_jid_none _ _ U).
  destruct (Z.eqb_spec pid (fg_pid w)) as [E|_]; [contradiction|].
  reflexivity.
Qed.

(** The reaper makes no system call of its own inside the loop body. *)
Lemma reap_body_os (pid : Z) (status : wstatus) (reaped : Z) (w : world) :
  clock (snd (reap_body pid status reaped w)) = clock w /\
  oracle (snd (reap_body pid status reaped w)) = oracle w.
Proof.
  destruct (reap_body pid status reaped w) as [r w'] eqn:H. simpl.
  unfold reap_body in H.
  exec_in H; finish_in H; split; reflexivity.
Qed.

Lemma reap_turn_idle (reaped : Z) (w : world) :
  ans_ret (polled w) <= 0 ->
  exists w', reap_turn reaped w = (inr reaped, w').
Proof.
  intros H. destruct (reap_turn reaped w) as [t w'] eqn:E.
  unfold reap_turn in E. fold reaper_poll in E.
  exec_in E; fold (polled w) in *; try lia; finish_in E; eexists;
    reflexivity.
Qed.

(** The drain returns: when the first [n] polls find a child and the next
    one finds none, [n + 1] turns are enough. *)
Lemma reap_loop_returns (n : nat) (w : world) (reaped : Z) :
  (forall k, (k < n)%nat ->
             0 < ans_ret (oracle w (clock w + k)%nat reaper_poll)) ->
  ans_ret (oracle w (clock w + n)%nat reaper_poll) <= 0 ->
  exists r w', reap_loop (S n) reaped w = (Some r, w').
Proof.
  revert w reaped. induction n as [|n IH]; intros w reaped Hk Hn.
  - rewrite Nat.add_0_r in Hn. fold (polled w) in Hn.
    destruct (reap_turn_idle reaped w Hn) as [w' E].
    exists reaped, w'. simpl. unfold bind. rewrite E. reflexivity.
  - assert (H0 : 0 < ans_ret (polled w)).
    { specialize (Hk 0%nat ltac:(lia)). rewrite Nat.add_0_r in Hk. exact Hk. }
    pose proof (reap_turn_event reaped w H0) as E.
    pose proof (reap_body_os (ans_ret (polled w)) (ans_status (polled w))
                  reaped (tick reaper_poll w)) as [C O].
    destruct (reap_body _ _ _ _) as [r1 w1]. simpl in E, C, O.
    destruct (IH w1 r1) as [r [w' L]].
    + intros k Hlt. rewrite C, O.
      specialize (Hk (S k) ltac:(lia)).
      replace (S (clock w) + k)%nat with (clock w + S k)%nat by lia.
      exact Hk.
    + rewrite C, O.
      replace (S (clock w) + n)%nat with (clock w + S n)%nat by lia.
      exact Hn.
    + exists r, w'. change (reap_loop (S (S n)) reaped w)
        with (bind (reap_turn reaped)
                (fun t => match t with
                          | inl reaped' => reap_loop (S n) reaped'
                          | inr r => ret (Some r)
                          end) w).
      unfold bind. rewrite E. exact L.
Qed.

(** C6.  A turn of the reaper that consumes the event (pid, status): if
    the pid is tracked by job [j] and the process exited with [code], the
    turn prints exactly [[<job_id>] (<pid>) terminated with exit status
    <code>] and the table loses the job; if it died by signal [sig], the
    same with [[<job_id>] (<pid>) terminated by signal <sig>]; if the pid
    is untracked and is not the foreground pid, nothing is printed and the
    table is unchanged: the world only records the poll. *)
Theorem reaper_exit_events (w : world) (reaped pid : Z) :
  0 < pid ->
  ans_ret (polled w) = pid ->
  (forall j code,
     JobTable.find_by_pid (job_list w) pid = Some j ->
     0 < j_jid j ->
     ans_status (polled w) = W_EXITED code ->
     fst (reap_turn reaped w) = inl 1 /\
     output (snd (reap_turn reaped w))
     = output w ++ [Stdout (fmt ["["; dec (j_jid j); "] ("; dec pid;
                                 ") terminated with exit status ";
                                 dec code; LF])] /\
     entries (job_list (snd (reap_turn reaped w)))
     = without_pid pid (entries (job_list w)) /\
     ~ In pid (pids (snd (reap_turn reaped w))))
  /\
  (forall j sig,
     JobTable.find_by_pid (job_list w) pid = Some j ->
     0 < j_jid j ->
     ans_status (polled w) = W_SIGNALED sig ->
     fst (reap_turn reaped w) = inl 1 /\
     output (snd (reap_turn reaped w))
     = output w ++ [Stdout (fmt ["["; dec (j_jid j); "] ("; dec pid;
                                 ") terminated by signal "; dec sig; LF])] /\
     entries (job_list (snd (reap_turn reaped w)))
     = without_pid pid (entries (job_list w)) /\
     ~ In pid (pids (snd (reap_turn reaped w))))
  /\
  (~ In pid (pids w) ->
   pid <> fg_pid w ->
   reap_turn reaped w = (inl reaped, tick reaper_poll w) /\
   output (snd (reap_turn reaped w)) = output w /\
   job_list (snd (reap_turn reaped w)) = job_list w).
Proof.
  intros Hpos Hpid.
  assert (T := reap_turn_event reaped w). rewrite Hpid in T.
  specialize (T Hpos). rewrite T. clear T. simpl.
  split; [|split].
  - intros j code F P S. rewrite S.
    rewrite (reap_body_tracked_exit pid code reaped (tick reaper_poll w) j F P).
    simpl. repeat split. apply removed_pid_gone.
  - intros j sig F P S. rewrite S.
    rewrite (reap_body_tracked_signal pid sig reaped (tick reaper_poll w)
               j F P).
    simpl. repeat split. apply removed_pid_gone.
  - intros U N.
    rewrite (reap_body_untracked_dropped pid _ reaped (tick reaper_poll w) U N).
    simpl. repeat split.
Qed.

Lemma reaper_exit_events_witness :
  (output (snd (reap_turn 0 (Sample.one_job RUNNING
                               (Sample.os_event (W_EXITED 3)))))
   = [Stdout (String.append "[1] (100) terminated with exit status 3" LF)] /\
   entries (job_list (snd (reap_turn 0 (Sample.one_job RUNNING
                                          (Sample.os_event (W_EXITED 3))))))
   = [])
  /\
  (output (snd (reap_turn 0 (Sample.one_job STOPPED
                               (Sample.os_event (W_SIGNALED 9)))))
   = [Stdout (String.append "[1] (100) terminated by signal 9" LF)] /\
   entries (job_list (snd (reap_turn 0 (Sample.one_job STOPPED
                                          (Sample.os_event (W_SIGNALED 9))))))
   = [])
  /\
  reap_turn 0 (initial_world 8 (Sample.os_event (W_EXITED 3)) 50)
  = (inl 0, tick reaper_poll
              (initial_world 8 (Sample.os_event (W_EXITED 3)) 50)).
Proof.
  assert (P : 0 < 100) by lia.
  split; [|split].
  - destruct (reaper_exit_events
                (Sample.one_job RUNNING (Sample.os_event (W_EXITED 3)))
                0 100 P eq_refl) as [A _].
    destruct (A (mkJob 1 100 RUNNING "/bin/sleep") 3 eq_refl
                ltac:(simpl; lia) eq_refl) as [_ [O [E _]]].
    split; [exact O|exact E].
  - destruct (reaper_exit_events
                (Sample.one_job STOPPED (Sample.os_event (W_SIGNALED 9)))
                0 100 P eq_refl) as [_ [B _]].
    destruct (B (mkJob 1 100 STOPPED "/bin/sleep") 9 eq_refl
                ltac:(simpl; lia) eq_refl) as [_ [O [E _]]].
    split; [exact O|exact E].
  - destruct (reaper_exit_events
                (initial_world 8 (Sample.os_event (W_EXITED 3)) 50)
                0 100 P eq_refl) as [_ [_ C]].
    destruct (C ltac:(simpl; tauto) ltac:(simpl; lia)) as [T _].
    exact T.
Defined.

Lemma reap_body_stop_foreground (pid sig reaped : Z) (w : world) :
  ~ In pid (pids w) ->
  pid = fg_pid w ->
  reap_body pid (W_STOPPED sig) reaped w
  = match JobTable.add (job_list w) (next_jid w) pid STOPPED "fg_command" with
    | Some jl' =>
        (1, emit (Stdout (msg_suspended (next_jid w) pid sig))
              (set_next_jid (int_succ (next_jid w)) (set_job_list jl' w)))
    | None => (1, emit (Stderr msg_add_failed) w)
    end.
Proof.
  intros U F. destruct (reap_body _ _ _ _) as [r w'] eqn:H.
  unfold reap_body in H. monad_unfold_in H.
  rewrite (get_job_jid_none _ _ U) in H. rewrite <- F in H.
  rewrite !Z.eqb_refl in H. simpl in H.
  destruct (add_job_cases (job_list w) (next_jid w) pid STOPPED "fg_command")
    as [[E ->]|[E ->]]; rewrite E in H; simpl in H; finish_in H.
  - destruct w; reflexivity.
  - reflexivity.
Qed.

Lemma reap_body_stop_tracked (pid sig reaped : Z) (w : world)
    (j : job_element) :
  JobTable.find_by_pid (job_list w) pid = Some j ->
  j_jid j <> -1 ->
  reap_body pid (W_STOPPED sig) reaped w
  = (1, emit (Stdout (msg_suspended (j_jid j) pid sig))
          (set_job_list
             (mkJobList (JobTable.mark pid STOPPED (entries (job_list w)))
                        (capacity (job_list w))) w)).
Proof.
  intros F P. destruct (reap_body _ _ _ _) as [r w'] eqn:H.
  unfold reap_body in H. monad_unfold_in H.
  rewrite (get_job_jid_some _ _ _ F) in H.
  exec_in H; finish_in H; try lia.
  rewrite (update_job_pid_tracked _ _ _ _ F) in Heqp.
  injection Heqp as _ <-. reflexivity.
Qed.

Lemma reap_body_continue_tracked (pid reaped : Z) (w : world)
    (j : job_element) :
  JobTable.find_by_pid (job_list w) pid = Some j ->
  0 < j_jid j ->
  reap_body pid W_CONTINUED reaped w
  = (1, emit (Stdout (msg_resumed (j_jid j) pid))
          (set_job_list
             (mkJobList (JobTable.mark pid RUNNING (entries (job_list w)))
                        (capacity (job_list w))) w)).
Proof.
  intros F P. destruct (reap_body _ _ _ _) as [r w'] eqn:H.
  unfold reap_body in H. monad_unfold_in H.
  rewrite (get_job_jid_some _ _ _ F) in H.
  exec_in H; finish_in H; try lia.
  rewrite (update_job_pid_tracked _ _ _ _ F) in Heqp.
  injection Heqp as _ <-. reflexivity.
Qed.

Lemma reap_body_continue_untracked (pid reaped : Z) (w : world) :
  ~ In pid (pids w) ->
  snd (reap_body pid W_CONTINUED reaped w) = w.
Proof.
  intros U. destruct (reap_body _ _ _ _) as [r w'] eqn:H.
  unfold reap_body in H. monad_unfold_in H.
  rewrite (get_job_jid_none _ _ U) in H.
  exec_in H; finish_in H; reflexivity.
Qed.

Lemma add_succeeds (jl : job_list_t) (i p : Z) (s : process_state_t)
    (name : string) :
  ~ In p (map j_pid (entries jl)) ->
  ~ In i (map j_jid (entries jl)) ->
  (List.length (entries jl) < capacity jl)%nat ->
  JobTable.add jl i p s name
  = Some (mkJobList (entries jl ++ [mkJob i p s name]) (capacity jl)).
Proof.
  intros Hp Hi Hc. unfold JobTable.add.
  rewrite (has_pid_false _ _ Hp), (has_jid_false _ _ Hi). simpl.
  destruct (Nat.leb_spec (capacity jl) (List.length (entries jl))); [lia|].
  reflexivity.
Qed.

(** C7, the claim as stated fails: with an empty table and no foreground
    process, a stop of the untracked child 100 is not entered; the table
    stays empty. *)
Lemma untracked_stop_is_dropped :
  ~ untracked_stop_joins_table
      (initial_world 8 (Sample.os_event (W_STOPPED 20)) 50) 0.
Proof.
  intros C.
  destruct (C 100 20 eq_refl ltac:(lia) eq_refl ltac:(simpl; tauto))
    as [name E].
  vm_compute in E. discriminate.
Qed.

(** C7, amended.  A turn of the reaper that consumes a stop or continue
    event for [pid]:
    - stopped, not in the table, and [pid] is the current foreground pid:
      when the table accepts the add (the next job id is unused and there
      is room), the process is entered as a new job with state STOPPED
      and the next job id, the counter moves on, and
      [[<job_id>] (<pid>) suspended by signal <sig>] is printed;
    - stopped, not in the table, and [pid] is not the foreground pid: the
      event is dropped, with no output and no table change;
    - stopped, already in the table: the job's state is set to STOPPED and
      the suspension is printed;
    - continued, tracked: the job's state is set to RUNNING and
      [[<job_id>] (<pid>) resumed] is printed;
    - continued, untracked: no output and no table change. *)
Theorem reaper_stop_and_continue_events (w : world) (reaped pid : Z) :
  0 < pid ->
  ans_ret (polled w) = pid ->
  (forall sig,
     ans_status (polled w) = W_STOPPED sig ->
     ~ In pid (pids w) ->
     pid = fg_pid w ->
     ~ In (next_jid w) (jids w) ->
     (List.length (entries (job_list w)) < capacity (job_list w))%nat ->
     entries (job_list (snd (reap_turn reaped w)))
     = entries (job_list w) ++ [mkJob (next_jid w) pid STOPPED "fg_command"] /\
     next_jid (snd (reap_turn reaped w)) = int_succ (next_jid w) /\
     output (snd (reap_turn reaped w))
     = output w ++ [Stdout (fmt ["["; dec (next_jid w); "] ("; dec pid;
                                 ") suspended by signal "; dec sig; LF])])
  /\
  (forall sig,
     ans_status (polled w) = W_STOPPED sig ->
     ~ In pid (pids w) ->
     pid <> fg_pid w ->
     reap_turn reaped w = (inl reaped, tick reaper_poll w))
  /\
  (forall sig j,
     ans_status (polled w) = W_STOPPED sig ->
     JobTable.find_by_pid (job_list w) pid = Some j ->
     j_jid j <> -1 ->
     entries (job_list (snd (reap_turn reaped w)))
     = JobTable.mark pid STOPPED (entries (job_list w)) /\
     output (snd (reap_turn reaped w))
     = output w ++ [Stdout (fmt ["["; dec (j_jid j); "] ("; dec pid;
                                 ") suspended by signal "; dec sig; LF])])
  /\
  (forall j,
     ans_status (polled w) = W_CONTINUED ->
     JobTable.find_by_pid (job_list w) pid = Some j ->
     0 < j_jid j ->
     entries (job_list (snd (reap_turn reaped w)))
     = JobTable.mark pid RUNNING (entries (job_list w)) /\
     output (snd (reap_turn reaped w))
     = output w ++ [Stdout (fmt ["["; dec (j_jid j); "] ("; dec pid;
                                 ") resumed"; LF])])
  /\
  (ans_status (polled w) = W_CONTINUED ->
   ~ In pid (pids w) ->
   output (snd (reap_turn reaped w)) = output w /\
   job_list (snd (reap_turn reaped w)) = job_list w).
Proof.
  intros Hpos Hpid.
  assert (T := reap_turn_event reaped w). rewrite Hpid in T.
  specialize (T Hpos). rewrite T. clear T. simpl.
  split; [|split; [|split; [|split]]].
  - intros sig S U F I R. rewrite S.
    rewrite (reap_body_stop_foreground pid sig reaped (tick reaper_poll w) U F).
    simpl. rewrite (add_succeeds _ _ _ _ _ U I R). simpl.
    repeat split.
  - intros sig S U N. rewrite S.
    rewrite (reap_body_untracked_dropped pid _ reaped (tick reaper_poll w) U N).
    reflexivity.
  - intros sig j S F P. rewrite S.
    rewrite (reap_body_stop_tracked pid sig reaped (tick reaper_poll w) j F P).
    simpl. repeat split.
  - intros j S F P. rewrite S.
    rewrite (reap_body_continue_tracked pid reaped (tick reaper_poll w) j F P).
    simpl. repeat split.
  - intros S U. rewrite S.
    rewrite (reap_body_continue_untracked pid reaped (tick reaper_poll w) U).
    simpl. repeat split.
Qed.

Lemma reaper_stop_and_continue_events_witness :
  (entries (job_list (snd (reap_turn 0
      (Sample.foreground_100 8 (Sample.os_event (W_STOPPED 20))))))
   = [mkJob 1 100 STOPPED "fg_command"] /\
   output (snd (reap_turn 0
      (Sample.foreground_100 8 (Sample.os_event (W_STOPPED 20)))))
   = [Stdout (String.append "[1] (100) suspended by signal 20" LF)])
  /\
  reap_turn 0 (initial_world 8 (Sample.os_event (W_STOPPED 20)) 50)
  = (inl 0, tick reaper_poll
              (initial_world 8 (Sample.os_event (W_STOPPED 20)) 50))
  /\
  entries (job_list (snd (reap_turn 0
      (Sample.one_job RUNNING (Sample.os_event (W_STOPPED 20))))))
  = [mkJob 1 100 STOPPED "/bin/sleep"]
  /\
  (entries (job_list (snd (reap_turn 0
      (Sample.one_job STOPPED (Sample.os_event W_CONTINUED)))))
   = [mkJob 1 100 RUNNING "/bin/sleep"] /\
   output (snd (reap_turn 0
      (Sample.one_job STOPPED (Sample.os_event W_CONTINUED))))
   = [Stdout (String.append "[1] (100) resumed" LF)])
  /\
  output (snd (reap_turn 0 (initial_world 8 (Sample.os_event W_CONTINUED) 50)))
  = [].
Proof.
  assert (P : 0 < 100) by lia.
  split; [|split; [|split; [|split]]].
  - destruct (reaper_stop_and_continue_events
                (Sample.foreground_100 8 (Sample.os_event (W_STOPPED 20)))
                0 100 P eq_refl) as [A _].
    destruct (A 20 eq_refl ltac:(simpl; tauto) eq_refl ltac:(simpl; tauto)
                ltac:(simpl; lia)) as [E [_ O]].
    split; [exact E|exact O].
  - destruct (reaper_stop_and_continue_events
                (initial_world 8 (Sample.os_event (W_STOPPED 20)) 50)
                0 100 P eq_refl) as [_ [B _]].
    exact (B 20 eq_refl ltac:(simpl; tauto) ltac:(simpl; lia)).
  - destruct (reaper_stop_and_continue_events
                (Sample.one_job RUNNING (Sample.os_event (W_STOPPED 20)))
                0 100 P eq_refl) as [_ [_ [C _]]].
    destruct (C 20 (mkJob 1 100 RUNNING "/bin/sleep") eq_refl eq_refl
                ltac:(simpl; lia)) as [E _].
    exact E.
  - destruct (reaper_stop_and_continue_events
                (Sample.one_job STOPPED (Sample.os_event W_CONTINUED))
                0 100 P eq_refl) as [_ [_ [_ [D _]]]].
    destruct (D (mkJob 1 100 STOPPED "/bin/sleep") eq_refl eq_refl
                ltac:(simpl; lia)) as [E O].
    split; [exact E|exact O].
  - destruct (reaper_stop_and_continue_events
                (initial_world 8 (Sample.os_event W_CONTINUED) 50)
                0 100 P eq_refl) as [_ [_ [_ [_ F]]]].
    destruct (F eq_refl ltac:(simpl; tauto)) as [O _].
    exact O.
Defined.

(** ** Admissions to the table *)

Lemma int_succ_neq (n : Z) : int_succ n <> n.
Proof.
  unfold int_succ, int_wrap. intros H.
  assert (B : 0 <= (n + 1 + 2 ^ 31) mod 2 ^ 32 < 2 ^ 32)
    by (apply Z.mod_pos_bound; lia).
  destruct (Z_lt_ge_dec (n + 1 + 2 ^ 31) (2 ^ 32)) as [L|G].
  - rewrite Z.mod_small in H by lia. lia.
  - assert (E : n + 1 + 2 ^ 31 = 2 ^ 32) by lia.
    rewrite E, Z.mod_same in H by lia. lia.
Qed.

Lemma int_succ_in_range (n : Z) :
  - 2 ^ 31 <= n < INT_MAX -> int_succ n = n + 1.
Proof.
  unfold int_succ, int_wrap, INT_MAX. intros H.
  rewrite Z.mod_small by lia. lia.
Qed.

Ltac messages_now :=
  unfold stderr_messages, stdout_messages; simpl;
  rewrite ?flat_map_app; simpl; rewrite ?app_nil_r; reflexivity.

Ltac resolve_add :=
  match goal with
  | X : add_job ?jl ?i ?p ?s ?n = (_, _) |- _ =>
      let E := fresh "E" in
      let A := fresh "A" in
      destruct (add_job_cases jl i p s n) as [[E A]|[E A]];
      rewrite E in X; injection X as <- <-; rewrite ?A in *
  end.

Ltac outcome_now :=
  unfold attempt_outcome; simpl;
  repeat split; try apply int_succ_neq; messages_now.

Lemma main_parent_background (result : parse_result) (pid : Z) (w : world) :
  background result <> 0 ->
  attempt_outcome
    (JobTable.add (job_list w) (next_jid w) pid RUNNING (path_of result))
    w (snd (main_parent result pid w)).
Proof.
  intros Hbg. destruct (main_parent result pid w) as [u w'] eqn:H.
  unfold main_parent in H. apply Z.eqb_neq in Hbg. rewrite Hbg in H.
  exec_in H; resolve_add; try discriminate; finish_in H; outcome_now.
Qed.

Lemma main_parent_foreground_stop (result : parse_result) (pid sig : Z)
    (w : world) :
  background result = 0 ->
  0 <= ans_ret (oracle w (2 + clock w) (SYS_waitpid pid WUNTRACED)) ->
  ans_status (oracle w (2 + clock w) (SYS_waitpid pid WUNTRACED))
  = W_STOPPED sig ->
  attempt_outcome
    (JobTable.add (job_list w) (next_jid w) pid STOPPED (path_of result))
    w (snd (main_parent result pid w)).
Proof.
  intros Hbg Hret Hst. destruct (main_parent result pid w) as [u w'] eqn:H.
  unfold main_parent in H. rewrite Hbg in H. simpl in Hret, Hst.
  exec_in H; rewrite ?Hst in *; simpl in *; try lia; try discriminate;
    resolve_add; try discriminate; finish_in H; outcome_now.
Qed.

Lemma builtin_fg_nonzero (result : parse_result) (pid : Z) (w : world) :
  fst (builtin_fg result pid w) <> 0.
Proof.
  destruct (builtin_fg result pid w) as [r w'] eqn:H.
  unfold builtin_fg in H.
  exec_in H; finish_in H; try destruct (_ =? 0); lia.
Qed.

Lemma builtin_bg_nonzero (pid : Z) (s : process_state_t) (w : world) :
  fst (builtin_bg pid s w) <> 0.
Proof.
  destruct (builtin_bg pid s w) as [r w'] eqn:H.
  unfold builtin_bg in H.
  exec_in H; finish_in H; lia.
Qed.

Lemma builtin_cd_nonzero (args : list string) (w : world) :
  fst (builtin_cd args w) <> 0.
Proof.
  destruct (builtin_cd args w) as [r w'] eqn:H.
  unfold builtin_cd in H.
  exec_in H; finish_in H; lia.
Qed.

Lemma builtin_ln_nonzero (args : list string) (w : world) :
  fst (builtin_ln args w) <> 0.
Proof.
  destruct (builtin_ln args w) as [r w'] eqn:H.
  unfold builtin_ln in H.
  exec_in H; finish_in H; lia.
Qed.

Lemma builtin_rm_nonzero (args : list string) (w : world) :
  fst (builtin_rm args w) <> 0.
Proof.
  destruct (builtin_rm args w) as [r w'] eqn:H.
  unfold builtin_rm in H.
  exec_in H; finish_in H; lia.
Qed.

Ltac nonzero_now :=
  match goal with
  | X : builtin_fg ?r ?p ?w = (0, _) |- _ =>
      pose proof (builtin_fg_nonzero r p w) as N; rewrite X in N
  | X : builtin_bg ?p ?s ?w = (0, _) |- _ =>
      pose proof (builtin_bg_nonzero p s w) as N; rewrite X in N
  | X : builtin_cd ?a ?w = (0, _) |- _ =>
      pose proof (builtin_cd_nonzero a w) as N; rewrite X in N
  | X : builtin_ln ?a ?w = (0, _) |- _ =>
      pose proof (builtin_ln_nonzero a w) as N; rewrite X in N
  | X : builtin_rm ?a ?w = (0, _) |- _ =>
      pose proof (builtin_rm_nonzero a w) as N; rewrite X in N
  end; simpl in *; congruence.

(** When [handle_builtin] returns 0 (not a built-in), it has done
    nothing. *)
Lemma handle_builtin_zero (result : parse_result) (w w0 : world) :
  handle_builtin result w = (Returns 0, w0) -> w0 = w.
Proof.
  intros H. unfold handle_builtin in H.
  exec_in H; inversion H; subst; try reflexivity; nonzero_now.
Qed.

Lemma main_command_parent (result : parse_result) (w : world) (pid : Z) :
  fst (handle_builtin result w) = Returns 0 ->
  ans_ret (forked w) = pid ->
  0 < pid ->
  main_command result w
  = (Continue, snd (main_parent result pid (tick SYS_fork w))).
Proof.
  intros Hb Hf Hp. unfold main_command. cbv beta iota delta [bind sys ret].
  destruct (handle_builtin result w) as [b w0] eqn:E. simpl in Hb. subst b.
  apply handle_builtin_zero in E. subst w0. simpl.
  cbv beta iota delta [bind sys ret]. fold (forked w). rewrite Hf.
  destruct (Z.ltb_spec pid 0); [lia|].
  destruct (Z.eqb_spec pid 0); [lia|].
  destruct (main_parent _ _ _). reflexivity.
Qed.

(** C10.  At each of the three places where the shell tries to add a job
    to the table, the next-job-id counter is incremented if and only if
    the add succeeds; when the add fails the shell writes
    [Error: Failed to add job to job list] to standard error, the counter
    and the table are unchanged, and the loop goes on.
    - background launch: a command that is not a built-in, forked as
      [pid], with [&];
    - foreground stop: such a command without [&] whose blocking wait
      reports a stop;
    - the reaper's turn for a stop of an untracked [pid] that is the
      foreground pid. *)
Theorem counter_moves_iff_added :
  (forall result w pid,
     fst (handle_builtin result w) = Returns 0 ->
     ans_ret (forked w) = pid ->
     0 < pid ->
     background result <> 0 ->
     fst (main_command result w) = Continue /\
     attempt_outcome
       (JobTable.add (job_list w) (next_jid w) pid RUNNING (path_of result))
       w (snd (main_command result w)))
  /\
  (forall result w pid sig,
     fst (handle_builtin result w) = Returns 0 ->
     ans_ret (forked w) = pid ->
     0 < pid ->
     background result = 0 ->
     0 <= ans_ret (foreground_wait w pid) ->
     ans_status (foreground_wait w pid) = W_STOPPED sig ->
     fst (main_command result w) = Continue /\
     attempt_outcome
       (JobTable.add (job_list w) (next_jid w) pid STOPPED (path_of result))
       w (snd (main_command result w)))
  /\
  (forall w reaped pid sig,
     ans_ret (polled w) = pid ->
     0 < pid ->
     ans_status (polled w) = W_STOPPED sig ->
     ~ In pid (pids w) ->
     pid = fg_pid w ->
     fst (reap_turn reaped w) = inl 1 /\
     attempt_outcome
       (JobTable.add (job_list w) (next_jid w) pid STOPPED "fg_command")
       w (snd (reap_turn reaped w))).
Proof.
  split; [|split].
  - intros result w pid Hb Hf Hp Hbg.
    rewrite (main_command_parent result w pid Hb Hf Hp). simpl.
    split; [reflexivity|].
    exact (main_parent_background result pid (tick SYS_fork w) Hbg).
  - intros result w pid sig Hb Hf Hp Hbg Hret Hst.
    rewrite (main_command_parent result w pid Hb Hf Hp). simpl.
    split; [reflexivity|].
    exact (main_parent_foreground_stop result pid sig (tick SYS_fork w)
             Hbg Hret Hst).
  - intros w reaped pid sig Hpid Hp Hst U F.
    assert (T := reap_turn_event reaped w). rewrite Hpid in T.
    specialize (T Hp). rewrite T. clear T. simpl. rewrite Hst.
    rewrite (reap_body_stop_foreground pid sig reaped (tick reaper_poll w) U F).
    simpl.
    destruct (JobTable.add (job_list w) (next_jid w) pid STOPPED "fg_command");
      simpl; split; try reflexivity; outcome_now.
Qed.

Lemma counter_moves_iff_added_witness :
  (next_jid (snd (main_command Sample.sleep_bg
                    (initial_world 8 (Sample.os_child (W_EXITED 0)) 50))) = 2 /\
   next_jid (snd (main_command Sample.sleep_bg
                    (initial_world 0 (Sample.os_child (W_EXITED 0)) 50))) = 1 /\
   stderr_messages
     (output (snd (main_command Sample.sleep_bg
                     (initial_world 0 (Sample.os_child (W_EXITED 0)) 50))))
   = [String.append "Error: Failed to add job to job list" LF])
  /\
  (next_jid (snd (main_command Sample.sleep_fg
                    (initial_world 8 (Sample.os_child (W_STOPPED 20)) 50)))
   = 2 /\
   next_jid (snd (main_command Sample.sleep_fg
                    (initial_world 0 (Sample.os_child (W_STOPPED 20)) 50))) = 1)
  /\
  (next_jid (snd (reap_turn 0 (Sample.foreground_100 8
                                 (Sample.os_event (W_STOPPED 20))))) = 2 /\
   next_jid (snd (reap_turn 0 (Sample.foreground_100 0
                                 (Sample.os_event (W_STOPPED 20))))) = 1).
Proof.
  destruct counter_moves_iff_added as [A [B C]].
  assert (P : 0 < 100) by lia.
  assert (N : 1 <> 0) by lia.
  split; [|split].
  - destruct (A Sample.sleep_bg
                (initial_world 8 (Sample.os_child (W_EXITED 0)) 50) 100
                eq_refl eq_refl P N) as [_ [_ [E _]]].
    destruct (A Sample.sleep_bg
                (initial_world 0 (Sample.os_child (W_EXITED 0)) 50) 100
                eq_refl eq_refl P N) as [_ [_ [E0 M]]].
    split; [exact E|split; [exact E0|exact M]].
  - destruct (B Sample.sleep_fg
                (initial_world 8 (Sample.os_child (W_STOPPED 20)) 50) 100 20
                eq_refl eq_refl P eq_refl ltac:(simpl; lia) eq_refl)
      as [_ [_ [E _]]].
    destruct (B Sample.sleep_fg
                (initial_world 0 (Sample.os_child (W_STOPPED 20)) 50) 100 20
                eq_refl eq_refl P eq_refl ltac:(simpl; lia) eq_refl)
      as [_ [_ [E0 _]]].
    split; [exact E|exact E0].
  - destruct (C (Sample.foreground_100 8 (Sample.os_event (W_STOPPED 20)))
                0 100 20 eq_refl P eq_refl ltac:(simpl; tauto) eq_refl)
      as [_ [_ [E _]]].
    destruct (C (Sample.foreground_100 0 (Sample.os_event (W_STOPPED 20)))
                0 100 20 eq_refl P eq_refl ltac:(simpl; tauto) eq_refl)
      as [_ [_ [E0 _]]].
    split; [exact E|exact E0].
Defined.

(** ** Job ids along a session *)

Lemma update_job_pid_quiet (jl : job_list_t) (p : Z) (s : process_state_t)
    (r : Z) (jl' : job_list_t) :
  update_job_pid jl p s = (r, jl') ->
  incl (map j_jid (entries jl')) (map j_jid (entries jl)).
Proof.
  intros H. apply update_job_pid_frame in H. destruct H as [-> _].
  apply incl_refl.
Qed.

Lemma filter_jids_incl (f : job_element -> bool) (l : list job_element) :
  incl (map j_jid (filter f l)) (map j_jid l).
Proof.
  intros i H. apply in_map_iff in H. destruct H as [j [E Hin]].
  apply filter_In in Hin. apply in_map_iff. exists j. tauto.
Qed.

Lemma remove_job_pid_quiet (jl : job_list_t) (p r : Z) (jl' : job_list_t) :
  remove_job_pid jl p = (r, jl') ->
  incl (map j_jid (entries jl')) (map j_jid (entries jl)).
Proof.
  intros H. pose proof (remove_job_pid_entries jl p) as E.
  rewrite H in E. simpl in E. subst jl'. apply filter_jids_incl.
Qed.

Lemma remove_job_jid_quiet (jl : job_list_t) (i r : Z) (jl' : job_list_t) :
  remove_job_jid jl i = (r, jl') ->
  incl (map j_jid (entries jl')) (map j_jid (entries jl)).
Proof.
  intros H. pose proof (remove_job_jid_entries jl i) as E.
  rewrite H in E. simpl in E. subst jl'. apply filter_jids_incl.
Qed.

Ltac table_chain :=
  repeat match goal with
  | H : update_job_pid _ _ _ = (_, _) |- _ => apply update_job_pid_quiet in H
  | H : remove_job_pid _ _ = (_, _) |- _ => apply remove_job_pid_quiet in H
  | H : remove_job_jid _ _ = (_, _) |- _ => apply remove_job_jid_quiet in H
  end;
  repeat match goal with
  | H : incl ?x ?y |- incl ?x _ => apply (incl_tran H); clear H
  end;
  apply incl_refl.

Ltac quiet_now :=
  unfold quiet, jids; simpl; split; [reflexivity | table_chain].

Lemma quiet_refl (w : world) : quiet w w.
Proof. split; [reflexivity|apply incl_refl]. Qed.

Lemma quiet_trans (w1 w2 w3 : world) :
  quiet w1 w2 -> quiet w2 w3 -> quiet w1 w3.
Proof.
  intros [N1 I1] [N2 I2]. split; [congruence|].
  apply (incl_tran I2 I1).
Qed.

Lemma get_job_info_quiet (n : Z) (w : world) :
  quiet w (snd (get_job_info n w)).
Proof.
  destruct (get_job_info n w) as [r w'] eqn:H. simpl.
  apply get_job_info_cases in H.
  destruct H as [[_ [-> _]]|[_ [_ ->]]]; [apply quiet_refl|].
  unfold quiet, jids. simpl. rewrite mark_jids.
  split; [reflexivity|apply incl_refl].
Qed.

Lemma builtin_fg_quiet (result : parse_result) (pid : Z) (w : world) :
  quiet w (snd (builtin_fg result pid w)).
Proof.
  destruct (builtin_fg result pid w) as [r w'] eqn:H. simpl.
  unfold builtin_fg, give_terminal_to, send_signal_to_job, wait_for_job,
    take_terminal_control in H.
  exec_in H; finish_in H; quiet_now.
Qed.

Lemma builtin_bg_quiet (pid : Z) (s : process_state_t) (w : world) :
  quiet w (snd (builtin_bg pid s w)).
Proof.
  destruct (builtin_bg pid s w) as [r w'] eqn:H. simpl.
  unfold builtin_bg, send_signal_to_job in H.
  exec_in H; finish_in H; quiet_now.
Qed.

Lemma handle_builtin_quiet (result : parse_result) (w : world) :
  quiet w (snd (handle_builtin result w)).
Proof.
  destruct (handle_builtin result w) as [r w'] eqn:H. simpl.
  unfold handle_builtin, builtin_cd, builtin_ln, builtin_rm in H.
  exec_in H; finish_in H;
    try (quiet_now; fail);
    match goal with
    | G : get_job_info ?n ?w0 = (_, ?w1) |- _ =>
        pose proof (get_job_info_quiet n w0) as Q; rewrite G in Q; simpl in Q
    end;
    match goal with
    | G : builtin_fg ?r ?p ?w0 = (_, _) |- _ =>
        pose proof (builtin_fg_quiet r p w0) as Q'; rewrite G in Q';
        exact (quiet_trans _ _ _ Q Q')
    | G : builtin_bg ?p ?s ?w0 = (_, _) |- _ =>
        pose proof (builtin_bg_quiet p s w0) as Q'; rewrite G in Q';
        exact (quiet_trans _ _ _ Q Q')
    | _ => exact Q
    end.
Qed.

Ltac issues_now :=
  unfold issues_one, jids; simpl; rewrite ?map_app; split; reflexivity.

Ltac step_now := first [left; quiet_now | right; issues_now].

Lemma main_parent_step (result : parse_result) (pid : Z) (w : world) :
  quiet w (snd (main_parent result pid w))
  \/ issues_one w (snd (main_parent result pid w)).
Proof.
  destruct (main_parent result pid w) as [u w'] eqn:H. simpl.
  unfold main_parent in H.
  exec_in H; try resolve_add; try discriminate; finish_in H; step_now.
Qed.

Lemma reap_body_step (pid : Z) (status : wstatus) (reaped : Z) (w : world) :
  quiet w (snd (reap_body pid status reaped w))
  \/ issues_one w (snd (reap_body pid status reaped w)).
Proof.
  destruct (reap_body pid status reaped w) as [r w'] eqn:H. simpl.
  unfold reap_body in H.
  exec_in H; try resolve_add; try discriminate; finish_in H; step_now.
Qed.

Lemma reap_turn_step (reaped : Z) (w : world) :
  quiet w (snd (reap_turn reaped w)) \/ issues_one w (snd (reap_turn reaped w)).
Proof.
  destruct (reap_turn reaped w) as [r w'] eqn:H. simpl.
  unfold reap_turn in H. exec_in H; finish_in H; try (left; quiet_now).
  pose proof (reap_body_step (ans_ret (polled w)) (ans_status (polled w))
                reaped (tick reaper_poll w)) as S.
  unfold polled, reaper_poll in S. rewrite Heqp in S. exact S.
Qed.

Lemma main_command_step (result : parse_result) (w : world) :
  quiet w (snd (main_command result w))
  \/ issues_one w (snd (main_command result w)).
Proof.
  destruct (main_command result w) as [c w'] eqn:H. simpl.
  pose proof (handle_builtin_quiet result w) as Q.
  unfold main_command in H. exec_in H; finish_in H;
    simpl in Q; try (left; exact Q).
  assert (r = 0) by lia. subst r.
  apply handle_builtin_zero in Heqp. subst w0.
  pose proof (main_parent_step result
                (ans_ret (oracle w (clock w) SYS_fork)) (tick SYS_fork w)) as S.
  rewrite Heqp0 in S. exact S.
Qed.

Lemma perform_step (a : action) (w : world) :
  quiet w (snd (perform a w)) \/ issues_one w (snd (perform a w)).
Proof.
  destruct a as [|result]; simpl.
  - unfold bind, ret. pose proof (reap_turn_step 0 w) as S.
    destruct (reap_turn 0 w). exact S.
  - apply main_command_step.
Qed.

Lemma mem_in (i : Z) (l : list Z) : In i l -> mem i l = true.
Proof.
  intros H. unfold mem. apply existsb_exists. exists i.
  split; [exact H|apply Z.eqb_refl].
Qed.

Lemma mem_not_in (i : Z) (l : list Z) : ~ In i l -> mem i l = false.
Proof.
  intros H. unfold mem. destruct (existsb _ _) eqn:E; [|reflexivity].
  apply existsb_exists in E. destruct E as [x [Hin Hx]].
  apply Z.eqb_eq in Hx. subst. contradiction.
Qed.

Lemma filter_all_known (known l : list Z) :
  incl l known -> filter (fun i => negb (mem i known)) l = [].
Proof.
  induction l as [|i l IH]; intros H; simpl; [reflexivity|].
  rewrite (mem_in i known) by (apply H; left; reflexivity). simpl.
  apply IH. intros x Hx. apply H. right. exact Hx.
Qed.

Lemma new_ids_quiet (w w' : world) : quiet w w' -> new_ids w w' = [].
Proof. intros [_ I]. apply filter_all_known. exact I. Qed.

Lemma new_ids_issue (w w' : world) :
  counter_bounds_ids w -> issues_one w w' -> new_ids w w' = [next_jid w].
Proof.
  intros [_ B] [_ E]. unfold new_ids. rewrite E, filter_app.
  rewrite (filter_all_known (jids w) (jids w)) by apply incl_refl.
  simpl. rewrite mem_not_in; [reflexivity|].
  intros Hin. rewrite Forall_forall in B. specialize (B _ Hin). lia.
Qed.

Lemma quiet_keeps_bounds (w w' : world) :
  counter_bounds_ids w -> quiet w w' -> counter_bounds_ids w'.
Proof.
  intros [P B] [N I]. split; [lia|].
  rewrite Forall_forall in *. intros i Hi. rewrite N. apply B, I, Hi.
Qed.

Lemma issue_keeps_bounds (w w' : world) :
  counter_bounds_ids w -> next_jid w < INT_MAX -> issues_one w w' ->
  next_jid w' = next_jid w + 1 /\ counter_bounds_ids w'.
Proof.
  intros [P B] L [N E].
  rewrite int_succ_in_range in N by (unfold INT_MAX in *; lia).
  split; [exact N|]. split; [lia|].
  rewrite E, N. apply Forall_app. split.
  - rewrite Forall_forall in *. intros i Hi. specialize (B i Hi). lia.
  - constructor; [lia|constructor].
Qed.

Lemma ids_from_ge (n : Z) (k : nat) (i : Z) : In i (ids_from n k) -> n <= i.
Proof.
  revert n. induction k as [|k IH]; simpl; intros n H; [contradiction|].
  destruct H as [<-|H]; [lia|]. specialize (IH _ H). lia.
Qed.

Lemma ids_from_sorted (n : Z) (k : nat) : StronglySorted Z.lt (ids_from n k).
Proof.
  revert n. induction k as [|k IH]; simpl; intros n; constructor.
  - apply IH.
  - apply Forall_forall. intros i Hi. apply ids_from_ge in Hi. lia.
Qed.

Lemma ids_from_nodup (n : Z) (k : nat) : NoDup (ids_from n k).
Proof.
  revert n. induction k as [|k IH]; simpl; intros n; constructor.
  - intros Hi. apply ids_from_ge in Hi. lia.
  - apply IH.
Qed.

(** One step issues no id and leaves the counter, or issues exactly the
    counter's value and moves the counter on by one. *)
Lemma perform_issues (a : action) (w : world) :
  counter_bounds_ids w ->
  next_jid w < INT_MAX ->
  (new_ids w (snd (perform a w)) = [] /\
   next_jid (snd (perform a w)) = next_jid w /\
   counter_bounds_ids (snd (perform a w)))
  \/
  (new_ids w (snd (perform a w)) = [next_jid w] /\
   next_jid (snd (perform a w)) = next_jid w + 1 /\
   counter_bounds_ids (snd (perform a w))).
Proof.
  intros B L. destruct (perform_step a w) as [Q|A].
  - left. split; [exact (new_ids_quiet _ _ Q)|].
    split; [exact (proj1 Q)|exact (quiet_keeps_bounds _ _ B Q)].
  - right. split; [exact (new_ids_issue _ _ B A)|].
    exact (issue_keeps_bounds _ _ B L A).
Qed.

Lemma session_ids (l : list action) (w : world) :
  counter_bounds_ids w ->
  next_jid w + Z.of_nat (List.length l) <= INT_MAX ->
  issued l w = ids_from (next_jid w) (List.length (issued l w)) /\
  next_jid (run l w) = next_jid w + Z.of_nat (List.length (issued l w)) /\
  counter_bounds_ids (run l w).
Proof.
  revert w. induction l as [|a l IH]; intros w B L.
  - simpl. split; [reflexivity|]. split; [lia|exact B].
  - assert (L1 : next_jid w < INT_MAX) by (simpl List.length in L; lia).
    pose proof (perform_issues a w B L1) as S.
    simpl. destruct (perform a w) as [c w'] eqn:E. simpl in S.
    destruct S as [[N [C B']]|[N [C B']]]; rewrite N.
    + destruct c; simpl;
        try (split; [reflexivity|]; split; [lia|exact B']).
      destruct (IH w' B') as [I1 [I2 I3]].
      { rewrite C. simpl List.length in L. lia. }
      rewrite C in I1, I2. tauto.
    + destruct c; simpl;
        try (split; [reflexivity|]; split; [lia|exact B']).
      destruct (IH w' B') as [I1 [I2 I3]].
      { rewrite C. simpl List.length in L. lia. }
      rewrite C in I1, I2. rewrite <- I1.
      split; [reflexivity|]. split; [lia|exact I3].
Qed.

(** Every job id in the table of a session is positive. *)
Lemma session_ids_positive (cap : nat) (os : nat -> syscall -> answer)
    (pgid : Z) (l : list action) (j : job_element) :
  Z.of_nat (List.length l) < INT_MAX ->
  In j (entries (job_list (run l (initial_world cap os pgid)))) ->
  0 < j_jid j.
Proof.
  intros L Hin.
  assert (B : counter_bounds_ids (initial_world cap os pgid)).
  { split; [simpl; lia|constructor]. }
  destruct (session_ids l (initial_world cap os pgid) B) as [_ [_ [_ F]]].
  { simpl next_jid. lia. }
  rewrite Forall_forall in F.
  apply (F (j_jid j)). unfold jids. apply in_map. exact Hin.
Qed.

(** C8.  Along every session from the shell's initial state (too short
    to overflow the [int] counter), whatever the operating system
    answers: the counter starts at 1; each step either issues no job id
    and leaves the counter, or issues exactly the counter's value and
    increments it; so the job ids issued are 1, 2, 3, ... in this order,
    strictly increasing and without repetition, whether or not the jobs
    that bore earlier ids have been removed; and the ids in the table stay
    positive and below the counter. *)
Theorem job_ids_issued_in_order (cap : nat) (os : nat -> syscall -> answer)
    (pgid : Z) (l : list action) :
  Z.of_nat (List.length l) < INT_MAX ->
  next_jid (initial_world cap os pgid) = 1 /\
  (forall a w,
     counter_bounds_ids w -> next_jid w < INT_MAX ->
     (new_ids w (snd (perform a w)) = [] /\
      next_jid (snd (perform a w)) = next_jid w)
     \/ (new_ids w (snd (perform a w)) = [next_jid w] /\
         next_jid (snd (perform a w)) = next_jid w + 1)) /\
  issued l (initial_world cap os pgid)
  = ids_from 1 (List.length (issued l (initial_world cap os pgid))) /\
  StronglySorted Z.lt (issued l (initial_world cap os pgid)) /\
  NoDup (issued l (initial_world cap os pgid)) /\
  next_jid (run l (initial_world cap os pgid))
  = 1 + Z.of_nat (List.length (issued l (initial_world cap os pgid))) /\
  counter_bounds_ids (run l (initial_world cap os pgid)).
Proof.
  intros L.
  assert (B : counter_bounds_ids (initial_world cap os pgid)).
  { split; [simpl; lia|constructor]. }
  destruct (session_ids l (initial_world cap os pgid) B) as [I1 [I2 I3]].
  { simpl next_jid. lia. }
  simpl next_jid in I1, I2.
  split; [reflexivity|]. split.
  - intros a w Bw Lw. destruct (perform_issues a w Bw Lw) as [S|S];
      [left|right]; tauto.
  - split; [exact I1|]. split; [rewrite I1; apply ids_from_sorted|].
    split; [rewrite I1; apply ids_from_nodup|]. split; [exact I2|exact I3].
Qed.

Lemma job_ids_issued_in_order_witness :
  Z.of_nat (List.length Sample.two_jobs_session) < INT_MAX /\
  issued Sample.two_jobs_session (initial_world 8 Sample.os_two_jobs 50)
  = [1; 2] /\
  stdout_messages
    (output (run Sample.two_jobs_session
               (initial_world 8 Sample.os_two_jobs 50)))
  = [String.append "[1] (100)" LF;
     String.append "[1] (100) terminated with exit status 0" LF;
     String.append "[2] (101)" LF] /\
  entries (job_list (run Sample.two_jobs_session
                       (initial_world 8 Sample.os_two_jobs 50)))
  = [mkJob 2 101 RUNNING "/bin/sleep"].
Proof.
  assert (L : Z.of_nat (List.length Sample.two_jobs_session) < INT_MAX).
  { vm_compute. reflexivity. }
  split; [exact L|].
  destruct (job_ids_issued_in_order 8 Sample.os_two_jobs 50
              Sample.two_jobs_session L) as [_ [_ [I _]]].
  split; [|split].
  - rewrite I. vm_compute. reflexivity.
  - vm_compute. reflexivity.
  - vm_compute. reflexivity.
Defined.

(** ** Command lines *)

Arguments parse : simpl never.
Arguments parse_words : simpl never.
Arguments strtok : simpl never.
Arguments atoi : simpl never.
Arguments command_name : simpl never.

Lemma is_delim_isspace (c : ascii) : is_delim c = true -> isspace c = true.
Proof.
  unfold is_delim, isspace. intros H.
  apply orb_true_iff in H. destruct H as [H|H].
  - apply orb_true_iff in H. destruct H as [H|H];
      apply Nat.eqb_eq in H; rewrite H; reflexivity.
  - apply Nat.eqb_eq in H; rewrite H; reflexivity.
Qed.

Lemma skip_delims_length (s : string) :
  (String.length (skip_delims s) <= String.length s)%nat.
Proof.
  induction s as [|c s IH]; simpl; [lia|].
  destruct (is_delim c); simpl; lia.
Qed.

Lemma take_token_length (s : string) :
  (String.length (snd (take_token s)) <= String.length s)%nat.
Proof.
  induction s as [|c s IH]; simpl; [lia|].
  destruct (is_delim c); simpl; [lia|].
  destruct (take_token s) as [t after]. simpl in *. lia.
Qed.

Lemma take_token_no_delim (s : string) : no_delim (fst (take_token s)) = true.
Proof.
  induction s as [|c s IH]; simpl; [reflexivity|].
  destruct (is_delim c) eqn:D; simpl; [reflexivity|].
  destruct (take_token s) as [t after]. simpl in *. rewrite D. exact IH.
Qed.

Lemma skip_delims_head (s : string) (c : ascii) (rest : string) :
  skip_delims s = String c rest -> is_delim c = false.
Proof.
  induction s as [|d s IH]; simpl; [discriminate|].
  destruct (is_delim d) eqn:D; [exact IH|].
  intros [= <- <-]. exact D.
Qed.

Lemma strtok_sound (s t rest : string) :
  strtok s = Some (t, rest) ->
  is_word t = true /\ (String.length rest < String.length s)%nat.
Proof.
  unfold strtok. destruct (skip_delims s) as [|c r] eqn:E; [discriminate|].
  intros [= H]. pose proof (skip_delims_head _ _ _ E) as D.
  pose proof (skip_delims_length s) as L. rewrite E in L.
  pose proof (take_token_length r) as T.
  pose proof (take_token_no_delim r) as W.
  simpl in H. rewrite D in H.
  destruct (take_token r) as [t' after]. injection H as <- <-.
  simpl in *. rewrite D. split; [exact W|lia].
Qed.

Lemma collect_enough (n : nat) (s : string) :
  (String.length s < n)%nat ->
  collect_tokens n (strtok s) = line_tokens s.
Proof.
  revert s.
  induction n as [n IH] using (well_founded_induction lt_wf).
  intros s L. unfold line_tokens.
  destruct n as [|n]; [lia|]. simpl.
  destruct (strtok s) as [[t rest]|] eqn:E; [|reflexivity].
  apply strtok_sound in E. destruct E as [_ R].
  rewrite (IH n) by lia. rewrite (IH (String.length s)) by lia. reflexivity.
Qed.

Lemma line_tokens_step (s t rest : string) :
  strtok s = Some (t, rest) -> line_tokens s = t :: line_tokens rest.
Proof.
  intros E. unfold line_tokens at 1. simpl. rewrite E.
  apply strtok_sound in E. destruct E as [_ R].
  rewrite collect_enough by lia. reflexivity.
Qed.

Lemma line_tokens_none (s : string) :
  strtok s = None -> line_tokens s = [].
Proof. intros E. unfold line_tokens. simpl. rewrite E. reflexivity. Qed.

Lemma line_tokens_nil (s : string) :
  line_tokens s = [] -> strtok s = None.
Proof.
  destruct (strtok s) as [[t rest]|] eqn:E; [|reflexivity].
  rewrite (line_tokens_step _ _ _ E). discriminate.
Qed.

Lemma line_tokens_cons (s t : string) (ws : list string) :
  line_tokens s = t :: ws ->
  exists rest, strtok s = Some (t, rest) /\ line_tokens rest = ws.
Proof.
  destruct (strtok s) as [[t' rest]|] eqn:E.
  - rewrite (line_tokens_step _ _ _ E). intros [= <- <-].
    exists rest. split; reflexivity.
  - rewrite (line_tokens_none _ E). discriminate.
Qed.

Lemma collect_firstn (n : nat) (s : string) :
  collect_tokens n (strtok s) = firstn n (line_tokens s).
Proof.
  revert s. induction n as [|n IH]; intros s; [reflexivity|].
  simpl. destruct (strtok s) as [[t rest]|] eqn:E.
  - rewrite (line_tokens_step _ _ _ E). simpl. rewrite IH. reflexivity.
  - rewrite (line_tokens_none _ E). reflexivity.
Qed.

Lemma parse_job_control_words (t : command_type) (rest : string) :
  parse_job_control t rest = job_control_words t (line_tokens rest).
Proof.
  unfold parse_job_control, job_control_words.
  destruct (strtok rest) as [[t2 rest2]|] eqn:E.
  - rewrite (line_tokens_step _ _ _ E).
    destruct t2 as [|c job_str]; [reflexivity|].
    destruct (Ascii.eqb_spec c "%"%char) as [->|N].
    + destruct (negb _); [reflexivity|].
      destruct (strtok rest2) as [[t3 rest3]|] eqn:E2.
      * rewrite (line_tokens_step _ _ _ E2). reflexivity.
      * rewrite (line_tokens_none _ E2). reflexivity.
    + destruct c as [[] [] [] [] [] [] [] []]; try reflexivity.
      contradiction N. reflexivity.
  - rewrite (line_tokens_none _ E). reflexivity.
Qed.

(** [parse] reads a line through its tokens only. *)
Lemma parse_by_words (buffer : string) :
  (String.length buffer < BUFFER_SIZE)%nat ->
  parse buffer = parse_words (line_tokens buffer).
Proof.
  intros L. unfold parse, parse_words.
  destruct (Nat.leb_spec BUFFER_SIZE (String.length buffer)); [lia|].
  destruct (strtok buffer) as [[token rest]|] eqn:E.
  - rewrite (line_tokens_step _ _ _ E).
    destruct (_ || _).
    + apply parse_job_control_words.
    + rewrite <- (line_tokens_step _ _ _ E).
      rewrite <- collect_firstn, E. reflexivity.
  - rewrite (line_tokens_none _ E). reflexivity.
Qed.

Lemma list_ind2 {A} (P : list A -> Prop) :
  P [] ->
  (forall a, P [a]) ->
  (forall a b l, P l -> P (b :: l) -> P (a :: b :: l)) ->
  forall l, P l.
Proof.
  intros H0 H1 H2 l.
  assert (B : P l /\ forall a, P (a :: l)).
  { induction l as [|b l [IH1 IH2]]; [split; [exact H0|exact H1]|].
    split; [apply IH2|]. intros a. apply H2; [exact IH1|apply IH2]. }
  exact (proj1 B).
Qed.

Lemma process_tokens_one (a : string) (hi ho : bool) (r : parse_result) :
  process_tokens [a] hi ho r
  = if String.eqb a "<" then fprintf_stderr msg_bad_input ;;; ret None
    else if String.eqb a ">" || String.eqb a ">>"
    then fprintf_stderr msg_bad_output ;;; ret None
    else ret (Some (add_word r a)).
Proof.
  unfold add_word. simpl. destruct (String.eqb a "<"); [reflexivity|].
  destruct (_ || _); [reflexivity|]. destruct (command_path r); reflexivity.
Qed.

Lemma process_tokens_two (a b : string) (l : list string) (hi ho : bool)
    (r : parse_result) :
  process_tokens (a :: b :: l) hi ho r
  = if String.eqb a "<" then
      if hi then fprintf_stderr msg_bad_input ;;; ret None
      else process_tokens l true ho (with_input_file b r)
    else if String.eqb a ">" || String.eqb a ">>" then
      if ho then fprintf_stderr msg_bad_output ;;; ret None
      else process_tokens l hi true
             (with_output_file b (second_char_is_gt a) r)
    else process_tokens (b :: l) hi ho (add_word r a).
Proof.
  unfold add_word.
  change (process_tokens (a :: b :: l) hi ho r)
    with (if String.eqb a "<" then
            if hi then fprintf_stderr msg_bad_input ;;; ret None
            else process_tokens l true ho (with_input_file b r)
          else if String.eqb a ">" || String.eqb a ">>" then
            if ho then fprintf_stderr msg_bad_output ;;; ret None
            else process_tokens l hi true
                   (with_output_file b (second_char_is_gt a) r)
          else
            match command_path r with
            | None => process_tokens (b :: l) hi ho
                        (with_command a (command_name a) r)
            | Some _ => process_tokens (b :: l) hi ho (with_arg a r)
            end).
  destruct (String.eqb a "<"); [reflexivity|].
  destruct (_ || _); [reflexivity|]. destruct (command_path r); reflexivity.
Qed.

Lemma add_word_shape (r : parse_result) (t : string) :
  command_path (add_word r t) <> None /\
  argv (add_word r t) = argv r ++ [match command_path r with
                                   | None => command_name t
                                   | Some _ => t
                                   end] /\
  cmd_type (add_word r t) = cmd_type r /\
  job_id (add_word r t) = job_id r /\
  background (add_word r t) = background r /\
  input_file (add_word r t) = input_file r /\
  output_file (add_word r t) = output_file r /\
  append_mode (add_word r t) = append_mode r.
Proof.
  unfold add_word. destruct (command_path r) eqn:C; simpl;
    repeat split; try rewrite C; congruence.
Qed.

(** The loop either stores a result without printing, or prints one of
    its two error lines. *)
Lemma process_tokens_outcome (tokens : list string) :
  forall hi ho r w,
    (exists r', process_tokens tokens hi ho r w = (Some r', w))
    \/ process_tokens tokens hi ho r w = (None, emit (Stderr msg_bad_input) w)
    \/ process_tokens tokens hi ho r w
       = (None, emit (Stderr msg_bad_output) w).
Proof.
  induction tokens as [|a|a b l IH1 IH2] using list_ind2; intros hi ho r w.
  - left. exists r. reflexivity.
  - rewrite process_tokens_one.
    destruct (String.eqb a "<"); [right; left; reflexivity|].
    destruct (_ || _); [right; right; reflexivity|].
    left; eexists; reflexivity.
  - rewrite process_tokens_two. destruct (String.eqb a "<").
    + destruct hi; [right; left; reflexivity|apply IH1].
    + destruct (_ || _).
      * destruct ho; [right; right; reflexivity|apply IH1].
      * apply IH2.
Qed.

(** What a successful run of the loop keeps and bounds. *)
Lemma process_tokens_success (tokens : list string) :
  forall hi ho r w r' w',
    process_tokens tokens hi ho r w = (Some r', w') ->
    w' = w /\
    cmd_type r' = cmd_type r /\
    job_id r' = job_id r /\
    background r' = background r /\
    (List.length (argv r') <= List.length (argv r) + List.length tokens)%nat /\
    ((command_path r = None <-> argv r = []) ->
     (command_path r' = None <-> argv r' = [])).
Proof.
  assert (K : forall (r : parse_result) (t : string),
             command_path (add_word r t) = None <-> argv (add_word r t) = []).
  { intros r t. destruct (add_word_shape r t) as [A [B _]]. rewrite B.
    split; [contradiction|]. destruct (argv r); discriminate. }
  induction tokens as [|a|a b l IH1 IH2] using list_ind2;
    intros hi ho r w r' w' H.
  - injection H as <- <-. repeat split; try tauto; simpl; lia.
  - rewrite process_tokens_one in H.
    destruct (String.eqb a "<"); [discriminate|].
    destruct (_ || _); [discriminate|].
    injection H as <- <-.
    destruct (add_word_shape r a) as [A [B [C [D [E _]]]]].
    split; [reflexivity|]. split; [exact C|]. split; [exact D|].
    split; [exact E|].
    split; [rewrite B, length_app; simpl; lia|intros _; apply K].
  - rewrite process_tokens_two in H. destruct (String.eqb a "<").
    + destruct hi; [discriminate|].
      apply IH1 in H. simpl in *. intuition lia.
    + destruct (_ || _).
      * destruct ho; [discriminate|].
        apply IH1 in H. simpl in *. intuition lia.
      * apply IH2 in H.
        destruct (add_word_shape r a) as [A [B [C [D [E _]]]]].
        destruct H as [H1 [H2 [H3 [H4 [H5 H6]]]]].
        rewrite B, length_app in H5. simpl in H5.
        split; [exact H1|]. split; [congruence|]. split; [congruence|].
        split; [congruence|].
        split; [simpl List.length in *; lia|intros _; apply H6, K].
Qed.

Lemma split_background_length (tokens : list string) :
  (List.length (fst (split_background tokens)) <= List.length tokens)%nat /\
  command_path (snd (split_background tokens)) = None /\
  argv (snd (split_background tokens)) = [] /\
  cmd_type (snd (split_background tokens)) = CMD_REGULAR /\
  job_id (snd (split_background tokens)) = -1.
Proof.
  unfold split_background.
  destruct (rev tokens) as [|last before] eqn:E;
    [simpl; repeat split; lia|].
  destruct (String.eqb last "&"); simpl; repeat split; try lia.
  rewrite length_rev. rewrite <- (length_rev tokens), E. simpl. lia.
Qed.

Lemma all_whitespace_strtok (s : string) :
  all_whitespace s = 0 -> strtok s <> None.
Proof.
  unfold strtok. intros H.
  assert (E : skip_delims s <> EmptyString).
  { induction s as [|c s IH]; simpl in *; [discriminate|].
    destruct (is_delim c) eqn:D; [|discriminate].
    rewrite (is_delim_isspace _ D) in H. simpl in H. apply IH, H. }
  destruct (skip_delims s); [contradiction|discriminate].
Qed.

Lemma job_control_words_outcome (t : command_type) (others : list string)
    (w : world) :
  (exists r, job_control_words t others w = (Some r, w))
  \/ (exists m, In m parse_errors /\
                job_control_words t others w = (None, emit (Stderr m) w)).
Proof.
  unfold job_control_words, parse_errors.
  destruct others as [|[|c job_str] more];
    try (right; exists msg_expected_job; split; [simpl; tauto|reflexivity]).
  destruct (Ascii.eqb_spec c "%"%char) as [->|N].
  - destruct (negb _).
    + right; exists msg_invalid_job; split; [simpl; tauto|reflexivity].
    + destruct more.
      * left. eexists. reflexivity.
      * right; exists msg_too_many; split; [simpl; tauto|reflexivity].
  - right; exists msg_expected_job; split; [simpl; tauto|].
    destruct c as [[] [] [] [] [] [] [] []]; try reflexivity.
    contradiction N. reflexivity.
Qed.

Lemma parse_outcome (s : string) (w : world) :
  (String.length s < BUFFER_SIZE)%nat ->
  is_empty_or_whitespace (Some s) = 0 ->
  (exists r, parse s w = (Some r, w))
  \/ (exists m, In m parse_errors /\ parse s w = (None, emit (Stderr m) w)).
Proof.
  intros L B. rewrite (parse_by_words s L).
  apply all_whitespace_strtok in B.
  destruct (line_tokens s) as [|token others] eqn:T.
  { apply line_tokens_nil in T. contradiction. }
  unfold parse_words.
  destruct (_ || _); [apply job_control_words_outcome|].
  destruct (split_background _) as [tokens r0].
  cbv beta delta [bind].
  destruct (process_tokens_outcome tokens false false r0 w) as [[r E]|[E|E]];
    rewrite E.
  - destruct (command_path r).
    + left. exists r. reflexivity.
    + right. exists msg_no_command. split; [simpl; tauto|reflexivity].
  - right. exists msg_bad_input. split; [simpl; tauto|reflexivity].
  - right. exists msg_bad_output. split; [simpl; tauto|reflexivity].
Qed.

(** X1.  A line that [main] hands to [parse] (not blank, shorter than the
    buffer) is either accepted, and then nothing is printed and nothing
    else changes, or rejected with exactly one of the six error lines of
    [parse] on standard error: no command line is dropped silently. *)
Theorem parse_reports_every_rejection (s : string) (w : world) :
  (String.length s < BUFFER_SIZE)%nat ->
  is_empty_or_whitespace (Some s) = 0 ->
  (exists r, parse s w = (Some r, w))
  \/ (exists m, In m parse_errors /\ parse s w = (None, emit (Stderr m) w)).
Proof. exact (parse_outcome s w). Qed.

Lemma parse_reports_every_rejection_witness :
  (exists r, parse "/bin/ls -l" (initial_world 8 Sample.os_ok 50)
             = (Some r, initial_world 8 Sample.os_ok 50))
  \/ (exists m, In m parse_errors /\
                parse "/bin/ls -l" (initial_world 8 Sample.os_ok 50)
                = (None, emit (Stderr m) (initial_world 8 Sample.os_ok 50))).
Proof.
  apply (parse_reports_every_rejection "/bin/ls -l"
           (initial_world 8 Sample.os_ok 50)).
  - vm_compute. lia.
  - reflexivity.
Defined.

Lemma firstn_length_le {A} (n : nat) (l : list A) :
  (List.length (firstn n l) <= n)%nat.
Proof. rewrite length_firstn. lia. Qed.

Lemma parse_accepts_fields (s : string) (w : world) (r : parse_result)
    (w' : world) :
  parse s w = (Some r, w') ->
  w' = w /\
  command_path r <> None /\
  argv r <> [] /\
  (List.length (argv r) <= MAX_TOKENS - 1)%nat /\
  cmd_type r <> CMD_JOBS /\
  (cmd_type r = CMD_REGULAR -> job_id r = -1) /\
  (cmd_type r <> CMD_REGULAR -> r = job_control_command (cmd_type r) (job_id r)).
Proof.
  intros H.
  destruct (Nat.leb_spec BUFFER_SIZE (String.length s)) as [G|L].
  { unfold parse in H. apply Nat.leb_le in G. rewrite G in H. discriminate. }
  rewrite (parse_by_words s L) in H. unfold parse_words in H.
  destruct (line_tokens s) as [|token others] eqn:T; [discriminate|].
  destruct (String.eqb token "fg" || String.eqb token "bg") eqn:J.
  - unfold job_control_words in H.
    assert (C : forall t n, t = CMD_FG \/ t = CMD_BG ->
                (Some (job_control_command t n), w) = (Some r, w') ->
                w' = w /\ command_path r <> None /\ argv r <> [] /\
                (List.length (argv r) <= MAX_TOKENS - 1)%nat /\
                cmd_type r <> CMD_JOBS /\
                (cmd_type r = CMD_REGULAR -> job_id r = -1) /\
                (cmd_type r <> CMD_REGULAR ->
                 r = job_control_command (cmd_type r) (job_id r))).
    { intros t n Ht [= <- <-].
      destruct Ht as [-> | ->]; simpl; repeat split;
        try discriminate; try lia. }
    destruct others as [|[|c job_str] more]; try discriminate.
    destruct c as [[] [] [] [] [] [] [] []]; try discriminate.
    destruct (negb _); [discriminate|].
    destruct more; [|discriminate]. unfold ret in H.
    destruct (String.eqb token "fg"); (eapply C; [|exact H]); tauto.
  - destruct (split_background _) as [tokens r0] eqn:S.
    pose proof (split_background_length
                  (firstn (MAX_TOKENS - 1) (token :: others))) as B.
    rewrite S in B. simpl fst in B. simpl snd in B.
    destruct B as [B1 [B2 [B3 [B4 B5]]]].
    cbv beta delta [bind] in H.
    destruct (process_tokens tokens false false r0 w) as [[r1|] w1] eqn:P;
      [|discriminate].
    apply process_tokens_success in P.
    destruct P as [-> [P2 [P3 [P4 [P5 P6]]]]].
    destruct (command_path r1) eqn:C; [|discriminate].
    injection H as <- <-.
    pose proof (firstn_length_le (MAX_TOKENS - 1) (token :: others)) as F.
    rewrite B3 in P5. simpl List.length in P5.
    split; [reflexivity|]. split; [congruence|].
    split.
    { intros E. apply P6 in E; [congruence|]. rewrite B2, B3. tauto. }
    split; [lia|]. split; [congruence|].
    split; [congruence|]. intros N. congruence.
Qed.

(** X2.  Whenever [parse] accepts a line, the command path and [argv[0]]
    are set (so the null-pointer guard at the top of [handle_builtin] is
    never taken after [parse]), at most 511 arguments are stored (so the
    terminating null of [argv] is written inside the array), the command
    type is never CMD_JOBS, a regular command has job id -1, and a
    job-control command is exactly the record for its type and job id.
    Accepting prints nothing. *)
Theorem parse_success_shape (s : string) (w : world) (r : parse_result)
    (w' : world) :
  parse s w = (Some r, w') ->
  w' = w /\
  command_path r <> None /\
  argv r <> [] /\
  (List.length (argv r) <= MAX_TOKENS - 1)%nat /\
  cmd_type r <> CMD_JOBS /\
  (cmd_type r = CMD_REGULAR -> job_id r = -1) /\
  (cmd_type r <> CMD_REGULAR -> r = job_control_command (cmd_type r) (job_id r)).
Proof. exact (parse_accepts_fields s w r w'). Qed.

Lemma parse_success_shape_witness :
  command_path (job_control_command CMD_BG 3) <> None /\
  argv (job_control_command CMD_BG 3) <> [] /\
  cmd_type (job_control_command CMD_BG 3) <> CMD_JOBS.
Proof.
  destruct (parse_success_shape "  bg   %3x  "
              (initial_world 8 Sample.os_ok 50)
              (job_control_command CMD_BG 3)
              (initial_world 8 Sample.os_ok 50) eq_refl)
    as [_ [A [B [_ [C _]]]]].
  split; [exact A|]. split; [exact B|exact C].
Defined.

Lemma take_token_budget (s : string) :
  (String.length (fst (take_token s)) + String.length (snd (take_token s)) + 1
   <= String.length s)%nat
  \/ (snd (take_token s) = EmptyString /\
      String.length (fst (take_token s)) = String.length s).
Proof.
  induction s as [|c s IH]; simpl; [right; split; reflexivity|].
  destruct (is_delim c); simpl; [left; lia|].
  destruct (take_token s) as [t after]. simpl in *.
  destruct IH as [IH|[-> IH]]; [left; lia|right; split; [reflexivity|lia]].
Qed.

Lemma strtok_budget (s t rest : string) :
  strtok s = Some (t, rest) ->
  (String.length rest + 2 <= String.length s)%nat
  \/ (rest = EmptyString /\ (1 <= String.length s)%nat).
Proof.
  intros E. pose proof (strtok_sound _ _ _ E) as [W _].
  unfold strtok in E.
  destruct (skip_delims s) as [|c r] eqn:K; [discriminate|].
  pose proof (skip_delims_length s) as L. rewrite K in L.
  pose proof (take_token_budget (String c r)) as B.
  destruct (take_token (String c r)) as [t' rest'].
  injection E as -> ->.
  simpl fst in B. simpl snd in B. simpl String.length in *.
  assert (1 <= String.length t)%nat.
  { destruct t; [discriminate|simpl; lia]. }
  destruct B as [B|[-> B]]; [left; lia|right; split; [reflexivity|lia]].
Qed.

Lemma line_tokens_count (s : string) :
  (2 * List.length (line_tokens s) <= String.length s + 1)%nat.
Proof.
  remember (String.length s) as n eqn:N. revert s N.
  induction n as [n IH] using (well_founded_induction lt_wf). intros s N.
  destruct (strtok s) as [[t rest]|] eqn:E.
  - rewrite (line_tokens_step _ _ _ E). simpl List.length.
    destruct (strtok_budget _ _ _ E) as [B|[-> B]].
    + specialize (IH (String.length rest) ltac:(lia) rest eq_refl). lia.
    + rewrite (line_tokens_none EmptyString eq_refl). simpl. lia.
  - rewrite (line_tokens_none _ E). simpl. lia.
Qed.

Lemma line_tokens_words (s : string) :
  Forall (fun t => is_word t = true) (line_tokens s).
Proof.
  remember (String.length s) as n eqn:N. revert s N.
  induction n as [n IH] using (well_founded_induction lt_wf). intros s N.
  destruct (strtok s) as [[t rest]|] eqn:E.
  - rewrite (line_tokens_step _ _ _ E).
    destruct (strtok_sound _ _ _ E) as [W L].
    constructor; [exact W|].
    apply (IH (String.length rest) ltac:(lia) rest eq_refl).
  - rewrite (line_tokens_none _ E). constructor.
Qed.

(** X3.  The tokens [parse] works on are never empty and never contain a
    space, tab or newline; a line of [n] characters has at most
    [(n + 1) / 2] of them; so the 511 slots that the token loop fills
    hold all the tokens of any line of up to 1021 characters, and only a
    longer line can lose its last token to the limit. *)
Theorem tokens_are_words_and_fit (s : string) :
  Forall (fun t => is_word t = true) (line_tokens s) /\
  (2 * List.length (line_tokens s) <= String.length s + 1)%nat /\
  ((String.length s <= 1021)%nat ->
   collect_tokens (MAX_TOKENS - 1) (strtok s) = line_tokens s).
Proof.
  split; [apply line_tokens_words|]. split; [apply line_tokens_count|].
  intros L. rewrite collect_firstn. apply firstn_all2.
  pose proof (line_tokens_count s). unfold MAX_TOKENS. lia.
Qed.

Lemma tokens_are_words_and_fit_witness :
  (String.length "cat  < in   >> out" <= 1021)%nat /\
  collect_tokens (MAX_TOKENS - 1) (strtok "cat  < in   >> out")
  = ["cat"; "<"; "in"; ">>"; "out"].
Proof.
  assert (L : (String.length "cat  < in   >> out" <= 1021)%nat).
  { vm_compute. lia. }
  split; [exact L|].
  destruct (tokens_are_words_and_fit "cat  < in   >> out") as [_ [_ F]].
  rewrite (F L). reflexivity.
Defined.

Lemma no_delim_take (t : string) :
  no_delim t = true -> take_token t = (t, EmptyString).
Proof.
  induction t as [|c t IH]; simpl; [reflexivity|].
  intros H. apply andb_true_iff in H. destruct H as [D H].
  apply negb_true_iff in D. rewrite D, (IH H). reflexivity.
Qed.

Lemma no_delim_take_app (t rest : string) :
  no_delim t = true ->
  take_token (String.append t (String " " rest)) = (t, rest).
Proof.
  induction t as [|c t IH]; simpl; [reflexivity|].
  intros H. apply andb_true_iff in H. destruct H as [D H].
  apply negb_true_iff in D. rewrite D, (IH H). reflexivity.
Qed.

Lemma strtok_word (t : string) :
  is_word t = true -> strtok t = Some (t, EmptyString).
Proof.
  destruct t as [|c t]; [discriminate|]. intros H.
  unfold strtok. pose proof H as H'. simpl in H'.
  apply andb_true_iff in H'. destruct H' as [D _].
  apply negb_true_iff in D. simpl skip_delims. rewrite D.
  rewrite (no_delim_take (String c t) H). reflexivity.
Qed.

Lemma strtok_word_app (t rest : string) :
  is_word t = true ->
  strtok (String.append t (String " " rest)) = Some (t, rest).
Proof.
  destruct t as [|c t]; [discriminate|]. intros H.
  unfold strtok. pose proof H as H'. simpl in H'.
  apply andb_true_iff in H'. destruct H' as [D _].
  apply negb_true_iff in D. simpl skip_delims. rewrite D.
  change (String c (String.append t (String " " rest)))
    with (String.append (String c t) (String " " rest)).
  rewrite (no_delim_take_app (String c t) rest H). reflexivity.
Qed.

Lemma line_tokens_join (ws : list string) :
  Forall (fun t => is_word t = true) ws ->
  line_tokens (join_words ws) = ws.
Proof.
  induction 1 as [|t ws W _ IH]; [reflexivity|].
  unfold join_words in *. simpl String.concat.
  destruct ws as [|u ws].
  - rewrite (line_tokens_step _ _ _ (strtok_word t W)). reflexivity.
  - rewrite (line_tokens_step _ _ _ (strtok_word_app t _ W)).
    rewrite IH. reflexivity.
Qed.

(** X4.  Tokenizing is the inverse of joining words with single spaces:
    for any list of words, the tokens of the joined line are these words,
    in order. *)
Theorem tokens_of_joined_words (ws : list string) :
  Forall (fun t => is_word t = true) ws ->
  line_tokens (join_words ws) = ws.
Proof. exact (line_tokens_join ws). Qed.

Lemma tokens_of_joined_words_witness :
  Forall (fun t => is_word t = true) ["/bin/sleep"; "100"; "&"] /\
  line_tokens "/bin/sleep 100 &" = ["/bin/sleep"; "100"; "&"].
Proof.
  assert (W : Forall (fun t => is_word t = true) ["/bin/sleep"; "100"; "&"]).
  { repeat constructor. }
  split; [exact W|].
  exact (tokens_of_joined_words ["/bin/sleep"; "100"; "&"] W).
Defined.

(** *** Job-control lines *)

Lemma job_control_table (s : string) (w : world) (name : string)
    (others : list string) :
  (String.length s < BUFFER_SIZE)%nat ->
  line_tokens s = name :: others ->
  name = "fg" \/ name = "bg" ->
  (others = [] ->
   parse s w
   = (None, emit (Stderr (String.append "ERROR: Expected %<job-id>" LF)) w))
  /\
  (forall c t2 more,
     others = String c t2 :: more -> c <> "%"%char ->
     parse s w
     = (None, emit (Stderr (String.append "ERROR: Expected %<job-id>" LF)) w))
  /\
  (forall js more,
     others = String "%" js :: more -> starts_with_digit js = false ->
     parse s w
     = (None, emit (Stderr (String.append "ERROR: Invalid job ID" LF)) w))
  /\
  (forall js x more,
     others = String "%" js :: x :: more -> starts_with_digit js = true ->
     parse s w
     = (None, emit (Stderr (String.append "ERROR: Too many arguments" LF)) w))
  /\
  (forall js,
     others = [String "%" js] -> starts_with_digit js = true ->
     parse s w
     = (Some (job_control_command
                (if String.eqb name "fg" then CMD_FG else CMD_BG) (atoi js)),
        w)).
Proof.
  intros L T N. rewrite (parse_by_words s L), T. unfold parse_words.
  assert (J : String.eqb name "fg" || String.eqb name "bg" = true).
  { destruct N as [-> | ->]; reflexivity. }
  rewrite J. unfold job_control_words.
  split; [intros ->; reflexivity|].
  split.
  { intros c t2 more -> C.
    destruct c as [[] [] [] [] [] [] [] []]; try reflexivity.
    contradiction C. reflexivity. }
  assert (D : forall js, starts_with_digit js
                         = isdigit match js with
                                   | String c _ => c
                                   | EmptyString => zero
                                   end).
  { intros [|c js]; reflexivity. }
  split; [intros js more -> F; rewrite <- D, F; reflexivity|].
  split; intros js; [intros x more|]; intros -> F; rewrite <- D, F;
    reflexivity.
Qed.

(** X5.  The decision table of [parse] for a line whose first token is
    [fg] or [bg], by the tokens that follow: none, or a second token that
    does not start with [%]: [ERROR: Expected %<job-id>]; [%] not followed
    by a digit: [ERROR: Invalid job ID]; a third token after a well-formed
    second one: [ERROR: Too many arguments]; otherwise the line is accepted
    as the job-control command whose job id is [atoi] of what follows the
    [%], so that characters after the digits are ignored. *)
Theorem parse_job_control_table (s : string) (w : world) (name : string)
    (others : list string) :
  (String.length s < BUFFER_SIZE)%nat ->
  line_tokens s = name :: others ->
  name = "fg" \/ name = "bg" ->
  (others = [] ->
   parse s w
   = (None, emit (Stderr (String.append "ERROR: Expected %<job-id>" LF)) w))
  /\
  (forall c t2 more,
     others = String c t2 :: more -> c <> "%"%char ->
     parse s w
     = (None, emit (Stderr (String.append "ERROR: Expected %<job-id>" LF)) w))
  /\
  (forall js more,
     others = String "%" js :: more -> starts_with_digit js = false ->
     parse s w
     = (None, emit (Stderr (String.append "ERROR: Invalid job ID" LF)) w))
  /\
  (forall js x more,
     others = String "%" js :: x :: more -> starts_with_digit js = true ->
     parse s w
     = (None, emit (Stderr (String.append "ERROR: Too many arguments" LF)) w))
  /\
  (forall js,
     others = [String "%" js] -> starts_with_digit js = true ->
     parse s w
     = (Some (job_control_command
                (if String.eqb name "fg" then CMD_FG else CMD_BG) (atoi js)),
        w)).
Proof. exact (job_control_table s w name others). Qed.

Lemma parse_job_control_table_witness :
  parse "fg" (initial_world 8 Sample.os_ok 50)
  = (None, emit (Stderr (String.append "ERROR: Expected %<job-id>" LF))
             (initial_world 8 Sample.os_ok 50))
  /\
  parse "bg 3" (initial_world 8 Sample.os_ok 50)
  = (None, emit (Stderr (String.append "ERROR: Expected %<job-id>" LF))
             (initial_world 8 Sample.os_ok 50))
  /\
  parse "fg %x1" (initial_world 8 Sample.os_ok 50)
  = (None, emit (Stderr (String.append "ERROR: Invalid job ID" LF))
             (initial_world 8 Sample.os_ok 50))
  /\
  parse "fg %1 %2" (initial_world 8 Sample.os_ok 50)
  = (None, emit (Stderr (String.append "ERROR: Too many arguments" LF))
             (initial_world 8 Sample.os_ok 50))
  /\
  parse "bg %3x" (initial_world 8 Sample.os_ok 50)
  = (Some (job_control_command CMD_BG 3), initial_world 8 Sample.os_ok 50).
Proof.
  assert (L : forall s, (String.length s <=? 100)%nat = true ->
                        (String.length s < BUFFER_SIZE)%nat).
  { intros s H. apply Nat.leb_le in H. unfold BUFFER_SIZE. lia. }
  split; [|split; [|split; [|split]]].
  - destruct (parse_job_control_table "fg" (initial_world 8 Sample.os_ok 50)
                "fg" [] (L "fg" eq_refl) eq_refl (or_introl eq_refl))
      as [A _].
    exact (A eq_refl).
  - destruct (parse_job_control_table "bg 3"
                (initial_world 8 Sample.os_ok 50)
                "bg" ["3"] (L "bg 3" eq_refl) eq_refl (or_intror eq_refl))
      as [_ [B _]].
    apply (B "3"%char EmptyString [] eq_refl). discriminate.
  - destruct (parse_job_control_table "fg %x1"
                (initial_world 8 Sample.os_ok 50)
                "fg" ["%x1"] (L "fg %x1" eq_refl) eq_refl (or_introl eq_refl))
      as [_ [_ [C _]]].
    exact (C "x1" [] eq_refl eq_refl).
  - destruct (parse_job_control_table "fg %1 %2"
                (initial_world 8 Sample.os_ok 50)
                "fg" ["%1"; "%2"] (L "fg %1 %2" eq_refl) eq_refl (or_introl eq_refl))
      as [_ [_ [_ [D _]]]].
    exact (D "1" "%2" [] eq_refl eq_refl).
  - destruct (parse_job_control_table "bg %3x"
                (initial_world 8 Sample.os_ok 50)
                "bg" ["%3x"] (L "bg %3x" eq_refl) eq_refl (or_intror eq_refl))
      as [_ [_ [_ [_ E]]]].
    exact (E "3x" eq_refl eq_refl).
Defined.

(** *** Printing a job id and reading it back *)

Lemma digits_value_step (c : ascii) (rest : string) (acc : Z) :
  isdigit c = true ->
  digits_value (String c rest) acc
  = digits_value rest (10 * acc + digit_value c).
Proof. simpl. intros ->. reflexivity. Qed.

Lemma digits_value_acc (d : Decimal.uint) (acc : positive) :
  digits_value (NilEmpty.string_of_uint d) (Z.pos acc)
  = Z.pos (Pos.of_uint_acc d acc).
Proof.
  revert acc. induction d as [|d IH|d IH|d IH|d IH|d IH|d IH|d IH|d IH|d IH|d IH];
    intros acc; [reflexivity|..];
    cbn [NilEmpty.string_of_uint Pos.of_uint_acc];
    rewrite digits_value_step by reflexivity;
    rewrite <- IH; f_equal;
    match goal with
    | |- context [digit_value ?c] =>
        let v := eval vm_compute in (digit_value c) in
        change (digit_value c) with v
    end; lia.
Qed.

Lemma digits_value_uint (d : Decimal.uint) :
  digits_value (NilEmpty.string_of_uint d) 0 = Z.of_N (Pos.of_uint d).
Proof.
  induction d as [|d IH|d IH|d IH|d IH|d IH|d IH|d IH|d IH|d IH|d IH];
    [reflexivity|exact IH|..];
    cbn [NilEmpty.string_of_uint Pos.of_uint];
    rewrite digits_value_step by reflexivity;
    match goal with
    | |- context [digit_value ?c] =>
        let v := eval vm_compute in (10 * 0 + digit_value c) in
        change (10 * 0 + digit_value c) with v
    end; apply digits_value_acc.
Qed.

Lemma uint_string_length (d : Decimal.uint) :
  String.length (NilEmpty.string_of_uint d) = Decimal.nb_digits d.
Proof.
  induction d; simpl; congruence.
Qed.

Lemma uint_string_no_delim (d : Decimal.uint) :
  no_delim (NilEmpty.string_of_uint d) = true.
Proof. induction d; simpl; assumption || reflexivity. Qed.

Lemma uint_string_digit (d : Decimal.uint) :
  d <> Decimal.Nil -> starts_with_digit (NilEmpty.string_of_uint d) = true.
Proof. destruct d; [contradiction|..]; reflexivity. Qed.

Lemma little_double_digits (d : Decimal.uint) :
  (Decimal.nb_digits (Decimal.Little.double d) <= S (Decimal.nb_digits d))%nat
  /\ (Decimal.nb_digits (Decimal.Little.succ_double d)
      <= S (Decimal.nb_digits d))%nat.
Proof.
  induction d as [|d [A B]|d [A B]|d [A B]|d [A B]|d [A B]|d [A B]|d [A B]
                  |d [A B]|d [A B]|d [A B]]; simpl; lia.
Qed.

Lemma little_uint_digits (p : positive) :
  (Decimal.nb_digits (Pos.to_little_uint p) <= Pos.size_nat p)%nat.
Proof.
  induction p as [p IH|p IH|]; simpl; [| |lia].
  - pose proof (proj2 (little_double_digits (Pos.to_little_uint p))). lia.
  - pose proof (proj1 (little_double_digits (Pos.to_little_uint p))). lia.
Qed.

(** The decimal text of a non-negative [int]: digits only, at most 32 of
    them, and the number is their value. *)
Lemma dec_nonneg (n : Z) :
  0 <= n <= INT_MAX ->
  exists d, d <> Decimal.Nil /\
            dec n = NilEmpty.string_of_uint d /\
            Z.of_N (Pos.of_uint d) = n /\
            (Decimal.nb_digits d <= 32)%nat.
Proof.
  intros R. destruct n as [|p|p]; [| |lia].
  - exists (Decimal.D0 Decimal.Nil). repeat split; [discriminate|simpl; lia].
  - exists (Pos.to_uint p).
    pose proof (DecimalPos.Unsigned.to_uint_nonnil p) as N.
    split; [exact N|]. split.
    { unfold dec. simpl. destruct (Pos.to_uint p); [contradiction|..];
        reflexivity. }
    split; [rewrite DecimalPos.Unsigned.of_to; reflexivity|].
    unfold Pos.to_uint. rewrite DecimalFacts.nb_digits_rev.
    pose proof (little_uint_digits p) as D.
    assert (S : (Pos.size_nat p <= Pos.size_nat (2 ^ 31))%nat).
    { apply Pos.size_nat_monotone. unfold INT_MAX in R. lia. }
    change (Pos.size_nat (2 ^ 31)) with 32%nat in S. lia.
Qed.

Lemma atoi_digits (s : string) :
  starts_with_digit s = true ->
  atoi s = int_wrap (Z.min (digits_value s 0) LONG_MAX).
Proof.
  destruct s as [|c s]; [discriminate|].
  destruct c as [[] [] [] [] [] [] [] []]; try discriminate; reflexivity.
Qed.

Lemma atoi_dec (n : Z) : 0 <= n <= INT_MAX -> atoi (dec n) = n.
Proof.
  intros R. destruct (dec_nonneg n R) as [d [N [E [V _]]]].
  rewrite E, (atoi_digits _ (uint_string_digit d N)), digits_value_uint, V.
  unfold int_wrap, LONG_MAX, INT_MAX in *.
  rewrite Z.min_l by lia. rewrite Z.mod_small by lia. lia.
Qed.

Lemma job_control_round_trip (n : Z) (w : world) :
  0 <= n <= INT_MAX ->
  parse (join_words ["fg"; String "%" (dec n)]) w
  = (Some (job_control_command CMD_FG n), w) /\
  parse (join_words ["bg"; String "%" (dec n)]) w
  = (Some (job_control_command CMD_BG n), w).
Proof.
  intros R. destruct (dec_nonneg n R) as [d [N [E [V D]]]].
  assert (W : is_word (String "%" (dec n)) = true).
  { rewrite E. simpl. apply uint_string_no_delim. }
  assert (S : starts_with_digit (dec n) = true).
  { rewrite E. apply uint_string_digit, N. }
  assert (L : forall name, name = "fg" \/ name = "bg" ->
                (String.length (join_words [name; String "%" (dec n)])
                 < BUFFER_SIZE)%nat).
  { intros name [-> | ->]; unfold join_words; simpl;
      rewrite E, uint_string_length; unfold BUFFER_SIZE; lia. }
  split.
  - destruct (job_control_table _ w "fg" [String "%" (dec n)]
                (L "fg" (or_introl eq_refl))
                (line_tokens_join ["fg"; String "%" (dec n)]
                   ltac:(repeat constructor; exact W))
                (or_introl eq_refl)) as [_ [_ [_ [_ T]]]].
    rewrite (T (dec n) eq_refl S), (atoi_dec n R). reflexivity.
  - destruct (job_control_table _ w "bg" [String "%" (dec n)]
                (L "bg" (or_intror eq_refl))
                (line_tokens_join ["bg"; String "%" (dec n)]
                   ltac:(repeat constructor; exact W))
                (or_intror eq_refl)) as [_ [_ [_ [_ T]]]].
    rewrite (T (dec n) eq_refl S), (atoi_dec n R). reflexivity.
Qed.

(** X6.  Printing a job id with [%d] and reading it back: for every job
    id from 0 to [INT_MAX], the lines [fg %<id>] and [bg %<id>] are
    accepted by [parse] as the job-control commands for exactly that job,
    the commands that the theorems on [fg] and [bg] are about. *)
Theorem job_control_line_round_trip (n : Z) (w : world) :
  0 <= n <= INT_MAX ->
  parse (join_words ["fg"; String "%" (dec n)]) w
  = (Some (job_control_command CMD_FG n), w) /\
  parse (join_words ["bg"; String "%" (dec n)]) w
  = (Some (job_control_command CMD_BG n), w).
Proof. exact (job_control_round_trip n w). Qed.

Lemma job_control_line_round_trip_witness :
  0 <= 2147483647 <= INT_MAX /\
  parse "fg %2147483647" (initial_world 8 Sample.os_ok 50)
  = (Some (job_control_command CMD_FG 2147483647),
     initial_world 8 Sample.os_ok 50).
Proof.
  assert (R : 0 <= 2147483647 <= INT_MAX) by (unfold INT_MAX; lia).
  split; [exact R|].
  exact (proj1 (job_control_line_round_trip 2147483647
                  (initial_world 8 Sample.os_ok 50) R)).
Defined.

(** *** Regular command lines *)

Lemma operator_false (t : string) :
  is_operator t = false ->
  String.eqb t "<" = false /\ String.eqb t ">" || String.eqb t ">>" = false.
Proof.
  unfold is_operator. intros H.
  apply orb_false_iff in H. destruct H as [H C].
  apply orb_false_iff in H. destruct H as [A B].
  rewrite A, B, C. split; reflexivity.
Qed.

Lemma process_tokens_word (t : string) (rest : list string) (hi ho : bool)
    (r : parse_result) :
  is_operator t = false ->
  process_tokens (t :: rest) hi ho r = process_tokens rest hi ho (add_word r t).
Proof.
  intros H. apply operator_false in H. destruct H as [A B].
  destruct rest as [|b l].
  - rewrite process_tokens_one, A, B. reflexivity.
  - rewrite process_tokens_two, A, B. reflexivity.
Qed.

Lemma process_plain (ws rest : list string) (hi ho : bool) (r : parse_result) :
  plain ws = true ->
  process_tokens (ws ++ rest) hi ho r
  = process_tokens rest hi ho (add_words ws r).
Proof.
  revert r. induction ws as [|t ws IH]; intros r H; [reflexivity|].
  simpl in H. apply andb_true_iff in H. destruct H as [T H].
  apply negb_true_iff in T.
  simpl app. rewrite (process_tokens_word _ _ _ _ _ T). apply IH, H.
Qed.

Lemma add_words_args (ws : list string) (path : string)
    (i o : option string) (a : Z) (av : list string) (b : Z)
    (t : command_type) (j : Z) :
  add_words ws (mkParseResult (Some path) i o a av b t j)
  = mkParseResult (Some path) i o a (av ++ ws) b t j.
Proof.
  revert av. induction ws as [|x ws IH]; intros av; simpl.
  - rewrite app_nil_r. reflexivity.
  - unfold add_word at 1. simpl. unfold with_arg. simpl.
    unfold add_words in IH. rewrite IH, <- app_assoc. reflexivity.
Qed.

Lemma add_words_command (cmd : string) (args : list string)
    (i o : option string) (a b : Z) (t : command_type) (j : Z) :
  add_words (cmd :: args) (mkParseResult None i o a [] b t j)
  = mkParseResult (Some cmd) i o a (command_name cmd :: args) b t j.
Proof.
  change (add_words (cmd :: args) (mkParseResult None i o a [] b t j))
    with (add_words args
            (mkParseResult (Some cmd) i o a [command_name cmd] b t j)).
  apply add_words_args.
Qed.

Lemma rev_last {A} (l before : list A) (x d : A) :
  rev l = x :: before -> last l d = x /\ l = rev before ++ [x].
Proof.
  intros H. assert (E : l = rev before ++ [x]).
  { rewrite <- (rev_involutive l), H. reflexivity. }
  split; [|exact E]. rewrite E. apply last_last.
Qed.

Lemma split_background_foreground (toks : list string) :
  last toks EmptyString <> "&" ->
  split_background toks = (toks, empty_result).
Proof.
  intros H. unfold split_background.
  destruct (rev toks) as [|x before] eqn:E; [reflexivity|].
  destruct (rev_last toks before x EmptyString E) as [L _].
  rewrite L in H. apply String.eqb_neq in H. rewrite H. reflexivity.
Qed.

Lemma split_background_ampersand (ws : list string) :
  split_background (ws ++ ["&"]) = (ws, with_background empty_result).
Proof.
  unfold split_background. rewrite rev_unit.
  change (String.eqb "&" "&") with true. cbv iota.
  rewrite rev_involutive. reflexivity.
Qed.

Lemma not_job_control (t : string) :
  t <> "fg" -> t <> "bg" -> String.eqb t "fg" || String.eqb t "bg" = false.
Proof.
  intros A B. apply String.eqb_neq in A, B. rewrite A, B. reflexivity.
Qed.

(** A regular foreground line goes through the loop with the fresh
    result, then through the final check. *)
Lemma parse_regular (s : string) (toks : list string) :
  regular_line s toks ->
  parse s = bind (process_tokens toks false false empty_result) check_command.
Proof.
  intros [L [T [C [N [F [B A]]]]]].
  rewrite (parse_by_words s L), T. unfold parse_words.
  destruct toks as [|token others]; [contradiction|].
  simpl hd in F, B. rewrite (not_job_control _ F B).
  rewrite firstn_all2 by exact C.
  rewrite (split_background_foreground _ A). reflexivity.
Qed.

(** The same with a last token [&]. *)
Lemma parse_background (s : string) (toks : list string) :
  (String.length s < BUFFER_SIZE)%nat ->
  line_tokens s = toks ++ ["&"] ->
  (List.length (toks ++ ["&"]) <= MAX_TOKENS - 1)%nat ->
  hd EmptyString (toks ++ ["&"]) <> "fg" ->
  hd EmptyString (toks ++ ["&"]) <> "bg" ->
  parse s = bind (process_tokens toks false false
                    (with_background empty_result)) check_command.
Proof.
  intros L T C F B.
  rewrite (parse_by_words s L), T. unfold parse_words.
  destruct (toks ++ ["&"]) as [|token others] eqn:E.
  { destruct toks; discriminate. }
  simpl hd in F, B. rewrite (not_job_control _ F B).
  rewrite firstn_all2 by exact C.
  rewrite <- E, split_background_ampersand. reflexivity.
Qed.

(** X7.  A command line without redirection operators, not starting with
    [fg] or [bg]: the first token is the command path, [argv[0]] is the
    part of it after the last slash, the other tokens are the arguments
    in order, and no file is recorded.  A last token [&] is not an
    argument: it sets the background flag.  An [&] anywhere else is an
    ordinary argument. *)
Theorem parse_plain_command (s : string) (w : world) (cmd : string)
    (args : list string) :
  (String.length s < BUFFER_SIZE)%nat ->
  cmd <> "fg" -> cmd <> "bg" ->
  plain (cmd :: args) = true ->
  (line_tokens s = cmd :: args ->
   (List.length (cmd :: args) <= MAX_TOKENS - 1)%nat ->
   last (cmd :: args) EmptyString <> "&" ->
   parse s w
   = (Some (mkParseResult (Some cmd) None None 0 (command_name cmd :: args)
                          0 CMD_REGULAR (-1)), w))
  /\
  (line_tokens s = (cmd :: args) ++ ["&"] ->
   (List.length ((cmd :: args) ++ ["&"]) <= MAX_TOKENS - 1)%nat ->
   parse s w
   = (Some (mkParseResult (Some cmd) None None 0 (command_name cmd :: args)
                          1 CMD_REGULAR (-1)), w)).
Proof.
  intros L F B P. split.
  - intros T C A.
    rewrite (parse_regular s (cmd :: args)).
    2:{ repeat split; try assumption. discriminate. }
    unfold bind.
    rewrite <- (app_nil_r (cmd :: args)), (process_plain _ _ _ _ _ P).
    unfold empty_result. rewrite add_words_command. reflexivity.
  - intros T C.
    rewrite (parse_background s (cmd :: args) L T C F B).
    unfold bind.
    rewrite <- (app_nil_r (cmd :: args)), (process_plain _ _ _ _ _ P).
    change (with_background empty_result)
      with (mkParseResult None None None 0 [] 1 CMD_REGULAR (-1)).
    rewrite add_words_command. reflexivity.
Qed.

Lemma parse_plain_command_witness :
  parse "/bin/echo a & b" (initial_world 8 Sample.os_ok 50)
  = (Some (mkParseResult (Some "/bin/echo") None None 0
                         ["echo"; "a"; "&"; "b"] 0 CMD_REGULAR (-1)),
     initial_world 8 Sample.os_ok 50)
  /\
  parse "/bin/sleep 100 &" (initial_world 8 Sample.os_ok 50)
  = (Some Sample.sleep_bg, initial_world 8 Sample.os_ok 50).
Proof.
  split.
  - destruct (parse_plain_command "/bin/echo a & b"
                (initial_world 8 Sample.os_ok 50) "/bin/echo" ["a"; "&"; "b"])
      as [A _].
    + vm_compute. lia.
    + discriminate.
    + discriminate.
    + reflexivity.
    + apply A; [reflexivity|vm_compute; lia|discriminate].
  - destruct (parse_plain_command "/bin/sleep 100 &"
                (initial_world 8 Sample.os_ok 50) "/bin/sleep" ["100"])
      as [_ A].
    + vm_compute. lia.
    + discriminate.
    + discriminate.
    + reflexivity.
    + apply A; [reflexivity|vm_compute; lia].
Defined.

Lemma process_input (target : string) (rest : list string) (ho : bool)
    (r : parse_result) :
  process_tokens ("<" :: target :: rest) false ho r
  = process_tokens rest true ho (with_input_file target r).
Proof. rewrite process_tokens_two. reflexivity. Qed.

Lemma process_output (op target : string) (rest : list string) (hi : bool)
    (r : parse_result) :
  op = ">" \/ op = ">>" ->
  process_tokens (op :: target :: rest) hi false r
  = process_tokens rest hi true
      (with_output_file target (if String.eqb op ">>" then 1 else 0) r).
Proof. intros [-> | ->]; rewrite process_tokens_two; reflexivity. Qed.



Lemma process_plain_end (ws : list string) (hi ho : bool) (r : parse_result) :
  plain ws = true ->
  process_tokens ws hi ho r = ret (Some (add_words ws r)).
Proof.
  intros P. rewrite <- (app_nil_r ws) at 1.
  rewrite (process_plain _ _ _ _ _ P). reflexivity.
Qed.

Ltac plain_end P :=
  rewrite (process_plain_end _ _ _ _ P);
  unfold with_input_file, with_output_file;
  cbn [command_path input_file output_file append_mode argv background
       cmd_type job_id];
  rewrite add_words_args; simpl; rewrite <- ?app_assoc; reflexivity.

Ltac plain_run P :=
  rewrite (process_plain _ _ _ _ _ P);
  try (unfold empty_result; rewrite add_words_command);
  try (unfold with_input_file, with_output_file;
       cbn [command_path input_file output_file append_mode argv background
            cmd_type job_id];
       rewrite add_words_args).


Ltac regular_line_now :=
  unfold regular_line;
  repeat match goal with
  | |- _ /\ _ => split
  | |- (_ < _)%nat => vm_compute; lia
  | |- (_ <= _)%nat => vm_compute; lia
  | |- _ = _ => reflexivity
  | |- _ <> _ => vm_compute; discriminate
  end.




(** *** [argv[0]] *)

Lemma after_last_slash_none (t : string) :
  after_last_slash t = None <-> strchr t slash = false.
Proof.
  induction t as [|c t IH]; [split; reflexivity|].
  change (strchr (String c t) slash)
    with (Ascii.eqb c slash || strchr t slash).
  simpl. destruct (after_last_slash t) as [u|].
  - split; [discriminate|]. intros H. apply orb_false_iff in H.
    destruct H as [_ H]. apply IH in H. discriminate.
  - rewrite (proj1 IH eq_refl), orb_false_r.
    destruct (Ascii.eqb c slash); split; congruence.
Qed.

Lemma after_last_slash_some (t u : string) :
  after_last_slash t = Some u ->
  strchr u slash = false /\
  exists dir, t = String.append dir (String slash u).
Proof.
  revert u. induction t as [|c t IH]; simpl; intros u; [discriminate|].
  destruct (after_last_slash t) as [v|] eqn:E.
  - intros [= <-]. destruct (IH v eq_refl) as [N [dir D]].
    split; [exact N|]. exists (String c dir). simpl. rewrite D. reflexivity.
  - destruct (Ascii.eqb_spec c slash) as [->|_]; [|discriminate].
    intros [= <-]. split; [apply after_last_slash_none, E|].
    exists EmptyString. reflexivity.
Qed.

(** X10.  The name stored as [argv[0]] never contains a slash; it is the
    whole token when the token has no slash, and otherwise the token is
    some directory part, a slash, and that name: the name is what follows
    the last slash (empty when the token ends with a slash). *)
Theorem command_name_is_last_component (t : string) :
  strchr (command_name t) slash = false /\
  (strchr t slash = false -> command_name t = t) /\
  (strchr t slash = true ->
   exists dir, t = String.append dir (String slash (command_name t))).
Proof.
  unfold command_name. destruct (after_last_slash t) as [u|] eqn:E.
  - destruct (after_last_slash_some t u E) as [N D].
    split; [exact N|]. split; [|intros _; exact D].
    intros H. apply after_last_slash_none in H. congruence.
  - pose proof (proj1 (after_last_slash_none t) E) as N.
    split; [exact N|]. split; [reflexivity|]. congruence.
Qed.

Lemma command_name_is_last_component_witness :
  strchr "/usr/bin/env" slash = true /\
  exists dir, "/usr/bin/env" = String.append dir (String slash "env").
Proof.
  split; [reflexivity|].
  exact (proj2 (proj2 (command_name_is_last_component "/usr/bin/env"))
           eq_refl).
Defined.

(** ** Built-ins and programs *)

Lemma is_builtin_name_cases (s : string) :
  is_builtin_name s
  = (String.eqb s "exit" || (String.eqb s "jobs" || (String.eqb s "cd"
     || (String.eqb s "ln" || (String.eqb s "rm" || false))))).
Proof. reflexivity. Qed.

Lemma handle_builtin_program (result : parse_result) (w : world)
    (path argv0 : string) (rest : list string) :
  command_path result = Some path ->
  argv result = argv0 :: rest ->
  (fst (handle_builtin result w) = Returns 0
   <-> runs_program (cmd_type result) path argv0).
Proof.
  intros P A. unfold runs_program. rewrite is_builtin_name_cases.
  destruct (handle_builtin result w) as [r w'] eqn:H. simpl.
  unfold handle_builtin in H. rewrite P, A in H.
  exec_in H; inversion H; subst; clear H;
    (split; [intros R|intros [N1 [N2 R]]]);
    try congruence; try nonzero_now;
    try (injection R as R; subst; nonzero_now);
    try (repeat split; try discriminate; auto; fail);
    try (destruct R as [R|R]; [congruence|];
         rewrite ?Heqb, ?Heqb0, ?Heqb1, ?Heqb2, ?Heqb3, ?Heqb4 in R;
         simpl in R; try discriminate).
Qed.

(** The parent's first call after [fork] is [setpgid]. *)
Lemma main_parent_first_call (result : parse_result) (pid : Z) (w : world) :
  exists more,
    calls (snd (main_parent result pid w))
    = calls w ++ SYS_setpgid pid pid :: more.
Proof.
  destruct (main_parent result pid w) as [u w'] eqn:H. simpl.
  unfold main_parent in H.
  exec_in H; finish_in H; rewrite <- ?app_assoc; simpl; eexists;
    reflexivity.
Qed.

(** [handle_builtin] ends the shell only with status 0, for [exit] without
    arguments, and has done nothing before. *)
Lemma handle_builtin_exits (result : parse_result) (w w0 : world)
    (code : Z) :
  handle_builtin result w = (Exits code, w0) ->
  code = 0 /\ w0 = w /\ is_exit_command result.
Proof.
  intros H. unfold handle_builtin in H. unfold is_exit_command.
  exec_in H; inversion H; subst; clear H.
  all: apply String.eqb_eq in Heqb0; subst.
  all: repeat split; try discriminate; eexists; split; eauto.
Qed.

(** After a built-in the loop body is over. *)
Lemma main_command_builtin (result : parse_result) (w : world) :
  fst (handle_builtin result w) <> Returns 0 ->
  snd (main_command result w) = snd (handle_builtin result w) /\
  (fst (main_command result w) = Continue
   \/ fst (main_command result w) = ShellExit 0).
Proof.
  intros N. unfold main_command. cbv beta iota delta [bind].
  destruct (handle_builtin result w) as [b w0] eqn:E. simpl in N.
  destruct b as [r|code]; simpl.
  - destruct (Z.eqb_spec r 0) as [->|_]; [congruence|]. simpl. auto.
  - apply handle_builtin_exits in E. destruct E as [-> _]. auto.
Qed.

(** X11.  [handle_builtin] answers 0, which is what makes [main] fork,
    exactly for the commands that are not [fg] or [bg] and whose path has
    a slash or whose name is none of [exit], [jobs], [cd], [ln], [rm]: a
    built-in name reached through a path ([/bin/cd], [./exit]) is run as
    a program.  For these commands [handle_builtin] changes nothing and
    the next system call of the shell is [fork]; for all others the loop
    body ends with [handle_builtin], in the world it left, without a
    fork. *)
Theorem fork_iff_not_builtin (result : parse_result) (w : world)
    (path argv0 : string) (rest : list string) :
  command_path result = Some path ->
  argv result = argv0 :: rest ->
  (fst (handle_builtin result w) = Returns 0
   <-> runs_program (cmd_type result) path argv0) /\
  (runs_program (cmd_type result) path argv0 ->
   handle_builtin result w = (Returns 0, w) /\
   exists more,
     calls (snd (main_command result w)) = calls w ++ SYS_fork :: more) /\
  (~ runs_program (cmd_type result) path argv0 ->
   snd (main_command result w) = snd (handle_builtin result w) /\
   (fst (main_command result w) = Continue
    \/ fst (main_command result w) = ShellExit 0)).
Proof.
  intros P A.
  pose proof (handle_builtin_program result w path argv0 rest P A) as I.
  split; [exact I|]. split.
  - intros R. apply I in R.
    destruct (handle_builtin result w) as [b w0] eqn:E. simpl in R. subst b.
    pose proof (handle_builtin_zero _ _ _ E). subst w0.
    split; [reflexivity|].
    destruct (main_command result w) as [c w'] eqn:H.
    unfold main_command in H. cbv beta iota delta [bind] in H.
    rewrite E in H. simpl in H.
    exec_in H; finish_in H; try (eexists; reflexivity).
    pose proof (main_parent_first_call result
                  (ans_ret (oracle w (clock w) SYS_fork))
                  (tick SYS_fork w)) as [more C].
    rewrite Heqp in C. simpl in C. rewrite <- app_assoc in C. simpl in C.
    eexists. exact C.
  - intros N. apply main_command_builtin. intros R. apply N, I, R.
Qed.

Lemma fork_iff_not_builtin_witness :
  runs_program CMD_REGULAR "/bin/cd" "cd" /\
  handle_builtin
    (mkParseResult (Some "/bin/cd") None None 0 ["cd"; "/tmp"] 0
                   CMD_REGULAR (-1))
    (initial_world 8 Sample.os_ok 50)
  = (Returns 0, initial_world 8 Sample.os_ok 50).
Proof.
  assert (R : runs_program CMD_REGULAR "/bin/cd" "cd").
  { split; [discriminate|]. split; [discriminate|]. left. reflexivity. }
  split; [exact R|].
  exact (proj1 (proj1 (proj2 (fork_iff_not_builtin
           (mkParseResult (Some "/bin/cd") None None 0 ["cd"; "/tmp"] 0
                          CMD_REGULAR (-1))
           (initial_world 8 Sample.os_ok 50) "/bin/cd" "cd" ["/tmp"]
           eq_refl eq_refl)) R)).
Defined.




(** X13.  The file-system built-ins [cd], [ln] and [rm] (not reached
    through a path): the argument count is checked before anything is
    done, so with a wrong count no system call is made and one error line
    goes to standard error; with the right count exactly one system call
    is made, [chdir], [link] or [unlink] on the arguments as typed, and its
    failure is reported by [perror] under the command's name, its success
    by nothing.  In every case the loop goes on without a fork and the job
    table, the counter, the foreground pid and the terminal are left
    alone. *)
Theorem filesystem_builtins (result : parse_result) (w : world)
    (path name : string) (args : list string) :
  command_path result = Some path ->
  strchr path slash = false ->
  cmd_type result = CMD_REGULAR ->
  argv result = name :: args ->
  In name ["cd"; "ln"; "rm"] ->
  fst (main_command result w) = Continue /\
  snd (main_command result w) = snd (handle_builtin result w) /\
  job_list (snd (main_command result w)) = job_list w /\
  next_jid (snd (main_command result w)) = next_jid w /\
  fg_pid (snd (main_command result w)) = fg_pid w /\
  term_owner (snd (main_command result w)) = term_owner w /\
  match builtin_call name args with
  | None =>
      fst (handle_builtin result w) = Returns (-1) /\
      calls (snd (main_command result w)) = calls w /\
      exists line, output (snd (main_command result w))
                   = output w ++ [Stderr line]
  | Some c =>
      calls (snd (main_command result w)) = calls w ++ [c] /\
      if ans_ret (oracle w (clock w) c) <? 0
      then fst (handle_builtin result w) = Returns (-1) /\
           output (snd (main_command result w)) = output w ++ [Perror name]
      else fst (handle_builtin result w) = Returns 1 /\
           output (snd (main_command result w)) = output w
  end.
Proof.
  intros P S T A N.
  unfold main_command, handle_builtin. cbv beta iota delta [bind].
  rewrite P, A, S, T.
  simpl in N. destruct N as [<-|[<-|[<-|[]]]]; simpl.
  - unfold builtin_cd. destruct args as [|a [|b [|c args]]]; simpl;
      cbv beta iota delta [bind sys ret perror fprintf_stderr modify];
      simpl; try (repeat split; eexists; reflexivity).
    destruct (ans_ret (oracle w (clock w) (SYS_chdir a)) <? 0); simpl;
      repeat split.
  - unfold builtin_ln. destruct args as [|a [|b [|c args]]]; simpl;
      cbv beta iota delta [bind sys ret perror fprintf_stderr modify];
      simpl; try (repeat split; eexists; reflexivity).
    destruct (ans_ret (oracle w (clock w) (SYS_link a b)) <? 0); simpl;
      repeat split.
  - unfold builtin_rm. destruct args as [|a [|b [|c args]]]; simpl;
      cbv beta iota delta [bind sys ret perror fprintf_stderr modify];
      simpl; try (repeat split; eexists; reflexivity).
    destruct (ans_ret (oracle w (clock w) (SYS_unlink a)) <? 0); simpl;
      repeat split.
Qed.

Lemma filesystem_builtins_witness :
  calls (snd (main_command
                (mkParseResult (Some "ln") None None 0 ["ln"; "a"; "b"] 0
                               CMD_REGULAR (-1))
                (initial_world 8 Sample.os_ok 50)))
  = [SYS_link "a" "b"] /\
  calls (snd (main_command
                (mkParseResult (Some "rm") None None 0 ["rm"; "a"; "b"] 0
                               CMD_REGULAR (-1))
                (initial_world 8 Sample.os_ok 50)))
  = [].
Proof.
  split.
  - destruct (filesystem_builtins
         (mkParseResult (Some "ln") None None 0 ["ln"; "a"; "b"] 0
                        CMD_REGULAR (-1))
         (initial_world 8 Sample.os_ok 50) "ln" "ln" ["a"; "b"]
         eq_refl eq_refl eq_refl eq_refl
         (or_intror (or_introl eq_refl))) as [_ [_ [_ [_ [_ [_ H]]]]]].
    exact (proj1 H).
  - destruct (filesystem_builtins
         (mkParseResult (Some "rm") None None 0 ["rm"; "a"; "b"] 0
                        CMD_REGULAR (-1))
         (initial_world 8 Sample.os_ok 50) "rm" "rm" ["a"; "b"]
         eq_refl eq_refl eq_refl eq_refl
         (or_intror (or_intror (or_introl eq_refl))))
      as [_ [_ [_ [_ [_ [_ H]]]]]].
    exact (proj1 (proj2 H)).
Defined.
(** ** Launches *)

Lemma background_launch_steps (result : parse_result) (w : world) (pid : Z) :
  fst (handle_builtin result w) = Returns 0 ->
  ans_ret (forked w) = pid ->
  0 < pid ->
  background result <> 0 ->
  fst (main_command result w) = Continue /\
  calls (snd (main_command result w))
  = calls w ++ [SYS_fork; SYS_setpgid pid pid] /\
  term_owner (snd (main_command result w)) = term_owner w /\
  fg_pid (snd (main_command result w)) = fg_pid w /\
  foreground_job_id (snd (main_command result w)) = foreground_job_id w /\
  ((entries (job_list (snd (main_command result w)))
    = entries (job_list w)
      ++ [mkJob (next_jid w) pid RUNNING (path_of result)] /\
    output (snd (main_command result w))
    = output w ++ setpgid_report (parent_setpgid w pid)
      ++ [Stdout (fmt ["["; dec (next_jid w); "] ("; dec pid; ")"; LF])])
   \/
   (job_list (snd (main_command result w)) = job_list w /\
    output (snd (main_command result w))
    = output w ++ setpgid_report (parent_setpgid w pid)
      ++ [Stderr msg_add_failed])).
Proof.
  intros Hb Hf Hp Hbg.
  rewrite (main_command_parent result w pid Hb Hf Hp). simpl.
  destruct (main_parent result pid (tick SYS_fork w)) as [u w'] eqn:H.
  simpl. unfold main_parent in H. apply Z.eqb_neq in Hbg. rewrite Hbg in H.
  unfold setpgid_report, parent_setpgid. simpl.
  exec_in H; resolve_add; try discriminate; finish_in H;
    rewrite <- ?app_assoc; simpl;
    (split; [reflexivity|]); (split; [reflexivity|]);
    (split; [reflexivity|]); (split; [reflexivity|]);
    (split; [reflexivity|]);
    first [left; split; reflexivity | right; split; reflexivity].
Qed.

(** X14.  A background launch (a command that is not a built-in, forked as
    [pid], with [&]) makes exactly two system calls, [fork] and
    [setpgid(pid, pid)]: the shell does not wait for the child and does
    not touch the terminal or the foreground pid.  A failure of [setpgid]
    is reported by [perror] unless it is [EACCES], and in either case the
    launch goes on: the job is entered as RUNNING under the next job id
    and the command path, and [[<job_id>] (<pid>)] is printed; only a
    refusal of the table leaves it as it was. *)
Theorem background_launch (result : parse_result) (w : world) (pid : Z) :
  fst (handle_builtin result w) = Returns 0 ->
  ans_ret (forked w) = pid ->
  0 < pid ->
  background result <> 0 ->
  fst (main_command result w) = Continue /\
  calls (snd (main_command result w))
  = calls w ++ [SYS_fork; SYS_setpgid pid pid] /\
  term_owner (snd (main_command result w)) = term_owner w /\
  fg_pid (snd (main_command result w)) = fg_pid w /\
  foreground_job_id (snd (main_command result w)) = foreground_job_id w /\
  ((entries (job_list (snd (main_command result w)))
    = entries (job_list w)
      ++ [mkJob (next_jid w) pid RUNNING (path_of result)] /\
    output (snd (main_command result w))
    = output w ++ setpgid_report (parent_setpgid w pid)
      ++ [Stdout (fmt ["["; dec (next_jid w); "] ("; dec pid; ")"; LF])])
   \/
   (job_list (snd (main_command result w)) = job_list w /\
    output (snd (main_command result w))
    = output w ++ setpgid_report (parent_setpgid w pid)
      ++ [Stderr msg_add_failed])).
Proof. exact (background_launch_steps result w pid). Qed.

Lemma background_launch_witness :
  calls (snd (main_command Sample.sleep_bg
                (initial_world 8 (Sample.os_child (W_EXITED 0)) 50)))
  = [SYS_fork; SYS_setpgid 100 100] /\
  term_owner (snd (main_command Sample.sleep_bg
                     (initial_world 8 (Sample.os_child (W_EXITED 0)) 50)))
  = 50.
Proof.
  destruct (background_launch Sample.sleep_bg
              (initial_world 8 (Sample.os_child (W_EXITED 0)) 50) 100
              eq_refl eq_refl eq_refl) as [_ [C [T _]]].
  - discriminate.
  - split; [exact C|exact T].
Defined.

(** X15.  A foreground launch (a command that is not a built-in, forked as
    [pid], without [&]) always makes the same five system calls in the
    same order, whichever of them fail: [fork], [setpgid(pid, pid)],
    [tcsetpgrp] to the child, the blocking [waitpid] for the child, and
    [tcsetpgrp] back to the shell's group; no failure cuts the sequence
    short.  Afterwards no foreground pid is recorded.  Unless the wait
    reports a stop, the job table and the counter are as before; the exit
    status of the command is never printed; a death by signal prints
    [(<pid>) terminated by signal <n>]; a stop that the table accepts
    enters the job as STOPPED under the command path and prints
    [[<job_id>] (<pid>) suspended by signal <n>]. *)
Theorem foreground_launch (result : parse_result) (w : world) (pid : Z) :
  fst (handle_builtin result w) = Returns 0 ->
  ans_ret (forked w) = pid ->
  0 < pid ->
  background result = 0 ->
  fst (main_command result w) = Continue /\
  calls (snd (main_command result w))
  = calls w ++ [SYS_fork; SYS_setpgid pid pid; SYS_tcsetpgrp pid;
                SYS_waitpid pid WUNTRACED; SYS_tcsetpgrp (shell_pgid w)] /\
  fg_pid (snd (main_command result w)) = -1 /\
  foreground_job_id (snd (main_command result w)) = foreground_job_id w /\
  (ans_ret (foreground_wait w pid) < 0
   \/ WIFSTOPPED (ans_status (foreground_wait w pid)) = false ->
   job_list (snd (main_command result w)) = job_list w /\
   next_jid (snd (main_command result w)) = next_jid w) /\
  (ans_ret (foreground_wait w pid) < 0
   \/ (WIFSTOPPED (ans_status (foreground_wait w pid)) = false /\
       WIFSIGNALED (ans_status (foreground_wait w pid)) = false) ->
   stdout_messages (output (snd (main_command result w)))
   = stdout_messages (output w)) /\
  (forall sig,
     0 <= ans_ret (foreground_wait w pid) ->
     ans_status (foreground_wait w pid) = W_SIGNALED sig ->
     stdout_messages (output (snd (main_command result w)))
     = stdout_messages (output w)
       ++ [fmt ["("; dec pid; ") terminated by signal "; dec sig; LF]]) /\
  (forall sig jl',
     0 <= ans_ret (foreground_wait w pid) ->
     ans_status (foreground_wait w pid) = W_STOPPED sig ->
     JobTable.add (job_list w) (next_jid w) pid STOPPED (path_of result)
     = Some jl' ->
     entries (job_list (snd (main_command result w)))
     = entries (job_list w)
       ++ [mkJob (next_jid w) pid STOPPED (path_of result)] /\
     stdout_messages (output (snd (main_command result w)))
     = stdout_messages (output w)
       ++ [fmt ["["; dec (next_jid w); "] ("; dec pid;
                ") suspended by signal "; dec sig; LF]]).
Proof.
  intros Hb Hf Hp Hbg.
  rewrite (main_command_parent result w pid Hb Hf Hp). simpl.
  destruct (main_parent result pid (tick SYS_fork w)) as [u w'] eqn:H.
  simpl. unfold main_parent in H. rewrite Hbg in H.
  unfold foreground_wait. simpl.
  exec_in H; try resolve_add; try discriminate; finish_in H;
    rewrite <- ?app_assoc; simpl;
    (split; [reflexivity|]); (split; [reflexivity|]);
    (split; [reflexivity|]); (split; [reflexivity|]).
  all: repeat match goal with |- _ /\ _ => split end; intros.
  all: repeat match goal with
       | X : _ \/ _ |- _ => destruct X
       | X : _ /\ _ |- _ => destruct X
       end.
  all: repeat match goal with
       | X : ans_status ?a = _, Y : context [ans_status ?a] |- _ =>
           rewrite X in Y; simpl in Y
       | X : ans_status ?a = _ |- context [ans_status ?a] =>
           rewrite X; simpl
       end.
  all: try lia; try discriminate; try congruence.
  all: repeat match goal with |- _ /\ _ => split end.
  all: try reflexivity; try messages_now.
Qed.

Lemma foreground_launch_witness :
  calls (snd (main_command Sample.sleep_fg
                (initial_world 8 (Sample.os_child (W_SIGNALED 9)) 50)))
  = [SYS_fork; SYS_setpgid 100 100; SYS_tcsetpgrp 100;
     SYS_waitpid 100 WUNTRACED; SYS_tcsetpgrp 50] /\
  stdout_messages
    (output (snd (main_command Sample.sleep_fg
                    (initial_world 8 (Sample.os_child (W_SIGNALED 9)) 50))))
  = [String.append "(100) terminated by signal 9" LF].
Proof.
  destruct (foreground_launch Sample.sleep_fg
              (initial_world 8 (Sample.os_child (W_SIGNALED 9)) 50) 100
              eq_refl eq_refl eq_refl eq_refl)
    as [_ [C [_ [_ [_ [_ [S _]]]]]]].
  split; [exact C|].
  apply (S 9); [discriminate|reflexivity].
Defined.
(** ** [fg %N] for a job that is there *)

(** X16.  [fg %N] for a job of the table with a positive pid, step by
    step.  The terminal is granted first and [SIGCONT] is sent only if the
    grant succeeded; the shell blocks in [waitpid] only if both succeeded.
    If the job stops again it stays in the table as STOPPED and
    [[<N>] (<pid>) suspended by signal <n>] is printed; if it exits the
    job is removed and nothing is printed; if it is killed the job is
    removed and [(<pid>) terminated by signal <n>] is printed.  After the
    wait returned, no foreground pid or job id is recorded, and the result
    is 1 exactly when the terminal could be taken back. *)
Theorem fg_outcomes (n : Z) (w : world) (j : job_element) :
  JobTable.find_by_job_id (job_list w) n = Some j ->
  0 < j_pid j ->
  0 <= shell_pgid w ->
  (ans_ret (fg_grant w (j_pid j)) < 0 ->
   fst (handle_builtin (job_control_command CMD_FG n) w) = Returns (-1) /\
   calls (snd (handle_builtin (job_control_command CMD_FG n) w))
   = calls w ++ [SYS_tcsetpgrp (j_pid j); SYS_tcsetpgrp (shell_pgid w)] /\
   fg_pid (snd (handle_builtin (job_control_command CMD_FG n) w))
   = fg_pid w)
  /\
  (0 <= ans_ret (fg_grant w (j_pid j)) ->
   ans_ret (fg_signal w (j_pid j)) < 0 ->
   fst (handle_builtin (job_control_command CMD_FG n) w) = Returns (-1) /\
   calls (snd (handle_builtin (job_control_command CMD_FG n) w))
   = calls w ++ [SYS_tcsetpgrp (j_pid j); SYS_kill (- j_pid j) SIGCONT;
                 SYS_tcsetpgrp (shell_pgid w)] /\
   fg_pid (snd (handle_builtin (job_control_command CMD_FG n) w))
   = fg_pid w)
  /\
  (0 <= ans_ret (fg_grant w (j_pid j)) ->
   0 <= ans_ret (fg_signal w (j_pid j)) ->
   calls (snd (handle_builtin (job_control_command CMD_FG n) w))
   = calls w ++ [SYS_tcsetpgrp (j_pid j); SYS_kill (- j_pid j) SIGCONT;
                 SYS_waitpid (j_pid j) WUNTRACED;
                 SYS_tcsetpgrp (shell_pgid w)] /\
   (0 <= ans_ret (fg_wait w (j_pid j)) ->
    fg_pid (snd (handle_builtin (job_control_command CMD_FG n) w)) = -1 /\
    foreground_job_id
      (snd (handle_builtin (job_control_command CMD_FG n) w)) = -1 /\
    (fst (handle_builtin (job_control_command CMD_FG n) w) = Returns 1
     <-> last_call_succeeded
           (snd (handle_builtin (job_control_command CMD_FG n) w))) /\
    match ans_status (fg_wait w (j_pid j)) with
    | W_STOPPED sig =>
        entries (job_list
                   (snd (handle_builtin (job_control_command CMD_FG n) w)))
        = JobTable.mark (j_pid j) STOPPED (entries (job_list w)) /\
        stdout_messages
          (output (snd (handle_builtin (job_control_command CMD_FG n) w)))
        = stdout_messages (output w)
          ++ [fmt ["["; dec n; "] ("; dec (j_pid j);
                   ") suspended by signal "; dec sig; LF]]
    | W_SIGNALED sig =>
        entries (job_list
                   (snd (handle_builtin (job_control_command CMD_FG n) w)))
        = without_jid n
            (JobTable.mark (j_pid j) RUNNING (entries (job_list w))) /\
        stdout_messages
          (output (snd (handle_builtin (job_control_command CMD_FG n) w)))
        = stdout_messages (output w)
          ++ [fmt ["("; dec (j_pid j); ") terminated by signal ";
                   dec sig; LF]]
    | _ =>
        entries (job_list
                   (snd (handle_builtin (job_control_command CMD_FG n) w)))
        = without_jid n
            (JobTable.mark (j_pid j) RUNNING (entries (job_list w))) /\
        stdout_messages
          (output (snd (handle_builtin (job_control_command CMD_FG n) w)))
        = stdout_messages (output w)
    end)).
Proof.
  intros F P Hpg.
  assert (G : get_job_pid (job_list w) n = j_pid j).
  { unfold get_job_pid. rewrite F. reflexivity. }
  pose proof (get_job_pid_tracked (job_list w) n) as T.
  rewrite G in T. specialize (T ltac:(lia)).
  destruct (handle_builtin _ w) as [r w'] eqn:H. simpl.
  unfold handle_builtin in H. simpl in H.
  unfold fg_grant, fg_signal, fg_wait. simpl.
  exec_in H; subst; finish_in H; apply get_job_info_cases in Heqp;
    rewrite G in Heqp;
    [|destruct Heqp as [[_ [_ E]]|[E _]]; [lia|discriminate]].
  destruct Heqp as [[E _]|[E [_ ->]]]; [discriminate|].
  injection E as -> ->.
  unfold builtin_fg, give_terminal_to, send_signal_to_job, wait_for_job,
    take_terminal_control in Heqp1.
  exec_in Heqp1; finish_in Heqp1; try lia.
  all: repeat match goal with
       | X : update_job_pid _ _ _ = (_, _) |- _ =>
           apply update_job_pid_cases in X; simpl in X;
           rewrite ?mark_has_pid, ?T in X;
           destruct X as [[_ [_ X]]|[_ [-> _]]]; [discriminate|]
       | X : remove_job_jid ?jl ?i = (_, ?jl') |- _ =>
           let R := fresh "R" in
           pose proof (remove_job_jid_entries jl i) as R;
           rewrite X in R; simpl in R; subst jl'; clear X
       end; simpl.
  all: rewrite <- ?app_assoc; simpl.
  all: repeat match goal with
       | |- _ /\ _ => split
       | |- _ <-> _ => unfold last_call_succeeded; simpl;
                       rewrite ?rev_app_distr; simpl; split
       | |- _ -> _ => intro
       end.
  all: try lia; try reflexivity; try discriminate.
  all: try (exfalso; lia).
  all: try (f_equal; lia).
  all: destruct (ans_status _) eqn:St; simpl in *; try discriminate;
       unfold without_jid; rewrite ?mark_mark;
       (split; [reflexivity|messages_now]).
Qed.

Lemma fg_outcomes_witness :
  JobTable.find_by_job_id (job_list (Sample.one_job STOPPED Sample.os_stopped))
                          1
  = Some (mkJob 1 100 STOPPED "/bin/sleep") /\
  calls (snd (handle_builtin (job_control_command CMD_FG 1)
                (Sample.one_job STOPPED Sample.os_stopped)))
  = [SYS_tcsetpgrp 100; SYS_kill (-100) SIGCONT; SYS_waitpid 100 WUNTRACED;
     SYS_tcsetpgrp 50] /\
  entries (job_list (snd (handle_builtin (job_control_command CMD_FG 1)
                            (Sample.one_job STOPPED Sample.os_stopped))))
  = [mkJob 1 100 STOPPED "/bin/sleep"] /\
  stdout_messages
    (output (snd (handle_builtin (job_control_command CMD_FG 1)
                    (Sample.one_job STOPPED Sample.os_stopped))))
  = [String.append "[1] (100) suspended by signal 20" LF].
Proof.
  split; [reflexivity|].
  destruct (fg_outcomes 1 (Sample.one_job STOPPED Sample.os_stopped)
              (mkJob 1 100 STOPPED "/bin/sleep") eq_refl)
    as [_ [_ K]]; [simpl; lia|simpl; lia|].
  destruct K as [C K]; [simpl; lia|simpl; lia|].
  split; [exact C|].
  destruct K as [_ [_ [_ [E O]]]]; [simpl; lia|].
  split; [exact E|exact O].
Defined.

(** ** [bg %N] for a job that is there *)

(** X25.  [bg %N] for a job of the table with a positive pid always makes
    exactly one system call, [kill] of [SIGCONT] to the process group of
    the job, whatever state the table recorded for the job; it never
    waits and never touches the terminal or the foreground pid, and it
    never writes to standard output.  If the signal was sent the result
    is 1 and nothing is written; if not, the result is -1 after
    [perror("kill")].  In both cases the table then records the job as
    RUNNING and holds the same jobs. *)
Theorem bg_outcomes (n : Z) (w : world) (j : job_element) :
  JobTable.find_by_job_id (job_list w) n = Some j ->
  0 < j_pid j ->
  calls (snd (handle_builtin (job_control_command CMD_BG n) w))
  = calls w ++ [SYS_kill (- j_pid j) SIGCONT] /\
  entries (job_list (snd (handle_builtin (job_control_command CMD_BG n) w)))
  = JobTable.mark (j_pid j) RUNNING (entries (job_list w)) /\
  term_owner (snd (handle_builtin (job_control_command CMD_BG n) w))
  = term_owner w /\
  fg_pid (snd (handle_builtin (job_control_command CMD_BG n) w)) = fg_pid w /\
  next_jid (snd (handle_builtin (job_control_command CMD_BG n) w))
  = next_jid w /\
  (0 <= ans_ret (oracle w (clock w) (SYS_kill (- j_pid j) SIGCONT)) ->
   fst (handle_builtin (job_control_command CMD_BG n) w) = Returns 1 /\
   output (snd (handle_builtin (job_control_command CMD_BG n) w))
   = output w) /\
  (ans_ret (oracle w (clock w) (SYS_kill (- j_pid j) SIGCONT)) < 0 ->
   fst (handle_builtin (job_control_command CMD_BG n) w) = Returns (-1) /\
   output (snd (handle_builtin (job_control_command CMD_BG n) w))
   = output w ++ [Perror "kill"]).
Proof.
  intros F P.
  assert (G : get_job_pid (job_list w) n = j_pid j).
  { unfold get_job_pid. rewrite F. reflexivity. }
  pose proof (get_job_pid_tracked (job_list w) n) as T.
  rewrite G in T. specialize (T ltac:(lia)).
  destruct (handle_builtin _ w) as [r w'] eqn:H. simpl.
  unfold handle_builtin in H. simpl in H.
  exec_in H; subst; finish_in H; apply get_job_info_cases in Heqp;
    rewrite G in Heqp;
    [|destruct Heqp as [[_ [_ E]]|[E _]]; [lia|discriminate]].
  destruct Heqp as [[E _]|[E [_ ->]]]; [discriminate|].
  injection E as -> ->.
  unfold builtin_bg, send_signal_to_job in Heqp1.
  exec_in Heqp1; finish_in Heqp1; try lia.
  all: repeat match goal with
       | X : update_job_pid _ _ _ = (_, _) |- _ =>
           apply update_job_pid_cases in X; simpl in X;
           rewrite ?mark_has_pid, ?T in X;
           destruct X as [[_ [_ X]]|[_ [-> _]]]; [discriminate|]
       end; simpl; rewrite ?mark_mark.
  all: repeat match goal with
       | |- _ /\ _ => split
       | |- _ -> _ => intro
       end; try reflexivity; try lia.
Qed.

Lemma bg_outcomes_witness :
  calls (snd (handle_builtin (job_control_command CMD_BG 1)
                (Sample.one_job RUNNING Sample.os_kill_fails)))
  = [SYS_kill (-100) SIGCONT] /\
  output (snd (handle_builtin (job_control_command CMD_BG 1)
                 (Sample.one_job RUNNING Sample.os_kill_fails)))
  = [Perror "kill"].
Proof.
  destruct (bg_outcomes 1 (Sample.one_job RUNNING Sample.os_kill_fails)
              (mkJob 1 100 RUNNING "/bin/sleep") eq_refl)
    as [C [_ [_ [_ [_ [_ K]]]]]]; [simpl; lia|].
  split; [exact C|]. apply K. simpl. lia.
Defined.
(** ** The system calls of the shell *)

Lemma has_pid_in (l : list job_element) (p : Z) :
  JobTable.has_pid l p = true -> In p (map j_pid l).
Proof.
  unfold JobTable.has_pid. intros H. apply existsb_exists in H.
  destruct H as [j [I E]]. apply Z.eqb_eq in E. subst p.
  apply in_map, I.
Qed.

Ltac calls_now :=
  first [ exists []; split; [rewrite app_nil_r; reflexivity|constructor]
        | eexists; split;
          [rewrite <- ?app_assoc; simpl; reflexivity|];
          repeat (apply Forall_cons; [simpl|]); try apply Forall_nil;
          rewrite ?Z.opp_involutive;
          repeat split; try lia; try assumption; try congruence;
          try (left; lia); try (right; congruence) ].

Lemma builtin_fg_calls (result : parse_result) (pid : Z) (w w0 : world) :
  In pid (pids w0) ->
  shell_pgid w = shell_pgid w0 ->
  shell_pgid (snd (builtin_fg result pid w)) = shell_pgid w /\
  exists extra,
    calls (snd (builtin_fg result pid w)) = calls w ++ extra /\
    Forall (step_call_ok w0) extra.
Proof.
  intros I Hpg. destruct (builtin_fg result pid w) as [r w'] eqn:H. simpl.
  unfold builtin_fg, give_terminal_to, send_signal_to_job, wait_for_job,
    take_terminal_control in H.
  exec_in H; finish_in H; (split; [reflexivity|]); calls_now.
Qed.

Lemma builtin_bg_calls (pid : Z) (s : process_state_t) (w w0 : world) :
  In pid (pids w0) ->
  shell_pgid w = shell_pgid w0 ->
  shell_pgid (snd (builtin_bg pid s w)) = shell_pgid w /\
  exists extra,
    calls (snd (builtin_bg pid s w)) = calls w ++ extra /\
    Forall (step_call_ok w0) extra.
Proof.
  intros I Hpg. destruct (builtin_bg pid s w) as [r w'] eqn:H. simpl.
  unfold builtin_bg, send_signal_to_job in H.
  exec_in H; finish_in H; (split; [reflexivity|]); calls_now.
Qed.

Lemma handle_builtin_calls (result : parse_result) (w : world) :
  shell_pgid (snd (handle_builtin result w)) = shell_pgid w /\
  exists extra,
    calls (snd (handle_builtin result w)) = calls w ++ extra /\
    Forall (step_call_ok w) extra.
Proof.
  destruct (handle_builtin result w) as [r w'] eqn:H. simpl.
  unfold handle_builtin, builtin_cd, builtin_ln, builtin_rm in H.
  exec_in H; finish_in H; try (split; [reflexivity|calls_now]).
  all: apply get_job_info_cases in Heqp.
  all: destruct Heqp as [[E [-> _]]|[E [N ->]]]; try discriminate.
  all: try (split; [reflexivity|calls_now]).
  all: injection E as -> ->.
  all: pose proof (has_pid_in _ _ (get_job_pid_tracked _ _ N)) as I.
  all: fold (pids w) in I.
  all: match goal with
       | X : builtin_fg ?r ?p ?w0 = (_, _) |- _ =>
           pose proof (builtin_fg_calls r p w0 w I eq_refl) as C;
           rewrite X in C; exact C
       | X : builtin_bg ?p ?s ?w0 = (_, _) |- _ =>
           pose proof (builtin_bg_calls p s w0 w I eq_refl) as C;
           rewrite X in C; exact C
       end.
Qed.

Lemma main_parent_calls (result : parse_result) (pid : Z) (w w0 : world) :
  0 < pid ->
  shell_pgid w = shell_pgid w0 ->
  shell_pgid (snd (main_parent result pid w)) = shell_pgid w /\
  exists extra,
    calls (snd (main_parent result pid w)) = calls w ++ extra /\
    Forall (step_call_ok w0) extra.
Proof.
  intros P Hpg. destruct (main_parent result pid w) as [u w'] eqn:H. simpl.
  unfold main_parent in H.
  exec_in H; finish_in H; (split; [reflexivity|]); calls_now.
Qed.

(** The body of the reaper's loop makes no system call. *)
Lemma reap_body_calls (pid : Z) (status : wstatus) (reaped : Z) (w : world) :
  calls (snd (reap_body pid status reaped w)) = calls w /\
  shell_pgid (snd (reap_body pid status reaped w)) = shell_pgid w /\
  term_owner (snd (reap_body pid status reaped w)) = term_owner w /\
  fg_pid (snd (reap_body pid status reaped w)) = fg_pid w /\
  foreground_job_id (snd (reap_body pid status reaped w))
  = foreground_job_id w.
Proof.
  destruct (reap_body pid status reaped w) as [r w'] eqn:H. simpl.
  unfold reap_body in H.
  exec_in H; finish_in H; repeat split; reflexivity.
Qed.

Lemma reap_turn_calls (reaped : Z) (w : world) :
  calls (snd (reap_turn reaped w)) = calls w ++ [reaper_poll] /\
  shell_pgid (snd (reap_turn reaped w)) = shell_pgid w /\
  term_owner (snd (reap_turn reaped w)) = term_owner w /\
  fg_pid (snd (reap_turn reaped w)) = fg_pid w /\
  foreground_job_id (snd (reap_turn reaped w)) = foreground_job_id w.
Proof.
  destruct (reap_turn reaped w) as [r w'] eqn:H. simpl.
  unfold reap_turn in H. fold reaper_poll in H.
  exec_in H; finish_in H; try (repeat split; reflexivity).
  pose proof (reap_body_calls (ans_ret (oracle w (clock w) reaper_poll))
                (ans_status (oracle w (clock w) reaper_poll)) reaped
                (tick reaper_poll w)) as C.
  rewrite Heqp in C. exact C.
Qed.

Lemma main_command_calls (result : parse_result) (w : world) :
  shell_pgid (snd (main_command result w)) = shell_pgid w /\
  exists extra,
    calls (snd (main_command result w)) = calls w ++ extra /\
    Forall (step_call_ok w) extra.
Proof.
  destruct (main_command result w) as [c w'] eqn:H. simpl.
  pose proof (handle_builtin_calls result w) as B.
  unfold main_command in H.
  exec_in H; finish_in H; try exact B.
  all: assert (r = 0) by lia; subst r.
  all: apply handle_builtin_zero in Heqp; subst w0.
  1, 2: split; [reflexivity|calls_now].
  pose proof (main_parent_calls result (ans_ret (oracle w (clock w) SYS_fork))
                (tick SYS_fork w) w ltac:(lia) eq_refl) as C.
  rewrite Heqp0 in C. simpl in C. destruct C as [C1 [extra [C2 C3]]].
  split; [exact C1|]. exists (SYS_fork :: extra). split.
  - rewrite C2, <- app_assoc. reflexivity.
  - apply Forall_cons; [exact I|exact C3].
Qed.

Lemma perform_calls (a : action) (w : world) :
  shell_pgid (snd (perform a w)) = shell_pgid w /\
  exists extra,
    calls (snd (perform a w)) = calls w ++ extra /\
    Forall (step_call_ok w) extra.
Proof.
  destruct a as [|result]; simpl.
  - unfold bind, ret. pose proof (reap_turn_calls 0 w) as [C [S _]].
    destruct (reap_turn 0 w) as [t w']. simpl in *.
    split; [exact S|]. exists [reaper_poll]. split; [exact C|].
    apply Forall_cons; [reflexivity|apply Forall_nil].
  - apply main_command_calls.
Qed.

Lemma step_call_session (w : world) (c : syscall) :
  step_call_ok w c -> shell_call_ok (shell_pgid w) c.
Proof.
  destruct c as [g|t s|p o| |p g|path|src dst|path]; simpl; try tauto.
Qed.

Lemma session_calls (l : list action) (pgid : Z) (w : world) :
  shell_pgid w = pgid ->
  Forall (shell_call_ok pgid) (calls w) ->
  Forall (shell_call_ok pgid) (calls (run l w)).
Proof.
  revert w. induction l as [|a l IH]; intros w Hpg F; simpl; [exact F|].
  pose proof (perform_calls a w) as [S [extra [C O]]].
  destruct (perform a w) as [ctl w'] eqn:E. simpl in S, C.
  assert (F' : Forall (shell_call_ok pgid) (calls w')).
  { rewrite C. apply Forall_app. split; [exact F|].
    rewrite <- Hpg. revert O. apply Forall_impl. apply step_call_session. }
  destruct ctl; [apply IH; [congruence|exact F']|exact F'|exact F'].
Qed.

(** X17.  What the shell asks of the operating system, in one step and
    over a whole session.  In one step (a turn of the reaper or the loop
    body for one command) every new system call obeys: a signal is
    [SIGCONT] and goes to the process group of a pid that was in the table
    when the step began; a blocking wait is for one positive pid; a
    non-blocking wait is for any child; [setpgid] puts a positive pid in
    its own group; the terminal is given to a positive process group or
    to the shell's own.  Hence in a session from startup the shell never
    sends any signal but [SIGCONT], never calls [kill] with a target that
    is positive (a single process) or zero (the caller's own group), and
    never blocks waiting for an arbitrary child. *)
Theorem shell_call_discipline (cap : nat) (os : nat -> syscall -> answer)
    (pgid : Z) (l : list action) :
  (forall a w,
     exists extra,
       calls (snd (perform a w)) = calls w ++ extra /\
       Forall (step_call_ok w) extra) /\
  Forall (shell_call_ok pgid) (calls (run l (initial_world cap os pgid))).
Proof.
  split.
  - intros a w. apply perform_calls.
  - apply session_calls; [reflexivity|apply Forall_nil].
Qed.
(** ** The drain *)

Lemma reap_loop_step (fuel : nat) (reaped : Z) (w : world) :
  reap_loop (S fuel) reaped w
  = match fst (reap_turn reaped w) with
    | inl reaped' => reap_loop fuel reaped' (snd (reap_turn reaped w))
    | inr r => (Some r, snd (reap_turn reaped w))
    end.
Proof.
  simpl. unfold bind, ret. destruct (reap_turn reaped w) as [[r|r] w'];
    reflexivity.
Qed.

Lemma nothing_reported_refl (w : world) : nothing_reported w w.
Proof. repeat split. Qed.

Lemma nothing_reported_trans (w1 w2 w3 : world) :
  nothing_reported w1 w2 -> nothing_reported w2 w3 -> nothing_reported w1 w3.
Proof.
  intros [A1 [B1 [C1 D1]]] [A2 [B2 [C2 D2]]].
  repeat split; congruence.
Qed.

(** The loop body leaves the flag as it was only when it dropped the
    event. *)
Lemma reap_body_flag (pid : Z) (status : wstatus) (reaped : Z) (w : world) :
  reap_body pid status reaped w = (reaped, w)
  \/ fst (reap_body pid status reaped w) = 1.
Proof.
  destruct (reap_body pid status reaped w) as [r w'] eqn:H. simpl.
  unfold reap_body in H.
  exec_in H; finish_in H; auto.
Qed.

Lemma reap_turn_end (reaped : Z) (w : world) :
  ans_ret (polled w) <= 0 ->
  fst (reap_turn reaped w) = inr reaped /\
  nothing_reported w (snd (reap_turn reaped w)).
Proof.
  intros H. destruct (reap_turn reaped w) as [t w'] eqn:E. simpl.
  unfold reap_turn in E. fold reaper_poll in E.
  exec_in E; fold (polled w) in *; try lia; finish_in E;
    (split; [reflexivity|]); unfold nothing_reported; simpl;
    repeat split; messages_now.
Qed.

Lemma reap_loop_drain (n : nat) (w : world) (reaped : Z) :
  (forall k, (k < n)%nat ->
             0 < ans_ret (oracle w (clock w + k)%nat reaper_poll)) ->
  ans_ret (oracle w (clock w + n)%nat reaper_poll) <= 0 ->
  exists r w',
    (forall fuel, (n < fuel)%nat -> reap_loop fuel reaped w = (Some r, w')) /\
    (forall fuel, (fuel <= n)%nat -> fst (reap_loop fuel reaped w) = None) /\
    calls w' = calls w ++ repeat reaper_poll (S n) /\
    (r = reaped \/ r = 1) /\
    (r <> 1 -> nothing_reported w w') /\
    fg_pid w' = fg_pid w /\
    foreground_job_id w' = foreground_job_id w /\
    term_owner w' = term_owner w.
Proof.
  revert w reaped. induction n as [|n IH]; intros w reaped Hk Hn.
  - rewrite Nat.add_0_r in Hn. fold (polled w) in Hn.
    destruct (reap_turn_end reaped w Hn) as [E U].
    pose proof (reap_turn_calls reaped w) as [C [_ [T [F J]]]].
    exists reaped, (snd (reap_turn reaped w)).
    split; [|split; [|split; [|split; [|split; [|split; [|split]]]]]];
      auto.
    + intros [|fuel] L; [lia|]. rewrite reap_loop_step, E. reflexivity.
    + intros fuel L. assert (fuel = 0%nat) by lia. subst. reflexivity.
  - assert (H0 : 0 < ans_ret (polled w)).
    { specialize (Hk 0%nat ltac:(lia)). rewrite Nat.add_0_r in Hk. exact Hk. }
    pose proof (reap_turn_event reaped w H0) as E.
    pose proof (reap_turn_calls reaped w) as [C [_ [T [F J]]]].
    pose proof (reap_body_os (ans_ret (polled w)) (ans_status (polled w))
                  reaped (tick reaper_poll w)) as [Ck Or].
    pose proof (reap_body_flag (ans_ret (polled w)) (ans_status (polled w))
                  reaped (tick reaper_poll w)) as Fl.
    rewrite E in C, T, F, J. simpl in C, T, F, J.
    destruct (reap_body _ _ _ _) as [r1 w1]. simpl in *.
    destruct (IH w1 r1) as [r [w' [L1 [L2 [L3 [L4 [L5 [L6 [L7 L8]]]]]]]]].
    + intros k Hlt. rewrite Ck, Or.
      specialize (Hk (S k) ltac:(lia)).
      replace (S (clock w) + k)%nat with (clock w + S k)%nat by lia.
      exact Hk.
    + rewrite Ck, Or.
      replace (S (clock w) + n)%nat with (clock w + S n)%nat by lia.
      exact Hn.
    + exists r, w'.
      split; [|split; [|split; [|split; [|split; [|split; [|split]]]]]].
      * intros [|fuel] L; [lia|]. rewrite reap_loop_step, E. simpl.
        apply L1. lia.
      * intros [|fuel] L; [reflexivity|]. rewrite reap_loop_step, E. simpl.
        apply L2. lia.
      * rewrite L3, C, <- app_assoc. reflexivity.
      * destruct Fl as [Fl|Fl]; [injection Fl as -> _; exact L4|].
        subst r1. right. destruct L4; assumption.
      * intros N. destruct Fl as [Fl|Fl].
        -- injection Fl as -> ->.
           apply (nothing_reported_trans _ (tick reaper_poll w));
             [repeat split|apply L5, N].
        -- subst r1. destruct L4; contradiction.
      * congruence.
      * congruence.
      * congruence.
Qed.

(** X18.  The drain of the reaper ends and never blocks.  When the
    operating system has [n] state changes to report and then none (or an
    error), [reap_background_processes] returns after exactly [n + 1]
    system calls, all of them the non-blocking [waitpid(-1, ...)]; with
    fewer than [n + 1] turns the loop is still running.  It returns 0 or
    1, and it leaves the foreground pid, the foreground job id and the
    terminal alone.  When it returns 0 nothing was reported: the table and
    the counter are as before and no line was printed. *)
Theorem reaper_drains (n : nat) (w : world) :
  (forall k, (k < n)%nat ->
             0 < ans_ret (oracle w (clock w + k)%nat reaper_poll)) ->
  ans_ret (oracle w (clock w + n)%nat reaper_poll) <= 0 ->
  exists r w',
    (forall fuel, (n < fuel)%nat ->
                  reap_background_processes fuel w = (Some r, w')) /\
    (forall fuel, (fuel <= n)%nat ->
                  fst (reap_background_processes fuel w) = None) /\
    calls w' = calls w ++ repeat reaper_poll (S n) /\
    (r = 0 \/ r = 1) /\
    (r = 0 -> nothing_reported w w') /\
    fg_pid w' = fg_pid w /\
    foreground_job_id w' = foreground_job_id w /\
    term_owner w' = term_owner w.
Proof.
  intros Hk Hn.
  destruct (reap_loop_drain n w 0 Hk Hn)
    as [r [w' [L1 [L2 [L3 [L4 [L5 [L6 [L7 L8]]]]]]]]].
  exists r, w'. unfold reap_background_processes.
  split; [exact L1|]. split; [exact L2|]. split; [exact L3|].
  split; [exact L4|]. split; [intros ->; apply L5; lia|].
  split; [exact L6|]. split; [exact L7|exact L8].
Qed.

Lemma reaper_drains_witness :
  exists r w',
    reap_background_processes 2
      (initial_world 8
         (fun t c => if (t <? 1)%nat then Sample.os_event (W_EXITED 3) t c
                     else Sample.ok) 50)
    = (Some r, w') /\
    calls w' = [reaper_poll; reaper_poll] /\
    (r = 0 -> nothing_reported
                (initial_world 8
                   (fun t c => if (t <? 1)%nat
                               then Sample.os_event (W_EXITED 3) t c
                               else Sample.ok) 50) w').
Proof.
  destruct (reaper_drains 1
              (initial_world 8
                 (fun t c => if (t <? 1)%nat
                             then Sample.os_event (W_EXITED 3) t c
                             else Sample.ok) 50))
    as [r [w' [L1 [_ [L3 [_ [L5 _]]]]]]].
  - intros k Hk. assert (k = 0%nat) by lia. subst k. simpl. lia.
  - simpl. lia.
  - exists r, w'. split; [apply L1; lia|]. split; [exact L3|exact L5].
Defined.

Lemma no_job_added_refl (l : list job_element) : no_job_added l l.
Proof. repeat split; try apply incl_refl. lia. Qed.

Lemma no_job_added_trans (l1 l2 l3 : list job_element) :
  no_job_added l1 l2 -> no_job_added l2 l3 -> no_job_added l1 l3.
Proof.
  intros [A1 [B1 C1]] [A2 [B2 C2]]. split; [|split].
  - apply (incl_tran A2 A1).
  - apply (incl_tran B2 B1).
  - lia.
Qed.

Lemma no_job_added_mark (p : Z) (s : process_state_t)
    (l : list job_element) :
  no_job_added l (JobTable.mark p s l).
Proof.
  unfold no_job_added. rewrite mark_jids, mark_pids, mark_length.
  repeat split; try apply incl_refl. lia.
Qed.

Lemma no_job_added_filter (f : job_element -> bool) (l : list job_element) :
  no_job_added l (filter f l).
Proof.
  split; [|split].
  - apply filter_jids_incl.
  - intros p H. apply in_map_iff in H. destruct H as [j [E I]].
    apply filter_In in I. apply in_map_iff. exists j. tauto.
  - induction l as [|a l IH]; simpl; [lia|].
    destruct (f a); simpl; lia.
Qed.

(** With no foreground pid recorded, the loop body never adds a job. *)
Lemma reap_body_adds_nothing (pid : Z) (status : wstatus) (reaped : Z)
    (w : world) :
  0 < pid ->
  fg_pid w = -1 ->
  next_jid (snd (reap_body pid status reaped w)) = next_jid w /\
  no_job_added (entries (job_list w))
               (entries (job_list (snd (reap_body pid status reaped w)))) /\
  capacity (job_list (snd (reap_body pid status reaped w)))
  = capacity (job_list w).
Proof.
  intros P F. destruct (reap_body pid status reaped w) as [r w'] eqn:H.
  simpl. unfold reap_body in H.
  exec_in H; rewrite ?F in *; try lia; finish_in H.
  all: repeat match goal with
       | X : update_job_pid ?jl ?p ?s = (_, ?jl') |- _ =>
           apply update_job_pid_cases in X;
           destruct X as [[_ [-> _]]|[_ [-> _]]]
       | X : remove_job_pid ?jl ?p = (_, ?jl') |- _ =>
           let R := fresh "R" in
           pose proof (remove_job_pid_entries jl p) as R;
           rewrite X in R; simpl in R; subst jl'; clear X
       end; simpl.
  all: (split; [reflexivity|]); (split; [|reflexivity]).
  all: first [ apply no_job_added_refl | apply no_job_added_mark
             | apply no_job_added_filter ].
Qed.

Lemma reap_loop_adds_nothing (fuel : nat) (reaped : Z) (w : world) :
  fg_pid w = -1 ->
  next_jid (snd (reap_loop fuel reaped w)) = next_jid w /\
  no_job_added (entries (job_list w))
               (entries (job_list (snd (reap_loop fuel reaped w)))) /\
  capacity (job_list (snd (reap_loop fuel reaped w)))
  = capacity (job_list w) /\
  fg_pid (snd (reap_loop fuel reaped w)) = -1.
Proof.
  revert reaped w. induction fuel as [|fuel IH]; intros reaped w F.
  - simpl. repeat split; try apply incl_refl; auto.
  - rewrite reap_loop_step.
    pose proof (reap_turn_calls reaped w) as [_ [_ [_ [Fg _]]]].
    destruct (Z_lt_le_dec 0 (ans_ret (polled w))) as [P|P].
    + pose proof (reap_turn_event reaped w P) as E.
      pose proof (reap_body_adds_nothing (ans_ret (polled w))
                    (ans_status (polled w)) reaped (tick reaper_poll w)
                    P F) as [N [A C]].
      rewrite E in *. simpl in *.
      destruct (reap_body _ _ _ _) as [r1 w1]. simpl in *.
      destruct (IH r1 w1 ltac:(congruence)) as [N' [A' [C' F']]].
      split; [congruence|]. split; [|split; [congruence|exact F']].
      exact (no_job_added_trans _ _ _ A A').
    + destruct (reap_turn_end reaped w P) as [E [J [N _]]].
      rewrite E. simpl. rewrite J.
      split; [exact N|]. split; [apply no_job_added_refl|].
      split; [reflexivity|congruence].
Qed.

(** X19.  With no foreground pid recorded the reaper never adds a job:
    a drain of any length then leaves the counter as it was and a table
    in which every job id and every pid were there before and which is
    not longer: events for pids that are not in the table, stops
    included, are dropped, and the others remove a job or change its
    state. *)
Theorem reaper_adds_no_job (fuel : nat) (w : world) :
  fg_pid w = -1 ->
  next_jid (snd (reap_background_processes fuel w)) = next_jid w /\
  no_job_added
    (entries (job_list w))
    (entries (job_list (snd (reap_background_processes fuel w)))) /\
  capacity (job_list (snd (reap_background_processes fuel w)))
  = capacity (job_list w) /\
  fg_pid (snd (reap_background_processes fuel w)) = -1.
Proof.
  intros F. unfold reap_background_processes.
  apply reap_loop_adds_nothing, F.
Qed.

Lemma reaper_adds_no_job_witness :
  fg_pid (initial_world 8 (Sample.os_event (W_STOPPED 20)) 50) = -1 /\
  next_jid (snd (reap_background_processes 5
                   (initial_world 8 (Sample.os_event (W_STOPPED 20)) 50)))
  = 1.
Proof.
  split; [reflexivity|].
  exact (proj1 (reaper_adds_no_job 5
                  (initial_world 8 (Sample.os_event (W_STOPPED 20)) 50)
                  eq_refl)).
Defined.

(** X26.  Events of the reaper for a pid that is not in the table but is
    the recorded foreground pid.  An exit is consumed silently: nothing
    is printed and only the flag is raised.  A death by signal prints
    [(<pid>) terminated by signal <n>], without a job id.  In both cases
    the table and the counter are as before, and the foreground pid stays
    recorded: the reaper never clears it. *)
Theorem reaper_foreground_events (w : world) (reaped pid : Z) :
  0 < pid ->
  ans_ret (polled w) = pid ->
  ~ In pid (pids w) ->
  pid = fg_pid w ->
  (forall code,
     ans_status (polled w) = W_EXITED code ->
     reap_turn reaped w = (inl 1, tick reaper_poll w)) /\
  (forall sig,
     ans_status (polled w) = W_SIGNALED sig ->
     reap_turn reaped w
     = (inl 1,
        emit (Stdout (fmt ["("; dec pid; ") terminated by signal "; dec sig;
                           LF]))
             (tick reaper_poll w))) /\
  fg_pid (snd (reap_turn reaped w)) = pid.
Proof.
  intros P E U F.
  assert (J : get_job_jid (job_list (tick reaper_poll w)) pid = -1).
  { apply get_job_jid_none. exact U. }
  assert (B : forall status,
            reap_body pid status reaped (tick reaper_poll w)
            = match status with
              | W_EXITED _ => (1, tick reaper_poll w)
              | W_SIGNALED sig =>
                  (1, emit (Stdout (msg_signaled_nojid pid sig))
                        (tick reaper_poll w))
              | _ => reap_body pid status reaped (tick reaper_poll w)
              end).
  { intros status. unfold reap_body. cbv beta delta [bind gets ret].
    rewrite J. change (fg_pid (tick reaper_poll w)) with (fg_pid w).
    rewrite <- F, !Z.eqb_refl. destruct status; simpl;
      cbv beta iota delta [bind gets ret modify fprintf_stdout];
      reflexivity. }
  assert (P' : 0 < ans_ret (polled w)) by lia.
  pose proof (reap_turn_event reaped w P') as T. rewrite E in T.
  split; [|split].
  - intros code S. rewrite T, S, (B (W_EXITED code)). reflexivity.
  - intros sig S. rewrite T, S, (B (W_SIGNALED sig)). reflexivity.
  - pose proof (reap_turn_calls reaped w) as [_ [_ [_ [G _]]]].
    rewrite G. symmetry. exact F.
Qed.

Lemma reaper_foreground_events_witness :
  reap_turn 0 (Sample.foreground_100 8 (Sample.os_event (W_SIGNALED 9)))
  = (inl 1,
     emit (Stdout (String.append "(100) terminated by signal 9" LF))
          (tick reaper_poll
             (Sample.foreground_100 8 (Sample.os_event (W_SIGNALED 9))))).
Proof.
  destruct (reaper_foreground_events
              (Sample.foreground_100 8 (Sample.os_event (W_SIGNALED 9)))
              0 100) as [_ [S _]].
  - lia.
  - reflexivity.
  - simpl. tauto.
  - reflexivity.
  - apply (S 9). reflexivity.
Defined.
(** ** The forked child *)

Ltac run_process :=
  cbv beta iota delta [bindP retP endP exit call report]; simpl;
  repeat (lazymatch goal with |- ?l = _ => head_destruct l end;
          cbv beta iota delta [bindP retP endP exit call report]; simpl);
  rewrite <- ?app_assoc; simpl; rewrite ?app_nil_r; try reflexivity.

Lemma child_runs_plan (result : parse_result) (p : process) :
  child result p
  = (inr (match snd (follow (p_oracle p) (p_clock p) (child_plan result)) with
          | None => Exec (path_of result) (argv result)
          | Some _ => Exit 1
          end),
     mkProcess
       (p_oracle p)
       (List.length
          (fst (follow (p_oracle p) (p_clock p) (child_plan result)))
        + p_clock p)
       (p_calls p
        ++ fst (follow (p_oracle p) (p_clock p) (child_plan result)))
       (p_output p
        ++ match snd (follow (p_oracle p) (p_clock p) (child_plan result))
           with
           | None => []
           | Some c => [Perror (perror_tag c)]
           end)).
Proof.
  unfold child, child_plan, redirection_plan, setup_redirections,
    reset_signals.
  destruct (input_file result) as [fin|];
    destruct (output_file result) as [fout|];
    destruct (background result =? 0); simpl.
  all: run_process.
Qed.


Lemma follow_all_succeed (os : nat -> proc_call -> Z)
    (plan : list proc_call) (t : nat) :
  (forall t c, 0 <= os t c) -> follow os t plan = (plan, None).
Proof.
  intros Ok. revert t. induction plan as [|c plan IH]; intros t; simpl.
  - reflexivity.
  - destruct (Z.ltb_spec (os t c) 0) as [L|_].
    + specialize (Ok t c). lia.
    + rewrite IH. reflexivity.
Qed.


(** X21.  From the typed line to the child.  For a foreground line
    [cmd args... < in mid... op out more...] with [op] one of [>] and
    [>>], [parse] accepts the line and the child forked for it plans
    exactly: its own process group, default handlers for the three job
    control signals, the terminal, [close(0)] and [open(in, O_RDONLY)],
    [close(1)] and [open(out, flags, 0644)], and [execv] of [cmd] as typed
    with the arguments [name args... mid... more...], where [name] is
    [cmd] after its last slash: operators and file names are not passed
    to the program.  The flags always have [O_WRONLY] and [O_CREAT], and
    [O_APPEND] without [O_TRUNC] for [>>], [O_TRUNC] without [O_APPEND]
    for [>].  When no call fails the child makes exactly these calls,
    reports nothing and ends in the program. *)
Theorem typed_redirections_reach_child (s : string) (toks : list string)
    (w : world) (cmd : string) (args : list string) (fin op fout : string)
    (mid more : list string) :
  regular_line s toks ->
  plain (cmd :: args) = true ->
  op = ">" \/ op = ">>" ->
  plain mid = true ->
  plain more = true ->
  toks = (cmd :: args) ++ "<" :: fin :: mid ++ op :: fout :: more ->
  exists r flags,
    parse s w = (Some r, w) /\
    child_plan r
    = [P_setpgid 0 0; P_signal SIGINT SIG_DFL; P_signal SIGTSTP SIG_DFL;
       P_signal SIGTTOU SIG_DFL; P_tcsetpgrp_self;
       P_close STDIN_FILENO; P_open fin O_RDONLY None;
       P_close STDOUT_FILENO; P_open fout flags (Some 420);
       P_execv cmd (command_name cmd :: args ++ mid ++ more)] /\
    flags = Z.lor (Z.lor O_WRONLY O_CREAT)
                  (if String.eqb op ">>" then O_APPEND else O_TRUNC) /\
    Z.land flags O_WRONLY = O_WRONLY /\
    Z.land flags O_CREAT = O_CREAT /\
    Z.land flags O_APPEND = (if String.eqb op ">>" then O_APPEND else 0) /\
    Z.land flags O_TRUNC = (if String.eqb op ">>" then 0 else O_TRUNC) /\
    (forall p,
       (forall t c, 0 <= p_oracle p t c) ->
       fst (child r p)
       = inr (Exec cmd (command_name cmd :: args ++ mid ++ more)) /\
       p_calls (snd (child r p)) = p_calls p ++ child_plan r /\
       p_output (snd (child r p)) = p_output p).
Proof.
  intros R P O D M ->.
  exists (mkParseResult (Some cmd) (Some fin) (Some fout)
                        (if String.eqb op ">>" then 1 else 0)
                        (command_name cmd :: args ++ mid ++ more)
                        0 CMD_REGULAR (-1)).
  exists (Z.lor (Z.lor O_WRONLY O_CREAT)
                (if String.eqb op ">>" then O_APPEND else O_TRUNC)).
  split.
  - rewrite (parse_regular s _ R). unfold bind.
    plain_run P. rewrite process_input. plain_run D.
    rewrite (process_output _ _ _ _ _ O). plain_end M.
  - split; [destruct O as [-> | ->]; reflexivity|].
    split; [reflexivity|].
    split; [destruct O as [-> | ->]; reflexivity|].
    split; [destruct O as [-> | ->]; reflexivity|].
    split; [destruct O as [-> | ->]; reflexivity|].
    split; [destruct O as [-> | ->]; reflexivity|].
    intros p Ok. rewrite child_runs_plan.
    rewrite (follow_all_succeed _ _ _ Ok). cbn [fst snd p_calls p_output].
    rewrite app_nil_r. repeat split.
Qed.

Lemma typed_redirections_reach_child_witness :
  exists r flags,
    parse "/bin/cat < in -n >> out x" (initial_world 8 Sample.os_ok 50)
    = (Some r, initial_world 8 Sample.os_ok 50) /\
    child_plan r
    = [P_setpgid 0 0; P_signal SIGINT SIG_DFL; P_signal SIGTSTP SIG_DFL;
       P_signal SIGTTOU SIG_DFL; P_tcsetpgrp_self;
       P_close STDIN_FILENO; P_open "in" O_RDONLY None;
       P_close STDOUT_FILENO; P_open "out" flags (Some 420);
       P_execv "/bin/cat" ["cat"; "-n"; "x"]] /\
    flags = 1089.
Proof.
  destruct (typed_redirections_reach_child
              "/bin/cat < in -n >> out x"
              ["/bin/cat"; "<"; "in"; "-n"; ">>"; "out"; "x"]
              (initial_world 8 Sample.os_ok 50)
              "/bin/cat" [] "in" ">>" "out" ["-n"] ["x"])
    as [r [flags [A [B [C _]]]]].
  - regular_line_now.
  - reflexivity.
  - right. reflexivity.
  - reflexivity.
  - reflexivity.
  - reflexivity.
  - exists r, flags. split; [exact A|]. split; [exact B|]. rewrite C.
    reflexivity.
Defined.

(** ** Signal handlers *)





(** ** One turn of the loop *)

Arguments main_turn : simpl never.

Lemma strip_newline_typed (s : string) : strip_newline (typed s) = s.
Proof.
  unfold typed. induction s as [|c s IH]; [reflexivity|].
  simpl String.append. simpl in IH.
  destruct s as [|c' s]; [reflexivity|].
  simpl. simpl in IH. rewrite IH. reflexivity.
Qed.

Lemma c_string_no_nul (s : string) : no_nul s = true -> c_string s = s.
Proof.
  induction s as [|c s IH]; simpl; [reflexivity|].
  intros H. apply andb_true_iff in H. destruct H as [N H].
  apply negb_true_iff in N. rewrite N, (IH H). reflexivity.
Qed.

Lemma strip_newline_length (s : string) :
  (String.length (strip_newline s) <= String.length s)%nat.
Proof.
  induction s as [|c s IH]; [simpl; lia|].
  destruct s as [|c' s].
  - simpl. destruct (Ascii.eqb c _); simpl; lia.
  - change (strip_newline (String c (String c' s)))
      with (String c (strip_newline (String c' s))).
    simpl String.length in *. lia.
Qed.

Lemma c_string_length (s : string) :
  (String.length (c_string s) <= String.length s)%nat.
Proof.
  induction s as [|c s IH]; simpl; [lia|].
  destruct (Ascii.eqb c NUL); simpl; lia.
Qed.

Lemma uint_string_no_nul (d : Decimal.uint) :
  no_nul (NilEmpty.string_of_uint d) = true.
Proof. induction d; simpl; assumption || reflexivity. Qed.

Lemma main_turn_reaped (fuel : nat) (rd : read_result) (w : world) (r : Z) :
  fst (reap_background_processes fuel w) = Some r ->
  main_turn fuel rd w
  = match rd with
    | ReadError =>
        (Some (ShellExit 1),
         emit (Perror "read") (snd (reap_background_processes fuel w)))
    | ReadBytes EmptyString =>
        (Some (ShellExit 0), snd (reap_background_processes fuel w))
    | ReadBytes bytes =>
        if negb (is_empty_or_whitespace
                   (Some (c_string (strip_newline bytes))) =? 0)
        then (Some Continue, snd (reap_background_processes fuel w))
        else
          match parse (c_string (strip_newline bytes))
                      (snd (reap_background_processes fuel w)) with
          | (None, w2) => (Some Continue, w2)
          | (Some result, w2) =>
              (Some (fst (main_command result w2)),
               snd (main_command result w2))
          end
    end.
Proof.
  intros R. unfold main_turn. cbv beta iota delta [bind ret].
  destruct (reap_background_processes fuel w) as [o w1]. simpl in R.
  subst o. cbn [snd]. destruct rd as [|bytes]; [reflexivity|].
  destruct bytes as [|c bytes]; [reflexivity|].
  destruct (negb _); [reflexivity|].
  destruct (parse _ w1) as [[result|] w2]; [|reflexivity].
  destruct (main_command result w2). reflexivity.
Qed.

(** X23.  Every turn of the loop of [main], once the reaper has returned,
    is exactly one of these: a read error ends the shell with status 1
    after [perror("read")]; the end of the input ends it with status 0;
    a line that is blank once its final newline is dropped is skipped; a
    line that [parse] rejects gets one of the error lines of [parse] on
    standard error; a line that [parse] accepts, without any output, is
    handed to the rest of the loop body.  In the first four cases no
    system call is made and the job table is not touched.  Since [read]
    gives at most [BUFFER_SIZE - 1] bytes, the silent refusal of [parse]
    for a buffer that is too long never happens here. *)
Theorem every_turn_of_the_loop (fuel : nat) (w : world) (r : Z) :
  fst (reap_background_processes fuel w) = Some r ->
  main_turn fuel ReadError w
  = (Some (ShellExit 1),
     emit (Perror "read") (snd (reap_background_processes fuel w))) /\
  main_turn fuel (ReadBytes EmptyString) w
  = (Some (ShellExit 0), snd (reap_background_processes fuel w)) /\
  (forall bytes,
     bytes <> EmptyString ->
     (String.length bytes <= BUFFER_SIZE - 1)%nat ->
     (is_empty_or_whitespace (Some (c_string (strip_newline bytes))) <> 0 /\
      main_turn fuel (ReadBytes bytes) w
      = (Some Continue, snd (reap_background_processes fuel w)))
     \/
     (exists m,
        In m parse_errors /\
        main_turn fuel (ReadBytes bytes) w
        = (Some Continue,
           emit (Stderr m) (snd (reap_background_processes fuel w))))
     \/
     (exists result,
        parse (c_string (strip_newline bytes))
              (snd (reap_background_processes fuel w))
        = (Some result, snd (reap_background_processes fuel w)) /\
        main_turn fuel (ReadBytes bytes) w
        = (Some (fst (main_command result
                        (snd (reap_background_processes fuel w)))),
           snd (main_command result
                  (snd (reap_background_processes fuel w)))))).
Proof.
  intros R. split; [|split].
  - apply (main_turn_reaped fuel ReadError w r R).
  - apply (main_turn_reaped fuel (ReadBytes EmptyString) w r R).
  - intros bytes N L. rewrite (main_turn_reaped fuel _ w r R).
    destruct bytes as [|c bytes]; [contradiction|].
    set (w1 := snd (reap_background_processes fuel w)).
    set (buffer := c_string (strip_newline (String c bytes))).
    destruct (Z.eqb_spec (is_empty_or_whitespace (Some buffer)) 0) as [B|B];
      simpl negb; cbv iota.
    + right.
      assert (Lb : (String.length buffer < BUFFER_SIZE)%nat).
      { pose proof (c_string_length (strip_newline (String c bytes))).
        pose proof (strip_newline_length (String c bytes)).
        unfold buffer, BUFFER_SIZE in *. lia. }
      destruct (parse_outcome buffer w1 Lb B) as [[result E]|[m [I E]]];
        rewrite E.
      * right. exists result. split; reflexivity.
      * left. exists m. split; [exact I|reflexivity].
    + left. split; [exact B|reflexivity].
Qed.

Lemma every_turn_of_the_loop_witness :
  fst (reap_background_processes 1 (Sample.one_job RUNNING Sample.os_ok))
  = Some 0 /\
  main_turn 1 ReadError (Sample.one_job RUNNING Sample.os_ok)
  = (Some (ShellExit 1),
     emit (Perror "read")
          (snd (reap_background_processes 1
                  (Sample.one_job RUNNING Sample.os_ok)))).
Proof.
  split; [reflexivity|].
  exact (proj1 (every_turn_of_the_loop 1
                  (Sample.one_job RUNNING Sample.os_ok) 0 eq_refl)).
Defined.

Lemma typed_line_buffer (s : string) :
  no_nul s = true -> c_string (strip_newline (typed s)) = s.
Proof.
  intros N. rewrite strip_newline_typed. apply c_string_no_nul, N.
Qed.

Lemma job_control_line_shape (name : string) (n : Z) :
  name = "fg" \/ name = "bg" ->
  0 <= n <= INT_MAX ->
  no_nul (join_words [name; String "%" (dec n)]) = true /\
  is_empty_or_whitespace (Some (join_words [name; String "%" (dec n)])) = 0 /\
  typed (join_words [name; String "%" (dec n)]) <> EmptyString.
Proof.
  intros Hn R. destruct (dec_nonneg n R) as [d [_ [E _]]].
  rewrite E. pose proof (uint_string_no_nul d) as U.
  destruct Hn as [-> | ->]; unfold join_words; simpl; rewrite U;
    repeat split; discriminate.
Qed.

(** The loop body for a job-control command ends with the built-in. *)
Lemma main_command_job_control (t : command_type) (n : Z) (w : world) :
  t = CMD_FG \/ t = CMD_BG ->
  main_command (job_control_command t n) w
  = (Continue, snd (handle_builtin (job_control_command t n) w)).
Proof.
  intros Ht.
  assert (N : fst (handle_builtin (job_control_command t n) w) <> Returns 0).
  { intros Z0.
    apply (handle_builtin_program (job_control_command t n) w
             (match t with CMD_FG => "fg" | _ => "bg" end)
             (match t with CMD_FG => "fg" | _ => "bg" end) []) in Z0;
      [|reflexivity|reflexivity].
    destruct Z0 as [A [B _]]. simpl in A, B. destruct Ht; contradiction. }
  destruct (main_command_builtin _ w N) as [S C].
  destruct (main_command (job_control_command t n) w) as [c w'] eqn:M.
  simpl in S, C. subst w'. f_equal.
  destruct C as [-> | ->]; [reflexivity|].
  exfalso.
  unfold main_command in M. cbv beta iota delta [bind] in M.
  destruct (handle_builtin (job_control_command t n) w) as [b w0] eqn:E.
  destruct b as [z|code].
  - exec_in M; discriminate.
  - apply handle_builtin_exits in E. destruct E as [_ [_ [A [B _]]]].
    simpl in A, B. destruct Ht; contradiction.
Qed.

(** X24.  From the terminal to the built-in.  For every job id [n] from
    0 to [INT_MAX], when [read] gives the line [fg %<n>] or [bg %<n>]
    with its newline, the turn of the loop is the drain of the reaper
    followed by the [fg] or [bg] built-in for exactly job [n], and the
    loop goes on.  So for [bg %<n>] typed when job [n] is in the table
    with a positive pid: [SIGCONT] goes to the process group of that pid
    and, if the operating system carries that out, the job is marked
    RUNNING and nothing is printed. *)
Theorem typed_job_control (fuel : nat) (w : world) (r n : Z) :
  fst (reap_background_processes fuel w) = Some r ->
  0 <= n <= INT_MAX ->
  main_turn fuel (ReadBytes (typed (join_words ["fg"; String "%" (dec n)]))) w
  = (Some Continue,
     snd (handle_builtin (job_control_command CMD_FG n)
            (snd (reap_background_processes fuel w)))) /\
  main_turn fuel (ReadBytes (typed (join_words ["bg"; String "%" (dec n)]))) w
  = (Some Continue,
     snd (handle_builtin (job_control_command CMD_BG n)
            (snd (reap_background_processes fuel w)))) /\
  (forall j,
     JobTable.find_by_job_id
       (job_list (snd (reap_background_processes fuel w))) n = Some j ->
     0 < j_pid j ->
     0 <= ans_ret (oracle (snd (reap_background_processes fuel w))
                          (clock (snd (reap_background_processes fuel w)))
                          (SYS_kill (- j_pid j) SIGCONT)) ->
     entries (job_list
                (snd (main_turn fuel
                        (ReadBytes
                           (typed (join_words ["bg"; String "%" (dec n)])))
                        w)))
     = JobTable.mark (j_pid j) RUNNING
         (entries (job_list (snd (reap_background_processes fuel w)))) /\
     calls (snd (main_turn fuel
                   (ReadBytes
                      (typed (join_words ["bg"; String "%" (dec n)]))) w))
     = calls (snd (reap_background_processes fuel w))
       ++ [SYS_kill (- j_pid j) SIGCONT] /\
     output (snd (main_turn fuel
                    (ReadBytes
                       (typed (join_words ["bg"; String "%" (dec n)]))) w))
     = output (snd (reap_background_processes fuel w))).
Proof.
  intros R N.
  assert (T : forall name t,
            name = "fg" /\ t = CMD_FG \/ name = "bg" /\ t = CMD_BG ->
            main_turn fuel
              (ReadBytes (typed (join_words [name; String "%" (dec n)]))) w
            = (Some Continue,
               snd (handle_builtin (job_control_command t n)
                      (snd (reap_background_processes fuel w))))).
  { intros name t Hn.
    assert (Hname : name = "fg" \/ name = "bg") by tauto.
    destruct (job_control_line_shape name n Hname N) as [U [B Ne]].
    rewrite (main_turn_reaped fuel _ w r R).
    destruct (typed _) as [|c bytes] eqn:Ty; [contradiction|].
    rewrite <- Ty, (typed_line_buffer _ U), B. simpl negb. cbv iota.
    destruct (job_control_round_trip n
                (snd (reap_background_processes fuel w)) N) as [Pf Pb].
    destruct Hn as [[-> ->]|[-> ->]].
    - rewrite Pf, main_command_job_control by tauto. reflexivity.
    - rewrite Pb, main_command_job_control by tauto. reflexivity. }
  split; [apply T; tauto|]. split; [apply T; tauto|].
  intros j F P K. rewrite (T "bg" CMD_BG) by tauto. cbn [snd].
  destruct (bg_resumes_job n _ j F P K) as [_ [E [O C]]].
  split; [exact E|]. split; [exact C|exact O].
Qed.

Lemma typed_job_control_witness :
  0 <= 1 <= INT_MAX /\
  main_turn 1 (ReadBytes (typed "bg %1"))
            (Sample.one_job STOPPED Sample.os_ok)
  = (Some Continue,
     snd (handle_builtin (job_control_command CMD_BG 1)
            (snd (reap_background_processes 1
                    (Sample.one_job STOPPED Sample.os_ok))))) /\
  entries (job_list (snd (main_turn 1 (ReadBytes (typed "bg %1"))
                            (Sample.one_job STOPPED Sample.os_ok))))
  = [mkJob 1 100 RUNNING "/bin/sleep"].
Proof.
  assert (R : 0 <= 1 <= INT_MAX) by (unfold INT_MAX; lia).
  split; [exact R|].
  destruct (typed_job_control 1 (Sample.one_job STOPPED Sample.os_ok) 0 1
              eq_refl R) as [_ [B K]].
  split; [exact B|].
  destruct (K (mkJob 1 100 STOPPED "/bin/sleep") eq_refl) as [E _].
  - reflexivity.
  - simpl. lia.
  - exact E.
Defined.

(** X27.  From the terminal to a background job.  When [read] gives a
    line that is not blank, whose tokens are [cmd args... &] with no
    redirection operator among them, where [cmd] is not [fg] or [bg] and
    either has a slash or is not the name of a built-in, and [fork] gives
    the pid of a child: the turn of the loop makes, after the drain of
    the reaper, exactly the two system calls [fork] and
    [setpgid(pid, pid)], leaves the terminal alone and goes on; unless
    the table refuses it, the job is entered as RUNNING under the next
    job id with [cmd] as typed for its name, and the last line the shell
    printed is [[<job_id>] (<pid>)]. *)
Theorem typed_background_command (fuel : nat) (w : world) (r : Z)
    (bytes cmd : string) (args : list string) (pid : Z) :
  fst (reap_background_processes fuel w) = Some r ->
  bytes <> EmptyString ->
  (String.length bytes <= BUFFER_SIZE - 1)%nat ->
  is_empty_or_whitespace (Some (c_string (strip_newline bytes))) = 0 ->
  line_tokens (c_string (strip_newline bytes)) = (cmd :: args) ++ ["&"] ->
  (List.length ((cmd :: args) ++ ["&"]) <= MAX_TOKENS - 1)%nat ->
  plain (cmd :: args) = true ->
  cmd <> "fg" -> cmd <> "bg" ->
  runs_program CMD_REGULAR cmd (command_name cmd) ->
  ans_ret (forked (snd (reap_background_processes fuel w))) = pid ->
  0 < pid ->
  fst (main_turn fuel (ReadBytes bytes) w) = Some Continue /\
  calls (snd (main_turn fuel (ReadBytes bytes) w))
  = calls (snd (reap_background_processes fuel w))
    ++ [SYS_fork; SYS_setpgid pid pid] /\
  term_owner (snd (main_turn fuel (ReadBytes bytes) w))
  = term_owner (snd (reap_background_processes fuel w)) /\
  ((entries (job_list (snd (main_turn fuel (ReadBytes bytes) w)))
    = entries (job_list (snd (reap_background_processes fuel w)))
      ++ [mkJob (next_jid (snd (reap_background_processes fuel w))) pid
                RUNNING cmd] /\
    stdout_messages (output (snd (main_turn fuel (ReadBytes bytes) w)))
    = stdout_messages (output (snd (reap_background_processes fuel w)))
      ++ [fmt ["[";
               dec (next_jid (snd (reap_background_processes fuel w)));
               "] ("; dec pid; ")"; LF]])
   \/
   job_list (snd (main_turn fuel (ReadBytes bytes) w))
   = job_list (snd (reap_background_processes fuel w))).
Proof.
  intros R Ne Len B T C Pl F G Run Fk Pos.
  rewrite (main_turn_reaped fuel _ w r R).
  destruct bytes as [|c0 bytes0]; [contradiction|].
  set (w1 := snd (reap_background_processes fuel w)) in *.
  set (buffer := c_string (strip_newline (String c0 bytes0))) in *.
  rewrite B. simpl negb. cbv iota.
  assert (Lb : (String.length buffer < BUFFER_SIZE)%nat).
  { pose proof (c_string_length (strip_newline (String c0 bytes0))).
    pose proof (strip_newline_length (String c0 bytes0)).
    unfold buffer, BUFFER_SIZE in *. lia. }
  rewrite (parse_background buffer (cmd :: args) Lb T C F G).
  unfold bind.
  rewrite <- (app_nil_r (cmd :: args)), (process_plain _ _ _ _ _ Pl).
  change (with_background empty_result)
    with (mkParseResult None None None 0 [] 1 CMD_REGULAR (-1)).
  rewrite add_words_command.
  set (result := mkParseResult (Some cmd) None None 0
                               (command_name cmd :: args) 1 CMD_REGULAR (-1)).
  change (process_tokens [] false false result w1) with (Some result, w1).
  cbv beta iota. change (check_command (Some result) w1)
    with (Some result, w1).
  cbv beta iota. cbn [fst snd].
  assert (Hb : fst (handle_builtin result w1) = Returns 0).
  { apply (handle_builtin_program result w1 cmd (command_name cmd) args);
      [reflexivity|reflexivity|exact Run]. }
  destruct (background_launch_steps result w1 pid Hb Fk Pos)
    as [K1 [K2 [K3 [_ [_ K4]]]]]; [discriminate|].
  split; [rewrite K1; reflexivity|]. split; [exact K2|].
  split; [exact K3|].
  destruct K4 as [[E O]|[E _]]; [left|right; exact E].
  split; [exact E|]. rewrite O.
  unfold stdout_messages, setpgid_report.
  rewrite !flat_map_app. destruct (_ && _); reflexivity.
Qed.

Lemma typed_background_command_witness :
  calls (snd (main_turn 1 (ReadBytes (typed "/bin/sleep 100 &"))
                (initial_world 8 (Sample.os_child (W_EXITED 0)) 50)))
  = [reaper_poll; SYS_fork; SYS_setpgid 100 100] /\
  entries (job_list
             (snd (main_turn 1 (ReadBytes (typed "/bin/sleep 100 &"))
                     (initial_world 8 (Sample.os_child (W_EXITED 0)) 50))))
  = [mkJob 1 100 RUNNING "/bin/sleep"].
Proof.
  destruct (typed_background_command 1
              (initial_world 8 (Sample.os_child (W_EXITED 0)) 50) 0
              (typed "/bin/sleep 100 &") "/bin/sleep" ["100"] 100)
    as [_ [C [_ [[E _]|E]]]].
  - reflexivity.
  - discriminate.
  - vm_compute. lia.
  - reflexivity.
  - reflexivity.
  - vm_compute. lia.
  - reflexivity.
  - discriminate.
  - discriminate.
  - split; [discriminate|]. split; [discriminate|]. left. reflexivity.
  - reflexivity.
  - lia.
  - split; [exact C|exact E].
  - split; [exact C|]. vm_compute in E. discriminate.
Defined.
(** ** The global [foreground_job_id] *)

(** Worlds that agree but for the variable give the same to an
    insensitive piece of code. *)
Lemma insensitive_agree {A} (m : M A) (w1 w2 : world) :
  insensitive m ->
  forget_foreground_job_id w1 = forget_foreground_job_id w2 ->
  fst (m w1) = fst (m w2) /\
  forget_foreground_job_id (snd (m w1))
  = forget_foreground_job_id (snd (m w2)).
Proof.
  intros I E. destruct (I w1) as [A1 B1]. destruct (I w2) as [A2 B2].
  rewrite E in A1, B1. split; congruence.
Qed.

Lemma insensitive_ret {A} (a : A) : insensitive (ret a).
Proof. intros w. split; reflexivity. Qed.

Lemma insensitive_bind {A B} (m : M A) (k : A -> M B) :
  insensitive m -> (forall a, insensitive (k a)) -> insensitive (bind m k).
Proof.
  intros Im Ik w. unfold bind. destruct (Im w) as [F S].
  destruct (m (forget_foreground_job_id w)) as [a1 w1].
  destruct (m w) as [a2 w2]. simpl in F, S. subst a2.
  exact (insensitive_agree (k a1) w1 w2 (Ik a1) S).
Qed.

Lemma insensitive_gets {A} (f : world -> A) :
  (forall w, f (forget_foreground_job_id w) = f w) -> insensitive (gets f).
Proof. intros H w. split; [apply H|reflexivity]. Qed.

Lemma insensitive_modify (g : world -> world) :
  (forall w, forget_foreground_job_id (g (forget_foreground_job_id w))
             = forget_foreground_job_id (g w)) ->
  insensitive (modify g).
Proof. intros H w. split; [reflexivity|apply H]. Qed.

Lemma insensitive_sys (c : syscall) : insensitive (sys c).
Proof. intros w. split; reflexivity. Qed.

Lemma insensitive_on_job_list (f : job_list_t -> Z * job_list_t) :
  insensitive (on_job_list f).
Proof.
  intros w. unfold on_job_list. simpl.
  destruct (f (job_list w)); split; reflexivity.
Qed.

Ltac insensitive_now :=
  repeat (cbv zeta;
          lazymatch goal with
          | |- insensitive (bind _ _) => apply insensitive_bind; [|intros]
          | |- insensitive (ret _) => apply insensitive_ret
          | |- insensitive (gets _) =>
              apply insensitive_gets; intros; reflexivity
          | |- insensitive (modify _) =>
              apply insensitive_modify; intros; reflexivity
          | |- insensitive (sys _) => apply insensitive_sys
          | |- insensitive (on_job_list _) => apply insensitive_on_job_list
          | |- insensitive (tcsetpgrp _) => unfold tcsetpgrp
          | |- insensitive getpgrp => unfold getpgrp
          | |- insensitive (fprintf_stdout _) => unfold fprintf_stdout
          | |- insensitive (fprintf_stderr _) => unfold fprintf_stderr
          | |- insensitive (perror _) => unfold perror
          | |- insensitive (if ?b then _ else _) => destruct b
          | |- insensitive (match ?x with _ => _ end) => destruct x
          end).

Lemma insensitive_get_job_info (jid : Z) : insensitive (get_job_info jid).
Proof. unfold get_job_info. insensitive_now. Qed.

Lemma insensitive_send_signal_to_job (pid signal : Z) :
  insensitive (send_signal_to_job pid signal).
Proof. unfold send_signal_to_job. insensitive_now. Qed.

Lemma insensitive_give_terminal_to (pgid : Z) :
  insensitive (give_terminal_to pgid).
Proof. unfold give_terminal_to. insensitive_now. Qed.

Lemma insensitive_take_terminal_control : insensitive take_terminal_control.
Proof. unfold take_terminal_control. insensitive_now. Qed.

Lemma insensitive_wait_for_job (pid : Z) : insensitive (wait_for_job pid).
Proof. unfold wait_for_job. insensitive_now. Qed.

Lemma insensitive_reap_body (pid : Z) (status : wstatus) (reaped : Z) :
  insensitive (reap_body pid status reaped).
Proof. unfold reap_body. insensitive_now. Qed.

Lemma insensitive_reap_turn (reaped : Z) : insensitive (reap_turn reaped).
Proof.
  unfold reap_turn. insensitive_now; try apply insensitive_reap_body.
Qed.

Ltac insensitive_all :=
  insensitive_now;
  repeat first
    [ apply insensitive_get_job_info
    | apply insensitive_send_signal_to_job
    | apply insensitive_give_terminal_to
    | apply insensitive_take_terminal_control
    | apply insensitive_wait_for_job
    | apply insensitive_reap_body
    | progress insensitive_now ].

Lemma insensitive_builtin_fg (result : parse_result) (pid : Z) :
  insensitive (builtin_fg result pid).
Proof. unfold builtin_fg. insensitive_all. Qed.

Lemma insensitive_builtin_bg (pid : Z) (state : process_state_t) :
  insensitive (builtin_bg pid state).
Proof. unfold builtin_bg. insensitive_all. Qed.

Lemma insensitive_handle_builtin (result : parse_result) :
  insensitive (handle_builtin result).
Proof.
  unfold handle_builtin, builtin_cd, builtin_ln, builtin_rm.
  insensitive_all;
    first [apply insensitive_builtin_fg | apply insensitive_builtin_bg].
Qed.

Lemma insensitive_main_parent (result : parse_result) (pid : Z) :
  insensitive (main_parent result pid).
Proof. unfold main_parent. insensitive_all. Qed.

Lemma insensitive_main_command (result : parse_result) :
  insensitive (main_command result).
Proof.
  unfold main_command. insensitive_all;
    first [apply insensitive_handle_builtin | apply insensitive_main_parent].
Qed.

Lemma insensitive_perform (a : action) : insensitive (perform a).
Proof.
  destruct a as [|result]; simpl.
  - insensitive_now. apply insensitive_reap_turn.
  - apply insensitive_main_command.
Qed.

Lemma insensitive_reap_loop (fuel : nat) (reaped : Z) :
  insensitive (reap_loop fuel reaped).
Proof.
  revert reaped. induction fuel as [|fuel IH]; intros reaped; simpl.
  - apply insensitive_ret.
  - apply insensitive_bind; [apply insensitive_reap_turn|].
    intros [r|r]; [apply IH|apply insensitive_ret].
Qed.

Lemma run_agree (l : list action) (w1 w2 : world) :
  forget_foreground_job_id w1 = forget_foreground_job_id w2 ->
  forget_foreground_job_id (run l w1) = forget_foreground_job_id (run l w2).
Proof.
  revert w1 w2. induction l as [|a l IH]; intros w1 w2 E; simpl; [exact E|].
  destruct (insensitive_agree (perform a) w1 w2 (insensitive_perform a) E)
    as [F S].
  destruct (perform a w1) as [c1 v1]. destruct (perform a w2) as [c2 v2].
  simpl in F, S. subst c2. destruct c1; [apply IH, S|exact S|exact S].
Qed.

(** X28.  The global [foreground_job_id] is written by [fg] and never
    read.  Whatever value it holds, a turn of the reaper or the loop body
    for a command returns the same and leaves the same world but for the
    variable itself, and so does the drain of the reaper; hence over a
    whole session every system call made, every line written, the job
    table, the counter, the foreground pid and the terminal are the same
    for every value the variable started with. *)
Theorem foreground_job_id_is_never_read (x : Z) (w : world) :
  (forall a,
     fst (perform a (set_foreground_job_id x w)) = fst (perform a w) /\
     forget_foreground_job_id (snd (perform a (set_foreground_job_id x w)))
     = forget_foreground_job_id (snd (perform a w))) /\
  (forall fuel,
     fst (reap_background_processes fuel (set_foreground_job_id x w))
     = fst (reap_background_processes fuel w) /\
     forget_foreground_job_id
       (snd (reap_background_processes fuel (set_foreground_job_id x w)))
     = forget_foreground_job_id (snd (reap_background_processes fuel w))) /\
  (forall l,
     calls (run l (set_foreground_job_id x w)) = calls (run l w) /\
     output (run l (set_foreground_job_id x w)) = output (run l w) /\
     job_list (run l (set_foreground_job_id x w)) = job_list (run l w) /\
     next_jid (run l (set_foreground_job_id x w)) = next_jid (run l w) /\
     fg_pid (run l (set_foreground_job_id x w)) = fg_pid (run l w) /\
     term_owner (run l (set_foreground_job_id x w)) = term_owner (run l w)).
Proof.
  assert (E : forget_foreground_job_id (set_foreground_job_id x w)
              = forget_foreground_job_id w) by reflexivity.
  split; [|split].
  - intros a. exact (insensitive_agree _ _ _ (insensitive_perform a) E).
  - intros fuel. unfold reap_background_processes.
    exact (insensitive_agree _ _ _ (insensitive_reap_loop fuel 0) E).
  - intros l. pose proof (run_agree l _ _ E) as R.
    repeat split.
    + exact (f_equal calls R).
    + exact (f_equal output R).
    + exact (f_equal job_list R).
    + exact (f_equal next_jid R).
    + exact (f_equal fg_pid R).
    + exact (f_equal term_owner R).
Qed.
(** ** When a foreground pid stays recorded *)

Lemma builtin_fg_keeps_pid (result : parse_result) (pid : Z) (w : world) :
  fg_pid w = -1 ->
  fg_pid (snd (builtin_fg result pid w)) <> -1 ->
  fg_pid (snd (builtin_fg result pid w)) = pid /\
  0 < pid /\
  0 <= ans_ret (fg_grant w pid) /\
  0 <= ans_ret (fg_signal w pid) /\
  ans_ret (fg_wait w pid) < 0.
Proof.
  intros F N. destruct (builtin_fg result pid w) as [r w'] eqn:H.
  simpl in *. unfold fg_grant, fg_signal, fg_wait. simpl.
  unfold builtin_fg, give_terminal_to, send_signal_to_job, wait_for_job,
    take_terminal_control in H.
  exec_in H; finish_in H; try contradiction; try lia.
Qed.

(** X29.  The only way a foreground pid stays recorded after the loop
    body.  If no foreground pid is recorded before the loop body for a
    command and one is recorded after it, then the command was [fg] for a
    job of the table with a positive pid, that pid is the one recorded,
    the terminal was granted and [SIGCONT] was sent, and the blocking
    [waitpid] failed.  Every other command, every launch and every other
    outcome of [fg] leaves no foreground pid recorded. *)
Theorem foreground_pid_stays_only_after_failed_wait (result : parse_result)
    (w : world) :
  fg_pid w = -1 ->
  fg_pid (snd (main_command result w)) <> -1 ->
  cmd_type result = CMD_FG /\
  fg_pid (snd (main_command result w))
  = get_job_pid (job_list w) (job_id result) /\
  0 < get_job_pid (job_list w) (job_id result) /\
  0 <= ans_ret (fg_grant w (get_job_pid (job_list w) (job_id result))) /\
  0 <= ans_ret (fg_signal w (get_job_pid (job_list w) (job_id result))) /\
  ans_ret (fg_wait w (get_job_pid (job_list w) (job_id result))) < 0.
Proof.
  intros F N. destruct (main_command result w) as [c w'] eqn:M.
  simpl in N |- *. unfold main_command in M.
  cbv beta iota delta [bind] in M.
  destruct (handle_builtin result w) as [b w0] eqn:H.
  assert (K : fg_pid w0 <> -1 ->
              cmd_type result = CMD_FG /\
              fg_pid w0 = get_job_pid (job_list w) (job_id result) /\
              0 < get_job_pid (job_list w) (job_id result) /\
              0 <= ans_ret (fg_grant w
                              (get_job_pid (job_list w) (job_id result))) /\
              0 <= ans_ret (fg_signal w
                              (get_job_pid (job_list w) (job_id result))) /\
              ans_ret (fg_wait w
                         (get_job_pid (job_list w) (job_id result))) < 0).
  { clear M N. intros N.
    unfold handle_builtin, builtin_cd, builtin_ln, builtin_rm,
      builtin_bg, send_signal_to_job in H.
    exec_in H; inversion H; subst; clear H; simpl in N;
      try contradiction.
    all: apply get_job_info_cases in Heqp.
    all: destruct Heqp as [[E [-> _]]|[E [_ ->]]]; try discriminate;
         simpl in N; try contradiction.
    all: injection E as -> ->.
    all: match goal with
         | X : builtin_fg ?r ?p ?v = (_, _) |- _ =>
             pose proof (builtin_fg_keeps_pid r p v F) as B;
             rewrite X in B; simpl in B; specialize (B N)
         end.
    all: split; [reflexivity|exact B]. }
  destruct b as [r|code].
  - exec_in M; finish_in M; try (apply K; exact N).
    + assert (r = 0) by lia. subst r.
      apply handle_builtin_zero in H. subst w0.
      exfalso. apply N.
      destruct (Z.eq_dec (background result) 0) as [Bg|Bg].
      * pose proof (main_parent_clears_fg_pid result
                      (ans_ret (oracle w (clock w) SYS_fork))
                      (tick SYS_fork w) Bg) as C.
        rewrite Heqp in C. exact C.
      * unfold main_parent in Heqp. apply Z.eqb_neq in Bg.
        rewrite Bg in Heqp.
        exec_in Heqp; finish_in Heqp; exact F.
  - simpl in M. injection M as <- <-. apply K, N.
Qed.

Lemma foreground_pid_stays_only_after_failed_wait_witness :
  fg_pid (Sample.one_job STOPPED Sample.os_wait_fails) = -1 /\
  fg_pid (snd (main_command (job_control_command CMD_FG 1)
                 (Sample.one_job STOPPED Sample.os_wait_fails))) <> -1 /\
  ans_ret (fg_wait (Sample.one_job STOPPED Sample.os_wait_fails) 100) < 0.
Proof.
  split; [reflexivity|].
  assert (N : fg_pid (snd (main_command (job_control_command CMD_FG 1)
                             (Sample.one_job STOPPED Sample.os_wait_fails)))
              <> -1) by (vm_compute; discriminate).
  split; [exact N|].
  exact (proj2 (proj2 (proj2 (proj2 (proj2
    (foreground_pid_stays_only_after_failed_wait
       (job_control_command CMD_FG 1)
       (Sample.one_job STOPPED Sample.os_wait_fails) eq_refl N)))))).
Defined.
(** ** Spacing and the final newline *)

Lemma skip_delims_app_none (s : string) (d : ascii) :
  is_delim d = true ->
  skip_delims s = EmptyString ->
  skip_delims (String.append s (String d EmptyString)) = EmptyString.
Proof.
  intros D. induction s as [|c s IH]; simpl.
  - rewrite D. reflexivity.
  - destruct (is_delim c); [exact IH|discriminate].
Qed.

Lemma skip_delims_app_some (s x : string) (c : ascii) (r : string) :
  skip_delims s = String c r ->
  skip_delims (String.append s x) = String c (String.append r x).
Proof.
  induction s as [|a s IH]; simpl; [discriminate|].
  destruct (is_delim a); [exact IH|].
  intros [= -> ->]. reflexivity.
Qed.

Lemma take_token_app_delim (u : string) (d : ascii) :
  is_delim d = true ->
  take_token (String.append u (String d EmptyString))
  = (fst (take_token u),
     if no_delim u then EmptyString
     else String.append (snd (take_token u)) (String d EmptyString)).
Proof.
  intros D. induction u as [|c u IH]; simpl.
  - rewrite D. reflexivity.
  - destruct (is_delim c); simpl; [reflexivity|].
    rewrite IH. destruct (take_token u) as [t after]. reflexivity.
Qed.

Lemma line_tokens_app_delim (s : string) (d : ascii) :
  is_delim d = true ->
  line_tokens (String.append s (String d EmptyString)) = line_tokens s.
Proof.
  intros D. remember (String.length s) as n eqn:N. revert s N.
  induction n as [n IH] using (well_founded_induction lt_wf). intros s N.
  destruct (strtok s) as [[t rest]|] eqn:E.
  - pose proof (strtok_sound _ _ _ E) as [_ L].
    rewrite (line_tokens_step _ _ _ E).
    destruct (skip_delims s) as [|c r] eqn:K;
      [unfold strtok in E; rewrite K in E; discriminate|].
    assert (E2 : take_token (String c r) = (t, rest)).
    { unfold strtok in E. rewrite K in E. injection E as E. exact E. }
    clear E. rename E2 into E.
    assert (E' : strtok (String.append s (String d EmptyString))
                 = Some (t, if no_delim (String c r) then EmptyString
                            else String.append rest (String d EmptyString))).
    { unfold strtok. rewrite (skip_delims_app_some s _ c r K).
      change (String c (String.append r (String d EmptyString)))
        with (String.append (String c r) (String d EmptyString)).
      rewrite (take_token_app_delim (String c r) d D), E. reflexivity. }
    rewrite (line_tokens_step _ _ _ E'). f_equal.
    destruct (no_delim (String c r)) eqn:W.
    + rewrite (no_delim_take _ W) in E. injection E as _ <-. reflexivity.
    + apply (IH (String.length rest)); [lia|reflexivity].
  - rewrite (line_tokens_none _ E). apply line_tokens_none.
    unfold strtok in *.
    destruct (skip_delims s) as [|c r] eqn:K; [|discriminate].
    rewrite (skip_delims_app_none s d D K). reflexivity.
Qed.

Lemma all_whitespace_app_space (s : string) (d : ascii) :
  isspace d = true ->
  all_whitespace (String.append s (String d EmptyString)) = all_whitespace s.
Proof.
  intros D. induction s as [|c s IH]; simpl.
  - rewrite D. reflexivity.
  - destruct (isspace c); simpl; [exact IH|reflexivity].
Qed.

Lemma strip_newline_cases (s : string) :
  strip_newline s = s \/ s = String.append (strip_newline s) LF.
Proof.
  induction s as [|c s IH]; [left; reflexivity|].
  destruct s as [|c' s].
  - simpl. destruct (Ascii.eqb_spec c (ascii_of_nat 10)) as [->|_].
    + right. reflexivity.
    + left. reflexivity.
  - change (strip_newline (String c (String c' s)))
      with (String c (strip_newline (String c' s))).
    destruct IH as [IH|IH].
    + left. rewrite IH. reflexivity.
    + right. rewrite IH at 1. reflexivity.
Qed.

Lemma c_string_app (a b : string) :
  c_string (String.append a b)
  = if no_nul a then String.append a (c_string b) else c_string a.
Proof.
  induction a as [|c a IH]; simpl; [reflexivity|].
  destruct (Ascii.eqb c NUL); simpl; [reflexivity|].
  rewrite IH. destruct (no_nul a); reflexivity.
Qed.

(** The buffer with and without the final newline. *)
Lemma buffer_with_newline (bytes : string) :
  c_string bytes = c_string (strip_newline bytes)
  \/ c_string bytes = String.append (c_string (strip_newline bytes)) LF.
Proof.
  destruct (strip_newline_cases bytes) as [E|E].
  - left. rewrite E. reflexivity.
  - assert (C : c_string bytes
                 = c_string (String.append (strip_newline bytes) LF))
      by (rewrite <- E; reflexivity).
    rewrite C, c_string_app.
    destruct (no_nul (strip_newline bytes)) eqn:N.
    + right. rewrite (c_string_no_nul _ N). reflexivity.
    + left. reflexivity.
Qed.

Lemma typed_length (s : string) :
  String.length (typed s) = S (String.length s).
Proof.
  unfold typed. induction s as [|a b IH]; simpl; [reflexivity|].
  rewrite IH. reflexivity.
Qed.

Lemma parse_by_tokens (s1 s2 : string) :
  (String.length s1 < BUFFER_SIZE)%nat ->
  (String.length s2 < BUFFER_SIZE)%nat ->
  line_tokens s1 = line_tokens s2 ->
  parse s1 = parse s2.
Proof.
  intros L1 L2 T. rewrite (parse_by_words s1 L1), (parse_by_words s2 L2), T.
  reflexivity.
Qed.

(** X30.  Spacing and the final newline make no difference.  [parse]
    depends on its buffer only through the tokens: two buffers that fit
    and have the same tokens, however these are spaced with blanks, tabs
    and newlines, are parsed alike, with the same result and the same
    messages.  And a turn of the loop does the same for a line that
    [read] gives without a newline at the end (the last line of an input
    that does not end with one) as for that line with the newline. *)
Theorem spacing_makes_no_difference (fuel : nat) (w : world) :
  (forall s1 s2,
     (String.length s1 < BUFFER_SIZE)%nat ->
     (String.length s2 < BUFFER_SIZE)%nat ->
     line_tokens s1 = line_tokens s2 ->
     parse s1 w = parse s2 w) /\
  (forall bytes,
     bytes <> EmptyString ->
     (String.length (typed bytes) <= BUFFER_SIZE - 1)%nat ->
     main_turn fuel (ReadBytes (typed bytes)) w
     = main_turn fuel (ReadBytes bytes) w).
Proof.
  split.
  - intros s1 s2 L1 L2 T. rewrite (parse_by_tokens s1 s2 L1 L2 T).
    reflexivity.
  - intros bytes Ne Len. unfold main_turn. cbv beta iota delta [bind ret].
    destruct (reap_background_processes fuel w) as [[r|] w1];
      [|reflexivity].
    destruct bytes as [|c bytes]; [contradiction|].
    change (typed (String c bytes))
      with (String c (String.append bytes LF)) at 1.
    cbv iota.
    change (String c (String.append bytes LF))
      with (typed (String c bytes)).
    rewrite strip_newline_typed.
    pose proof (typed_length (String c bytes)) as Lt.
    pose proof (c_string_length (String c bytes)) as Lc.
    pose proof (c_string_length (strip_newline (String c bytes))) as Ls.
    pose proof (strip_newline_length (String c bytes)) as Ln.
    assert (L1 : (String.length (c_string (String c bytes))
                  < BUFFER_SIZE)%nat)
      by (unfold BUFFER_SIZE in *; lia).
    assert (L2 : (String.length (c_string (strip_newline (String c bytes)))
                  < BUFFER_SIZE)%nat)
      by (unfold BUFFER_SIZE in *; lia).
    destruct (buffer_with_newline (String c bytes)) as [E|E].
    + rewrite E. reflexivity.
    + assert (W : is_empty_or_whitespace (Some (c_string (String c bytes)))
                  = is_empty_or_whitespace
                      (Some (c_string (strip_newline (String c bytes))))).
      { rewrite E. apply all_whitespace_app_space. reflexivity. }
      assert (T : line_tokens (c_string (String c bytes))
                  = line_tokens (c_string (strip_newline (String c bytes)))).
      { rewrite E. apply line_tokens_app_delim. reflexivity. }
      rewrite W, (parse_by_tokens _ _ L1 L2 T). reflexivity.
Qed.

Lemma spacing_makes_no_difference_witness :
  parse "  /bin/ls   -l " (initial_world 8 Sample.os_ok 50)
  = parse "/bin/ls -l" (initial_world 8 Sample.os_ok 50) /\
  main_turn 1 (ReadBytes (typed "jobs")) (initial_world 8 Sample.os_ok 50)
  = main_turn 1 (ReadBytes "jobs") (initial_world 8 Sample.os_ok 50).
Proof.
  destruct (spacing_makes_no_difference 1 (initial_world 8 Sample.os_ok 50))
    as [A B].
  split.
  - apply A; [vm_compute; lia|vm_compute; lia|reflexivity].
  - apply B; [discriminate|vm_compute; lia].
Defined.
